(** * cluster-api-provider-aws: instance provisioning and cluster reconciliation

    A shallow embedding of [pkg/cloud/services/ec2/instances.go] and of the
    delete/normal reconciliation paths of
    [controllers/awscluster_controller.go].

    Conventions.
    - A Go pointer [*T] is an [option T]; dereferencing [None] is a [Panic].
    - A Go [int64] is a [Z]; the functions below only compare and copy
      such values, no arithmetic is performed on them.
    - A Go [map[string]string] is a [gmap string string]; a nil map and an
      empty map are both [∅] (they have the same [len] and the same lookups).
    - A function returning [(T, error)] returns an [outcome T].
    - Remote calls go through an [EC2API] record (the [EC2Client] interface
      of the service); every call is appended to a trace so that the
      presence, absence and order of remote calls can be stated.
    - Logging ([s.scope.Info], [s.scope.V(n).Info]) and event recording
      ([record.Eventf], [record.Warnf]) have no influence on control flow
      and are left out. *)

From stdpp Require Import base strings list gmap sorting.
From Stdlib Require Import ZArith.

Local Open Scope string_scope.
Local Open Scope Z_scope.
Local Open Scope list_scope.

(** ** Errors *)

Module awserrors.

(** A formatted message: the format string of the source together with
    its arguments, kept symbolic. *)
Inductive Arg := AStr (s : string) | AInt (z : Z).
Coercion AStr : string >-> Arg.

Record Msg := Sprintf { format : string; args : list Arg }.

(** - [NewFailedDependency] is [awserrors.NewFailedDependency];
    - [New] is [errors.New] / [errors.Errorf] / [fmt.Errorf];
    - [Remote] is an error value handed back by a collaborator (the
      cloud SDK, a converger, the object store);
    - [Wrap] is [errors.Wrap] / [errors.Wrapf]. *)
Inductive error :=
| NewFailedDependency (m : Msg)
| New (m : Msg)
| Remote (code : string)
| Wrap (e : error) (m : Msg).

(** [errors.Cause]: strips the wrappers. *)
Fixpoint Cause (e : error) : error :=
  match e with
  | Wrap e' _ => Cause e'
  | _ => e
  end.

(** [awserrors.IsFailedDependency]: the cause is the failed-dependency
    error value. *)
Definition IsFailedDependency (e : error) : bool :=
  match Cause e with
  | NewFailedDependency _ => true
  | _ => false
  end.

(** What a Go function of result type [(T, error)] can do. *)
Inductive outcome (A : Type) :=
| Ok (a : A)
| Err (e : error)
| Panic.
Arguments Ok {A} a.
Arguments Err {A} e.
Arguments Panic {A}.

Definition isErr {A} (o : outcome A) : bool :=
  match o with Err _ => true | _ => false end.

End awserrors.
Export awserrors.

(** ** API types ([infrav1]) *)

Module infrav1.

Record Filter := { Filter_Name : string; Filter_Values : list string }.

Record AWSResourceReference := {
  Ref_ID : option string;
  Ref_ARN : option string;
  Ref_Filters : option (list Filter)   (* nil slice = None *)
}.

Record SpotMarketOptions := { MaxPrice : option string }.

Record Volume := {
  Vol_DeviceName : string;
  Vol_Size : Z;
  Vol_Type : string;
  Vol_IOPS : Z;
  Vol_Encrypted : bool;
  Vol_EncryptionKey : string
}.

Record SubnetSpec := {
  Subnet_ID : string;
  Subnet_AvailabilityZone : string;
  Subnet_IsPublic : bool
}.

Definition Subnets := list SubnetSpec.

(** Modelled from the spec: the helpers of [infrav1.Subnets]
    ([FindByID], [FilterPrivate], [FilterByZone]) are declared outside
    the files at hand.  The observed subnets are an ordered set of
    subnets "each with id, availability zone, public/private flag";
    [FindByID] is the first subnet carrying the id, the filters keep the
    order of the subnets. *)
Definition FindByID (s : Subnets) (id : string) : option SubnetSpec :=
  List.find (fun x => bool_decide (Subnet_ID x = id)) s.

Definition FilterPrivate (s : Subnets) : Subnets :=
  List.filter (fun x => negb (Subnet_IsPublic x)) s.

Definition FilterByZone (s : Subnets) (zone : string) : Subnets :=
  List.filter (fun x => bool_decide (Subnet_AvailabilityZone x = zone)) s.

(** The security-group roles named in the sources.  Their string values
    are declared outside the files at hand and play no part below. *)
Inductive SecurityGroupRole :=
| SecurityGroupBastion
| SecurityGroupNode
| SecurityGroupEKSNodeAdditional
| SecurityGroupControlPlane
| SecurityGroupAPIServerLB
| SecurityGroupLB.

#[global] Instance SecurityGroupRole_eq_dec : EqDecision SecurityGroupRole.
Proof. solve_decision. Defined.

Definition role_code (r : SecurityGroupRole) : nat :=
  match r with
  | SecurityGroupBastion => 0 | SecurityGroupNode => 1
  | SecurityGroupEKSNodeAdditional => 2 | SecurityGroupControlPlane => 3
  | SecurityGroupAPIServerLB => 4 | SecurityGroupLB => 5
  end%nat.

Definition role_of_code (n : nat) : SecurityGroupRole :=
  match n with
  | 0 => SecurityGroupBastion | 1 => SecurityGroupNode
  | 2 => SecurityGroupEKSNodeAdditional | 3 => SecurityGroupControlPlane
  | 4 => SecurityGroupAPIServerLB | _ => SecurityGroupLB
  end%nat.

#[global] Instance SecurityGroupRole_countable : Countable SecurityGroupRole.
Proof. refine (inj_countable' role_code role_of_code _). by intros []. Defined.

Record SecurityGroup := { SG_ID : string; SG_Name : string }.

Inductive InstanceState := StateOf (name : string).

Inductive MachineAddressType :=
| MachineInternalDNS | MachineInternalIP | MachineExternalDNS | MachineExternalIP.

Record MachineAddress := { Addr_Type : MachineAddressType; Addr_Address : string }.

Record Instance := {
  ID : string;
  State : InstanceState;
  Type_ : string;
  SubnetID : string;
  ImageID : string;
  SSHKeyName : option string;
  SecurityGroupIDs : list string;
  UserData : option string;
  IAMProfile : string;
  Addresses : list MachineAddress;
  PrivateIP : option string;
  PublicIP : option string;
  ENASupport : option bool;
  EBSOptimized : option bool;
  RootVolume : option Volume;
  NonRootVolumes : list Volume;
  NetworkInterfaces : list string;
  Tags : gmap string string;
  AvailabilityZone : string;
  Inst_SpotMarketOptions : option SpotMarketOptions;
  Tenancy : string;
  VolumeIDs : list string
}.

End infrav1.

(** ** The cloud SDK's request and response shapes ([ec2], [aws]) *)

Module sdk.

(** [aws.StringValue]: the empty string for a nil pointer. *)
Definition StringValue (p : option string) : string := default "" p.

(** Constants of the SDK's [ec2] package. *)
Definition InstanceInterruptionBehaviorTerminate : string := "terminate".
Definition SpotInstanceTypeOneTime : string := "one-time".
Definition MarketTypeSpot : string := "spot".
Definition ResourceTypeInstance : string := "instance".
Definition SubnetStatePending : string := "pending".
Definition SubnetStateAvailable : string := "available".

Record Filter := { Name : option string; Values : list (option string) }.

Record Tag := { Key : option string; Value : option string }.

Record SpotMarketOptions := {
  BlockDurationMinutes : option Z;
InstanceInterruptionBehavior : option string;
Spot_MaxPrice : option string;
SpotInstanceType : option string
}.

Record InstanceMarketOptionsRequest := {
  MarketType : option string;
  SpotOptions : option SpotMarketOptions
}.

Record EbsBlockDevice := {
  DeleteOnTermination : option bool;
  VolumeSize : option Z;
  Encrypted : option bool;
  Iops : option Z;
  KmsKeyId : option string;
  VolumeType : option string
}.

Record BlockDeviceMapping := {
  DeviceName : option string;
  Ebs : option EbsBlockDevice
}.

Record Image := {
  RootDeviceName : option string;
  Image_BlockDeviceMappings : list BlockDeviceMapping
}.

Record Subnet := { SubnetId : option string }.

Record GroupIdentifier := { GroupId : option string }.

Record NetworkInterfaceAssociation := {
  PublicDnsName : option string;
  PublicIp : option string
}.

Record NetworkInterface := {
  NetworkInterfaceId : option string;
  Groups : list GroupIdentifier
}.

(** A describe filter.  The constructors of package [filter]
    ([filter.EC2.SubnetStates], [filter.EC2.VPC],
    [filter.EC2.AvailabilityZone]) are declared outside the files at
    hand and are kept symbolic; [Raw] is a literal [&ec2.Filter{...}]. *)
Inductive DescribeFilter :=
| EC2_SubnetStates (states : list string)
| EC2_VPC (id : string)
| EC2_AvailabilityZone (zone : string)
| Raw (f : Filter).

Record InstanceNetworkInterfaceSpecification := {
  Spec_NetworkInterfaceId : option string;
  DeviceIndex : option Z
}.

Record IamInstanceProfileSpecification := { Profile_Name : option string }.

Record TagSpecification := {
  ResourceType : option string;
  TagSpec_Tags : list Tag
}.

Record Placement := {
  Placement_AvailabilityZone : option string;
  Placement_Tenancy : option string
}.

Record RunInstancesInput := {
  In_InstanceType : option string;
  In_ImageId : option string;
  In_KeyName : option string;
  In_EbsOptimized : option bool;
  In_MaxCount : option Z;
  In_MinCount : option Z;
  In_UserData : option string;
  In_NetworkInterfaces : list InstanceNetworkInterfaceSpecification;
  In_SubnetId : option string;
  In_SecurityGroupIds : list (option string);
  In_IamInstanceProfile : option IamInstanceProfileSpecification;
  In_BlockDeviceMappings : list BlockDeviceMapping;
  In_TagSpecifications : list TagSpecification;
  In_InstanceMarketOptions : option InstanceMarketOptionsRequest;
  In_Placement : option Placement
}.

Record InstanceStateT := { State_Name : option string }.

Record IamInstanceProfile := { Arn : option string }.

Record InstanceNetworkInterface := {
  PrivateDnsName : option string;
  PrivateIpAddress : option string;
  Association : option NetworkInterfaceAssociation
}.

Record EbsInstanceBlockDevice := { VolumeId : option string }.

Record InstanceBlockDeviceMapping := { Inst_Ebs : option EbsInstanceBlockDevice }.

Record Instance := {
InstanceId : option string;
Inst_State : option InstanceStateT;
InstanceType : option string;
Inst_SubnetId : option string;
ImageId : option string;
KeyName : option string;
Inst_PrivateIpAddress : option string;
PublicIpAddress : option string;
EnaSupport : option bool;
EbsOptimized : option bool;
Inst_IamInstanceProfile : option IamInstanceProfile;
SecurityGroups : list GroupIdentifier;
Inst_Tags : list Tag;
Inst_NetworkInterfaces : list InstanceNetworkInterface;
Inst_Placement : option Placement;
Inst_BlockDeviceMappings : list InstanceBlockDeviceMapping
}.

(** [strings.Split] for a non-empty separator: [skip] counts the
    characters of a matched separator still to be dropped, [cur] is the
    piece being collected. *)
Fixpoint split_go (sep : string) (skip : nat) (cur s : string) : list string :=
  match s with
  | EmptyString => [cur]
  | String c s' =>
      match skip with
      | S k => split_go sep k cur s'
      | O =>
          if String.prefix sep s
          then cur :: split_go sep (String.length sep - 1) "" s'
          else split_go sep 0 (cur +:+ String c "") s'
      end
  end.

Definition Split (s sep : string) : list string := split_go sep 0 "" s.

(** One entry of the trace per remote call, with the request. *)
Inductive Call :=
| CallDescribeSubnets (criteria : list DescribeFilter)
| CallDescribeNetworkInterfaces (filters : list DescribeFilter)
| CallDescribeNetworkInterfaceAttribute (attribute networkInterfaceId : option string)
| CallModifyNetworkInterfaceAttribute
    (networkInterfaceId : option string) (groups : list (option string))
| CallCreateTags (resources : list (option string)) (tags : list Tag)
| CallDeleteTags (resources : list (option string)) (tags : list Tag)
| CallDescribeImages (imageIds : list (option string))
| CallRunInstances (input : RunInstancesInput)
| CallWaitUntilInstanceRunning (instanceIds : list (option string))
| CallEksAMILookup (version : string) (lookupType : option string)
| CallDefaultAMIIDLookup (format org baseOS version : string).

Definition isRunInstances (c : Call) : bool :=
  match c with CallRunInstances _ => true | _ => false end.

Definition isModify (c : Call) : bool :=
  match c with CallModifyNetworkInterfaceAttribute _ _ => true | _ => false end.

Definition isCreateTags (c : Call) : bool :=
  match c with CallCreateTags _ _ => true | _ => false end.

Definition isDeleteTags (c : Call) : bool :=
  match c with CallDeleteTags _ _ => true | _ => false end.

End sdk.

(** ** [instances.go]: the pure resolvers *)

Module ec2.

Import infrav1.

(** [getInstanceMarketOptionsRequest] *)
Definition getInstanceMarketOptionsRequest
    (spotMarketOptions : option SpotMarketOptions)
    : option sdk.InstanceMarketOptionsRequest :=
  match spotMarketOptions with
  | None => None
  | Some smo =>
      let spotOptions :=
        {| sdk.BlockDurationMinutes := None;
           sdk.InstanceInterruptionBehavior :=
             Some sdk.InstanceInterruptionBehaviorTerminate;
           sdk.Spot_MaxPrice := None;
           sdk.SpotInstanceType := Some sdk.SpotInstanceTypeOneTime |} in
      let spotOptions :=
        match MaxPrice smo with
        | Some p =>
            if bool_decide (p ≠ "") then
              {| sdk.BlockDurationMinutes := sdk.BlockDurationMinutes spotOptions;
                 sdk.InstanceInterruptionBehavior :=
                   sdk.InstanceInterruptionBehavior spotOptions;
                 sdk.Spot_MaxPrice := Some p;
                 sdk.SpotInstanceType := sdk.SpotInstanceType spotOptions |}
            else spotOptions
        | None => spotOptions
        end in
      Some {| sdk.MarketType := Some sdk.MarketTypeSpot;
              sdk.SpotOptions := Some spotOptions |}
  end.

(** [filterGroups] *)
Fixpoint filterGroups (l : list string) (strToFilter : string) : list string :=
  match l with
  | [] => []
  | item :: rest =>
      if bool_decide (item ≠ strToFilter)
      then item :: filterGroups rest strToFilter
      else filterGroups rest strToFilter
  end.

(** [containsGroup] *)
Fixpoint containsGroup (l : list string) (strToSearch : string) : bool :=
  match l with
  | [] => false
  | item :: rest =>
      if bool_decide (item = strToSearch) then true
      else containsGroup rest strToSearch
  end.

(** *** Scopes

    What the functions read from the cluster scope held by the service
    ([s.scope]) and from the machine scope passed to them.  The accessor
    methods of the scopes are declared outside the files at hand; each
    one is a field here. *)

Record EC2Scope := {
  Scope_Name : string;                                  (* s.scope.Name() *)
  VPC_ID : string;                                      (* s.scope.VPC().ID *)
  Scope_Subnets : Subnets;                              (* s.scope.Subnets() *)
  APIServerELB_DNSName : string;       (* s.scope.Network().APIServerELB.DNSName *)
  Scope_SecurityGroups : gmap SecurityGroupRole SecurityGroup
}.

Record AMIReference := {
  AMI_ID : option string;
  EKSOptimizedLookupType : option string
}.

Record AWSMachineSpec := {
  Spec_InstanceType : string;
  Spec_IAMInstanceProfile : string;
  Spec_RootVolume : option Volume;
  Spec_NonRootVolumes : list Volume;
  Spec_NetworkInterfaces : list string;
  AMI : AMIReference;
  ImageLookupFormat : string;
  ImageLookupOrg : string;
  ImageLookupBaseOS : string;
  Spec_FailureDomain : option string;
  Subnet : option AWSResourceReference;
  Spec_SSHKeyName : option string;
  Spec_SpotMarketOptions : option SpotMarketOptions;
  Spec_Tenancy : string
}.

Record MachineSpec := {
  Version : option string;
  FailureDomain : option string
}.

(** [scope.InfraCluster] of a machine scope. *)
Record InfraClusterScope := {
  IC_ImageLookupFormat : string;
  IC_ImageLookupOrg : string;
  IC_ImageLookupBaseOS : string;
  IC_SSHKeyName : option string
}.

Record MachineScope := {
  MS_Name : string;                    (* scope.Name() *)
  Role : string;                       (* scope.Role() *)
  Machine : MachineSpec;               (* scope.Machine.Spec *)
  AWSMachine : AWSMachineSpec;         (* scope.AWSMachine.Spec *)
  InfraCluster : InfraClusterScope;
  IsExternallyManaged : bool;
  IsEKSManaged : bool;
  UserDataIsUncompressed : bool;
  AdditionalTags : gmap string string
}.

(** [GetCoreSecurityGroups]: the loop over the assembled roles. *)
Fixpoint lookupRoles (sgs : gmap SecurityGroupRole SecurityGroup)
    (sgRoles : list SecurityGroupRole) (ids : list string) : outcome (list string) :=
  match sgRoles with
  | [] => Ok ids
  | sg :: rest =>
      match sgs !! sg with
      | None =>
          Err (NewFailedDependency (Sprintf "%s security group not available" []))
      | Some g => lookupRoles sgs rest (ids ++ [SG_ID g])
      end
  end.

(** [GetCoreSecurityGroups]: the role list assembled before the lookup;
    [None] for a role string that is neither "node" nor "control-plane". *)
Definition coreRoles (scope : MachineScope) : option (list SecurityGroupRole) :=
  let sgRoles := [SecurityGroupNode] in
  let sgRoles :=
    if negb (IsEKSManaged scope) then sgRoles ++ [SecurityGroupLB] else sgRoles in
  if bool_decide (Role scope = "node") then
    if IsEKSManaged scope
    then Some (sgRoles ++ [SecurityGroupEKSNodeAdditional])
    else Some sgRoles
  else if bool_decide (Role scope = "control-plane") then
    Some (sgRoles ++ [SecurityGroupControlPlane])
  else None.

(** [GetCoreSecurityGroups] *)
Definition GetCoreSecurityGroups (s : EC2Scope) (scope : MachineScope)
    : outcome (list string) :=
  if IsExternallyManaged scope then Ok []
  else
    match coreRoles scope with
    | None => Err (New (Sprintf "Unknown node role %q" [AStr (Role scope)]))
    | Some sgRoles => lookupRoles (Scope_SecurityGroups s) sgRoles []
    end.

(** *** The service and its remote calls *)

Section Service.

(** [W] is whatever stands behind the client: the provider's state, a
    script of canned responses, a history. *)
Context {W : Type}.

Definition Response (A : Type) : Type := (error + A)%type.

(** The part of the [EC2Client] interface used below.  A method takes
    its request and the state behind the client and yields its
    response and the state afterwards. *)
Record EC2API := {
  DescribeSubnets : list sdk.DescribeFilter → W → Response (list sdk.Subnet) * W;
  DescribeNetworkInterfaces :
    list sdk.DescribeFilter → W → Response (list sdk.NetworkInterface) * W;
  DescribeNetworkInterfaceAttribute :
    option string → option string → W → Response (list sdk.GroupIdentifier) * W;
  ModifyNetworkInterfaceAttribute :
    option string → list (option string) → W → Response unit * W;
  CreateTags : list (option string) → list sdk.Tag → W → Response unit * W;
  DeleteTags : list (option string) → list sdk.Tag → W → Response unit * W;
  DescribeImages : list (option string) → W → Response (list sdk.Image) * W;
  RunInstances : sdk.RunInstancesInput → W → Response (list sdk.Instance) * W;
  WaitUntilInstanceRunningWithContext : list (option string) → W → Response unit * W
}.

(** Functions, methods and constants of this code base that the file
    uses and that are declared outside the files at hand.  The two image
    lookups talk to the provider; each is recorded in the trace as one
    call of its own kind ([CallEksAMILookup], [CallDefaultAMIIDLookup]). *)
Record Collaborators := {
  (* [converters.MapToTags], [converters.TagsToMap] *)
  MapToTags : gmap string string → list sdk.Tag;
  TagsToMap : list sdk.Tag → outcome (gmap string string);
  (* [infrav1.Build(...)] with the parameters CreateInstance passes *)
  BuildTags : EC2Scope → MachineScope → gmap string string;
  (* [s.eksAMILookup], [s.defaultAMIIDLookup] *)
  eksAMILookup : string → option string → W → Response string * W;
  defaultAMIIDLookup : string → string → string → string → W → Response string * W;
  (* [userdata.GzipBytes], [base64.StdEncoding.EncodeToString] *)
  GzipBytes : list Byte.byte → Response (list Byte.byte);
  EncodeToString : list Byte.byte → string;
  (* the package constant [defaultSSHKeyName] *)
  defaultSSHKeyName : string
}.

Record Service := {
  s_scope : EC2Scope;                 (* s.scope *)
  EC2Client : EC2API;
  deps : Collaborators
}.

(** The state threaded through a service method: the state behind the
    client, the trace of calls issued so far (oldest first) and the
    failure reason and message set on the machine scope, if any. *)
Record St := {
  world : W;
  calls : list sdk.Call;
  failure : option (string * error)
}.

Definition M (A : Type) : Type := St → outcome A * St.

Definition ret {A} (a : A) : M A := fun st => (Ok a, st).
Definition fail {A} (e : error) : M A := fun st => (Err e, st).
Definition panic {A} : M A := fun st => (Panic, st).

Definition bind {A B} (m : M A) (k : A → M B) : M B :=
  fun st =>
    match m st with
    | (Ok a, st') => k a st'
    | (Err e, st') => (Err e, st')
    | (Panic, st') => (Panic, st')
    end.

(** Run [m] and hand its error, if any, to the continuation as a value:
    an error that the source inspects or drops instead of returning. *)
Definition try {A} (m : M A) : M (Response A) :=
  fun st =>
    match m st with
    | (Ok a, st') => (Ok (inr a), st')
    | (Err e, st') => (Ok (inl e), st')
    | (Panic, st') => (Panic, st')
    end.

Definition lift {A} (o : outcome A) : M A := fun st => (o, st).

(** Issue one remote call: record it, run it against the client. *)
Definition call {A} (c : sdk.Call) (f : W → Response A * W) : M A :=
  fun st =>
    let '(r, w') := f (world st) in
    let st' := {| world := w'; calls := calls st ++ [c]; failure := failure st |} in
    match r with
    | inl e => (Err e, st')
    | inr a => (Ok a, st')
    end.

(** [scope.SetFailureReason(r); scope.SetFailureMessage(e)] *)
Definition setFailure (r : string) (e : error) : M unit :=
  fun st =>
    (Ok tt, {| world := world st; calls := calls st; failure := Some (r, e) |}).

(** [return nil, errors.Wrapf(err, ...)] around a fallible step. *)
Definition wrapErr {A} (m : M A) (msg : Msg) : M A :=
  fun st =>
    match m st with
    | (Err e, st') => (Err (Wrap e msg), st')
    | r => r
    end.

End Service.

Arguments EC2API : clear implicits.
Arguments Collaborators : clear implicits.
Arguments Service : clear implicits.
Arguments St : clear implicits.
Arguments M : clear implicits.

Declare Scope go_scope.
Delimit Scope go_scope with go.
Notation "'let*' x ':=' m 'in' k" := (bind m (fun x => k))
  (at level 10, x pattern, m at level 100, k at level 200) : go_scope.

(** *** Methods of the service *)

Section Methods.

Context {W : Type}.
Implicit Type s : Service W.
Local Open Scope go_scope.

(** [getFilteredSubnets] *)
Definition getFilteredSubnets s (criteria : list sdk.DescribeFilter)
    : M W (list sdk.Subnet) :=
  call (sdk.CallDescribeSubnets criteria) (DescribeSubnets (EC2Client s) criteria).

(** [findSubnet]: the failure domain, [Machine.Spec.FailureDomain]
    first, [AWSMachine.Spec.FailureDomain] when that one is nil. *)
Definition failureDomainOf (scope : MachineScope) : option string :=
  match FailureDomain (Machine scope) with
  | Some fd => Some fd
  | None => Spec_FailureDomain (AWSMachine scope)
  end.

(** [findSubnet] *)
Definition findSubnet s (scope : MachineScope) : M W string :=
  let failureDomain := failureDomainOf scope in
  match Subnet (AWSMachine scope) with
  | Some {| Ref_ID := Some id |} =>
      match failureDomain with
      | Some fd =>
          match FindByID (Scope_Subnets (s_scope s)) id with
          | None =>
              fail (NewFailedDependency
                (Sprintf "failed to run machine %q, subnet with id %q not found"
                   [AStr (MS_Name scope); AStr id]))
          | Some subnet =>
              if bool_decide (Subnet_AvailabilityZone subnet ≠ fd) then
                fail (NewFailedDependency
                  (Sprintf "failed to run machine %q, subnet's availability zone %q does not match with the failure domain %q"
                     [AStr (MS_Name scope); AStr (Subnet_AvailabilityZone subnet);
                      AStr fd]))
              else ret id
          end
      | None => ret id
      end
  | Some {| Ref_Filters := Some filters |} =>
      let criteria :=
        [sdk.EC2_SubnetStates [sdk.SubnetStatePending; sdk.SubnetStateAvailable]] in
      let criteria :=
        if negb (IsExternallyManaged scope)
        then criteria ++ [sdk.EC2_VPC (VPC_ID (s_scope s))] else criteria in
      let criteria :=
        match failureDomain with
        | Some fd => criteria ++ [sdk.EC2_AvailabilityZone fd]
        | None => criteria
        end in
      let criteria :=
        criteria ++
        map (fun f => sdk.Raw {| sdk.Name := Some (Filter_Name f);
                                 sdk.Values := map Some (Filter_Values f) |})
            filters in
      let* subnets :=
        wrapErr (getFilteredSubnets s criteria)
                (Sprintf "failed to filter subnets for criteria %q" []) in
      match subnets with
      | [] =>
          fail (NewFailedDependency
            (Sprintf "failed to run machine %q, no subnets available matching filters %q"
               [AStr (MS_Name scope)]))
      | sn :: _ =>
          match sdk.SubnetId sn with
          | Some id => ret id
          | None => panic
          end
      end
  | _ =>
      match failureDomain with
      | Some fd =>
          match FilterByZone (FilterPrivate (Scope_Subnets (s_scope s))) fd with
          | [] =>
              fail (NewFailedDependency
                (Sprintf "failed to run machine %q, no subnets available in availability zone %q"
                   [AStr (MS_Name scope); AStr fd]))
          | sn :: _ => ret (Subnet_ID sn)
          end
      | None =>
          match FilterPrivate (Scope_Subnets (s_scope s)) with
          | [] =>
              fail (NewFailedDependency
                (Sprintf "failed to run machine %q, no subnets available"
                   [AStr (MS_Name scope)]))
          | sn :: _ => ret (Subnet_ID sn)
          end
      end
  end.

(** [getInstanceENIs] *)
Definition getInstanceENIs s (instanceID : string) : M W (list sdk.NetworkInterface) :=
  let filters :=
    [sdk.Raw {| sdk.Name := Some "attachment.instance-id";
                sdk.Values := [Some instanceID] |}] in
  call (sdk.CallDescribeNetworkInterfaces filters)
       (DescribeNetworkInterfaces (EC2Client s) filters).

(** [getNetworkInterfaceSecurityGroups] *)
Definition getNetworkInterfaceSecurityGroups s (interfaceID : string)
    : M W (list string) :=
  let* groups :=
    call (sdk.CallDescribeNetworkInterfaceAttribute (Some "groupSet") (Some interfaceID))
         (DescribeNetworkInterfaceAttribute (EC2Client s)
            (Some "groupSet") (Some interfaceID)) in
  ret (map (fun g => sdk.StringValue (sdk.GroupId g)) groups).

(** [attachSecurityGroupsToNetworkInterface]: the loop that extends the
    copy of the existing groups. *)
Definition totalGroupsOf (existingGroups groups : list string) : list string :=
  fold_left
    (fun totalGroups group =>
       if negb (containsGroup existingGroups group)
       then totalGroups ++ [group] else totalGroups)
    groups existingGroups.

(** [attachSecurityGroupsToNetworkInterface] *)
Definition attachSecurityGroupsToNetworkInterface s
    (groups : list string) (interfaceID : string) : M W unit :=
  let* existingGroups :=
    wrapErr (getNetworkInterfaceSecurityGroups s interfaceID)
            (Sprintf "failed to look up network interface security groups: %+v" []) in
  let totalGroups := totalGroupsOf existingGroups groups in
  if bool_decide (length existingGroups = length totalGroups) then ret tt
  else
    wrapErr
      (call (sdk.CallModifyNetworkInterfaceAttribute
               (Some interfaceID) (map Some totalGroups))
            (ModifyNetworkInterfaceAttribute (EC2Client s)
               (Some interfaceID) (map Some totalGroups)))
      (Sprintf "failed to modify interface %q to have security groups %v"
         [AStr interfaceID]).

(** [DetachSecurityGroupsFromNetworkInterface] *)
Definition DetachSecurityGroupsFromNetworkInterface s
    (groups : list string) (interfaceID : string) : M W unit :=
  let* existingGroups :=
    wrapErr (getNetworkInterfaceSecurityGroups s interfaceID)
            (Sprintf "failed to look up network interface security groups" []) in
  let remainingGroups := fold_left filterGroups groups existingGroups in
  wrapErr
    (call (sdk.CallModifyNetworkInterfaceAttribute
             (Some interfaceID) (map Some remainingGroups))
          (ModifyNetworkInterfaceAttribute (EC2Client s)
             (Some interfaceID) (map Some remainingGroups)))
    (Sprintf "failed to modify interface %q" [AStr interfaceID]).

(** [UpdateInstanceSecurityGroups]: the loop over the interfaces. *)
Fixpoint attachToEach s (ids : list string) (instanceID : string)
    (enis : list sdk.NetworkInterface) : M W unit :=
  match enis with
  | [] => ret tt
  | eni :: rest =>
      let* _ :=
        wrapErr
          (attachSecurityGroupsToNetworkInterface s ids
             (sdk.StringValue (sdk.NetworkInterfaceId eni)))
          (Sprintf "failed to modify network interfaces on instance %q"
             [AStr instanceID]) in
      attachToEach s ids instanceID rest
  end.

(** [UpdateInstanceSecurityGroups] *)
Definition UpdateInstanceSecurityGroups s (instanceID : string) (ids : list string)
    : M W unit :=
  let* enis :=
    wrapErr (getInstanceENIs s instanceID)
            (Sprintf "failed to get ENIs for instance %q" [AStr instanceID]) in
  attachToEach s ids instanceID enis.

(** [UpdateResourceTags] *)
Definition UpdateResourceTags s (resourceID : option string)
    (create remove : gmap string string) : M W unit :=
  match resourceID with
  | None => panic                      (* [*resourceID] in the first statement *)
  | Some rid =>
      let* _ :=
        if bool_decide (0 < size create)%nat then
          wrapErr
            (call (sdk.CallCreateTags [resourceID] (MapToTags (deps s) create))
                  (CreateTags (EC2Client s) [resourceID] (MapToTags (deps s) create)))
            (Sprintf "failed to create tags for resource %q: %+v" [AStr rid])
        else ret tt in
      let* _ :=
        if bool_decide (0 < size remove)%nat then
          wrapErr
            (call (sdk.CallDeleteTags [resourceID] (MapToTags (deps s) remove))
                  (DeleteTags (EC2Client s) [resourceID] (MapToTags (deps s) remove)))
            (Sprintf "failed to delete tags for resource %q: %v" [AStr rid])
        else ret tt in
      ret tt
  end.

(** [getImageRootDevice] *)
Definition getImageRootDevice s (imageID : string) : M W (option string) :=
  let* images :=
    call (sdk.CallDescribeImages [Some imageID])
         (DescribeImages (EC2Client s) [Some imageID]) in
  match images with
  | [] => fail (New (Sprintf "no images returned when looking up ID %q" [AStr imageID]))
  | image :: _ => ret (sdk.RootDeviceName image)
  end.

(** [getImageSnapshotSize] *)
Definition getImageSnapshotSize s (imageID : string) : M W (option Z) :=
  let* images :=
    call (sdk.CallDescribeImages [Some imageID])
         (DescribeImages (EC2Client s) [Some imageID]) in
  match images with
  | [] => fail (New (Sprintf "no images returned when looking up ID %q" [AStr imageID]))
  | image :: _ =>
      match sdk.Image_BlockDeviceMappings image with
      | [] => panic
      | mapping :: _ =>
          match sdk.Ebs mapping with
          | None => panic
          | Some ebs => ret (sdk.VolumeSize ebs)
          end
      end
  end.

(** [checkRootVolume] *)
Definition checkRootVolume s (rootVolume : Volume) (imageID : string)
    : M W (option string) :=
  let* rootDeviceName :=
    wrapErr (getImageRootDevice s imageID)
            (Sprintf "failed to get root volume from image %q" [AStr imageID]) in
  let* snapshotSize :=
    wrapErr (getImageSnapshotSize s imageID)
            (Sprintf "failed to get root volume from image %q" [AStr imageID]) in
  match snapshotSize with
  | None => panic
  | Some size =>
      if bool_decide (Vol_Size rootVolume < size) then
        fail (New (Sprintf
          "root volume size (%d) must be greater than or equal to snapshot size (%d)"
          [AInt (Vol_Size rootVolume); AInt size]))
      else ret rootDeviceName
  end.

(** [getInstanceAddresses] *)
Definition getInstanceAddresses (instance : sdk.Instance) : list MachineAddress :=
  flat_map
    (fun eni =>
       [ {| Addr_Type := MachineInternalDNS;
            Addr_Address := sdk.StringValue (sdk.PrivateDnsName eni) |};
         {| Addr_Type := MachineInternalIP;
            Addr_Address := sdk.StringValue (sdk.PrivateIpAddress eni) |} ]
       ++ match sdk.Association eni with
          | Some assoc =>
              [ {| Addr_Type := MachineExternalDNS;
                   Addr_Address := sdk.StringValue (sdk.PublicDnsName assoc) |};
                {| Addr_Type := MachineExternalIP;
                   Addr_Address := sdk.StringValue (sdk.PublicIp assoc) |} ]
          | None => []
          end)
    (sdk.Inst_NetworkInterfaces instance).

(** A loop that dereferences one pointer per element. *)
Fixpoint derefAll {A} (f : A → option string) (l : list A) : outcome (list string) :=
  match l with
  | [] => Ok []
  | x :: rest =>
      match f x, derefAll f rest with
      | Some v, Ok vs => Ok (v :: vs)
      | _, Err e => Err e
      | _, _ => Panic
      end
  end.

(** [SDKToInstance] *)
Definition SDKToInstance s (v : sdk.Instance) : outcome Instance :=
  match sdk.Inst_State v ≫= sdk.State_Name with
  | None => Panic
  | Some stateName =>
      let iamProfile :=
        match sdk.Inst_IamInstanceProfile v ≫= sdk.Arn with
        | Some arn =>
            match sdk.Split arn "instance-profile/" with
            | _ :: name :: _ => if bool_decide (name ≠ "") then name else ""
            | _ => ""
            end
        | None => ""
        end in
      match derefAll sdk.GroupId (sdk.SecurityGroups v) with
      | Ok securityGroupIDs =>
          match
            (if bool_decide (0 < length (sdk.Inst_Tags v))%nat
             then TagsToMap (deps s) (sdk.Inst_Tags v) else Ok ∅)
          with
          | Ok tags =>
              match sdk.Inst_Placement v with
              | None => Panic
              | Some placement =>
                  match derefAll (fun volume => sdk.Inst_Ebs volume ≫= sdk.VolumeId)
                                 (sdk.Inst_BlockDeviceMappings v) with
                  | Ok volumeIDs =>
                      Ok {| ID := sdk.StringValue (sdk.InstanceId v);
                            State := StateOf stateName;
                            Type_ := sdk.StringValue (sdk.InstanceType v);
                            SubnetID := sdk.StringValue (sdk.Inst_SubnetId v);
                            ImageID := sdk.StringValue (sdk.ImageId v);
                            SSHKeyName := sdk.KeyName v;
                            SecurityGroupIDs := securityGroupIDs;
                            UserData := None;
                            IAMProfile := iamProfile;
                            Addresses := getInstanceAddresses v;
                            PrivateIP := sdk.Inst_PrivateIpAddress v;
                            PublicIP := sdk.PublicIpAddress v;
                            ENASupport := sdk.EnaSupport v;
                            EBSOptimized := sdk.EbsOptimized v;
                            RootVolume := None;
                            NonRootVolumes := [];
                            NetworkInterfaces := [];
                            Tags := tags;
                            AvailabilityZone :=
                              sdk.StringValue (sdk.Placement_AvailabilityZone placement);
                            Inst_SpotMarketOptions := None;
                            Tenancy := "";
                            VolumeIDs := volumeIDs |}
                  | Err e => Err e
                  | Panic => Panic
                  end
              end
          | Err e => Err e
          | Panic => Panic
          end
      | Err e => Err e
      | Panic => Panic
      end
  end.

(** [runInstance]: the block device built from a volume (the source
    builds the root device and every non-root device the same way). *)
Definition ebsDeviceOf (volume : Volume) : sdk.EbsBlockDevice :=
  {| sdk.DeleteOnTermination := Some true;
     sdk.VolumeSize := Some (Vol_Size volume);
     sdk.Encrypted :=
       if bool_decide (Vol_EncryptionKey volume ≠ "") then Some true
       else Some (Vol_Encrypted volume);
     sdk.Iops :=
       if bool_decide (Vol_IOPS volume ≠ 0) then Some (Vol_IOPS volume) else None;
     sdk.KmsKeyId :=
       if bool_decide (Vol_EncryptionKey volume ≠ "")
       then Some (Vol_EncryptionKey volume) else None;
     sdk.VolumeType :=
       if bool_decide (Vol_Type volume ≠ "") then Some (Vol_Type volume) else None |}.

(** [runInstance]: the loop over the non-root volumes. *)
Fixpoint nonRootMappings (volumes : list Volume)
    (blockdeviceMappings : list sdk.BlockDeviceMapping)
    : outcome (list sdk.BlockDeviceMapping) :=
  match volumes with
  | [] => Ok blockdeviceMappings
  | nonRootVolume :: rest =>
      if bool_decide (Vol_DeviceName nonRootVolume = "") then
        Err (New (Sprintf "non root volume should have device name specified" []))
      else
        nonRootMappings rest
          (blockdeviceMappings ++
           [{| sdk.DeviceName := Some (Vol_DeviceName nonRootVolume);
               sdk.Ebs := Some (ebsDeviceOf nonRootVolume) |}])
  end.

(** [runInstance]: the tag specification, keys sorted ([sort.Strings]). *)
Definition tagSpecifications (tags : gmap string string) : list sdk.TagSpecification :=
  if bool_decide (0 < size tags)%nat then
    let keys := merge_sort (λ a b, String.leb a b) (map fst (map_to_list tags)) in
    [{| sdk.ResourceType := Some sdk.ResourceTypeInstance;
        sdk.TagSpec_Tags :=
          map (fun key => {| sdk.Key := Some key; sdk.Value := Some (tags !!! key) |})
              keys |}]
  else [].

(** [runInstance]: the request assembled before the remote call. *)
Definition runInstancesInput (i : Instance)
    (blockdeviceMappings : list sdk.BlockDeviceMapping) : sdk.RunInstancesInput :=
  let withInterfaces := bool_decide (0 < length (NetworkInterfaces i))%nat in
  {| sdk.In_InstanceType := Some (Type_ i);
     sdk.In_ImageId := Some (ImageID i);
     sdk.In_KeyName := SSHKeyName i;
     sdk.In_EbsOptimized := EBSOptimized i;
     sdk.In_MaxCount := Some 1;
     sdk.In_MinCount := Some 1;
     sdk.In_UserData := UserData i;
     sdk.In_NetworkInterfaces :=
       if withInterfaces then
         imap (fun index id =>
                 {| sdk.Spec_NetworkInterfaceId := Some id;
                    sdk.DeviceIndex := Some (Z.of_nat index) |})
              (NetworkInterfaces i)
       else [];
     sdk.In_SubnetId := if withInterfaces then None else Some (SubnetID i);
     sdk.In_SecurityGroupIds :=
       if withInterfaces then [] else map Some (SecurityGroupIDs i);
     sdk.In_IamInstanceProfile :=
       if bool_decide (IAMProfile i ≠ "")
       then Some {| sdk.Profile_Name := Some (IAMProfile i) |} else None;
     sdk.In_BlockDeviceMappings := blockdeviceMappings;
     sdk.In_TagSpecifications := tagSpecifications (Tags i);
     sdk.In_InstanceMarketOptions :=
       getInstanceMarketOptionsRequest (Inst_SpotMarketOptions i);
     sdk.In_Placement :=
       if bool_decide (Tenancy i ≠ "")
       then Some {| sdk.Placement_AvailabilityZone := None;
                    sdk.Placement_Tenancy := Some (Tenancy i) |}
       else None |}.

(** [runInstance] *)
Definition runInstance s (role : string) (i : Instance) : M W Instance :=
  match UserData i with
  | None => panic                  (* [i.UserData] is dereferenced for its length *)
  | Some _ =>
      let* rootMappings :=
        match RootVolume i with
        | Some rootVolume =>
            let* rootDeviceName := checkRootVolume s rootVolume (ImageID i) in
            ret [{| sdk.DeviceName := rootDeviceName;
                    sdk.Ebs := Some (ebsDeviceOf rootVolume) |}]
        | None => ret []
        end in
      let* blockdeviceMappings :=
        lift (nonRootMappings (NonRootVolumes i) rootMappings) in
      let input := runInstancesInput i blockdeviceMappings in
      let* instances :=
        wrapErr (call (sdk.CallRunInstances input) (RunInstances (EC2Client s) input))
                (Sprintf "failed to run instance" []) in
      match instances with
      | [] => fail (New (Sprintf "no instance returned for reservation %v" []))
      | instance :: _ =>
          match sdk.InstanceId instance with
          | None => panic                      (* [*out.Instances[0].InstanceId] *)
          | Some _ =>
              let* _ :=
                try (call (sdk.CallWaitUntilInstanceRunning [sdk.InstanceId instance])
                          (WaitUntilInstanceRunningWithContext (EC2Client s)
                             [sdk.InstanceId instance])) in
              lift (SDKToInstance s instance)
          end
      end
  end.

(** [capierrors.CreateMachineError] *)
Definition CreateMachineError : string := "CreateError".

(** [CreateInstance]: the switch that selects the SSH key name. *)
Definition prioritizedSSHKeyName s (scope : MachineScope) : string :=
  match Spec_SSHKeyName (AWSMachine scope) with
  | Some name => name
  | None =>
      match IC_SSHKeyName (InfraCluster scope) with
      | Some name => name
      | None =>
          if negb (IsExternallyManaged scope) then defaultSSHKeyName (deps s) else ""
      end
  end.

(** [CreateInstance]: the image picked from the machine configuration
    or looked up. *)
Definition resolveImageID s (scope : MachineScope) : M W string :=
  match AMI_ID (AMI (AWSMachine scope)) with
  | Some id => ret id
  | None =>
      match Version (Machine scope) with
      | None =>
          let err :=
            New (Sprintf
              "Either AWSMachine's spec.ami.id or Machine's spec.version must be defined"
              []) in
          let* _ := setFailure CreateMachineError err in
          fail err
      | Some version =>
          let imageLookupFormat :=
            if bool_decide (ImageLookupFormat (AWSMachine scope) = "")
            then IC_ImageLookupFormat (InfraCluster scope)
            else ImageLookupFormat (AWSMachine scope) in
          let imageLookupOrg :=
            if bool_decide (ImageLookupOrg (AWSMachine scope) = "")
            then IC_ImageLookupOrg (InfraCluster scope)
            else ImageLookupOrg (AWSMachine scope) in
          let imageLookupBaseOS :=
            if bool_decide (ImageLookupBaseOS (AWSMachine scope) = "")
            then IC_ImageLookupBaseOS (InfraCluster scope)
            else ImageLookupBaseOS (AWSMachine scope) in
          if IsEKSManaged scope
             && bool_decide (imageLookupFormat = "")
             && bool_decide (imageLookupOrg = "")
             && bool_decide (imageLookupBaseOS = "")
          then
            call (sdk.CallEksAMILookup version
                    (EKSOptimizedLookupType (AMI (AWSMachine scope))))
                 (eksAMILookup (deps s) version
                    (EKSOptimizedLookupType (AMI (AWSMachine scope))))
          else
            call (sdk.CallDefaultAMIIDLookup
                    imageLookupFormat imageLookupOrg imageLookupBaseOS version)
                 (defaultAMIIDLookup (deps s)
                    imageLookupFormat imageLookupOrg imageLookupBaseOS version)
      end
  end.

(** [CreateInstance]: the loop attaching the security groups to the
    provided network interfaces. *)
Fixpoint attachToProvided s (groups : list string) (interfaces : list string)
    : M W unit :=
  match interfaces with
  | [] => ret tt
  | id :: rest =>
      let* _ := attachSecurityGroupsToNetworkInterface s groups id in
      attachToProvided s groups rest
  end.

(** [CreateInstance] *)
Definition CreateInstance s (scope : MachineScope) (userData : list Byte.byte)
    : M W Instance :=
  let tags := BuildTags (deps s) (s_scope s) scope in
  let* imageID := resolveImageID s scope in
  let* subnetID := findSubnet s scope in
  if negb (IsExternallyManaged scope) && negb (IsEKSManaged scope)
     && bool_decide (APIServerELB_DNSName (s_scope s) = "")
  then
    fail (NewFailedDependency
            (Sprintf "failed to run controlplane, APIServer ELB not available" []))
  else
    let* userData :=
      if negb (UserDataIsUncompressed scope) then
        match GzipBytes (deps s) userData with
        | inl _ => fail (New (Sprintf "failed to gzip userdata" []))
        | inr compressed => ret compressed
        end
      else ret userData in
    let* ids := lift (GetCoreSecurityGroups (s_scope s) scope) in
    let prioritized := prioritizedSSHKeyName s scope in
    let input :=
      {| ID := "";
         State := StateOf "";
         Type_ := Spec_InstanceType (AWSMachine scope);
         SubnetID := subnetID;
         ImageID := imageID;
         SSHKeyName := if bool_decide (prioritized ≠ "") then Some prioritized else None;
         SecurityGroupIDs := ids;
         UserData := Some (EncodeToString (deps s) userData);
         IAMProfile := Spec_IAMInstanceProfile (AWSMachine scope);
         Addresses := [];
         PrivateIP := None;
         PublicIP := None;
         ENASupport := None;
         EBSOptimized := None;
         RootVolume := Spec_RootVolume (AWSMachine scope);
         NonRootVolumes := Spec_NonRootVolumes (AWSMachine scope);
         NetworkInterfaces := Spec_NetworkInterfaces (AWSMachine scope);
         Tags := tags;
         AvailabilityZone := "";
         Inst_SpotMarketOptions := Spec_SpotMarketOptions (AWSMachine scope);
         Tenancy := Spec_Tenancy (AWSMachine scope);
         VolumeIDs := [] |} in
    let* out := runInstance s (Role scope) input in
    let* _ :=
      if bool_decide (0 < length (NetworkInterfaces input))%nat
      then attachToProvided s (SecurityGroupIDs input) (NetworkInterfaces input)
      else ret tt in
    ret out.

End Methods.

End ec2.

(** ** [awscluster_controller.go]: the delete and the normal path *)

Module controllers.

Import infrav1.

(** [reconcile.Result]; a [time.Duration] is a number of nanoseconds. *)
Record Result := { Requeue : bool; RequeueAfter : Z }.

Definition Second : Z := 1000000000.

Definition emptyResult : Result := {| Requeue := false; RequeueAfter := 0 |}.

Inductive ConditionType :=
| ClusterSecurityGroupsReadyCondition
| BastionHostReadyCondition
| LoadBalancerReadyCondition
| S3BucketReadyCondition.

Inductive ConditionReason :=
| NoReason
| ClusterSecurityGroupReconciliationFailedReason
| BastionHostFailedReason
| LoadBalancerFailedReason
| S3BucketFailedReason
| WaitForDNSNameReason
| WaitForDNSNameResolveReason.

Inductive ConditionSeverity :=
| ConditionSeverityNone
| ConditionSeverityInfo
| ConditionSeverityWarning
| ConditionSeverityError.

#[global] Instance ConditionType_eq_dec : EqDecision ConditionType.
Proof. solve_decision. Defined.

Record Condition := {
  Cond_Type : ConditionType;
  Cond_Status : bool;
  Cond_Reason : ConditionReason;
  Cond_Severity : ConditionSeverity;
  Cond_Message : option error          (* [err.Error()], or the empty message *)
}.

Record APIEndpoint := { Host : string; Port : Z }.

Record FailureDomainSpec := { ControlPlane : bool }.

Record AWSCluster := {
  Namespace : string;
  Name : string;
  Finalizers : list string;                       (* ObjectMeta.Finalizers *)
  ControlPlaneEndpoint : APIEndpoint;             (* Spec.ControlPlaneEndpoint *)
  NetworkSubnets : Subnets;                       (* read by clusterScope.Subnets() *)
  Ready : bool;                                   (* Status.Ready *)
  DNSName : string;               (* Status.Network.APIServerELB.DNSName *)
  AvailabilityZones : list string; (* Status.Network.APIServerELB.AvailabilityZones *)
  FailureDomains : gmap string FailureDomainSpec; (* Status.FailureDomains *)
  Conditions : list Condition                     (* Status.Conditions *)
}.

Definition withFinalizers (c : AWSCluster) (f : list string) : AWSCluster :=
  {| Namespace := Namespace c; Name := Name c; Finalizers := f;
     ControlPlaneEndpoint := ControlPlaneEndpoint c;
     NetworkSubnets := NetworkSubnets c; Ready := Ready c; DNSName := DNSName c;
     AvailabilityZones := AvailabilityZones c; FailureDomains := FailureDomains c;
     Conditions := Conditions c |}.

Definition withConditions (c : AWSCluster) (cs : list Condition) : AWSCluster :=
  {| Namespace := Namespace c; Name := Name c; Finalizers := Finalizers c;
     ControlPlaneEndpoint := ControlPlaneEndpoint c;
     NetworkSubnets := NetworkSubnets c; Ready := Ready c; DNSName := DNSName c;
     AvailabilityZones := AvailabilityZones c; FailureDomains := FailureDomains c;
     Conditions := cs |}.

Definition withEndpoint (c : AWSCluster) (e : APIEndpoint) : AWSCluster :=
  {| Namespace := Namespace c; Name := Name c; Finalizers := Finalizers c;
     ControlPlaneEndpoint := e;
     NetworkSubnets := NetworkSubnets c; Ready := Ready c; DNSName := DNSName c;
     AvailabilityZones := AvailabilityZones c; FailureDomains := FailureDomains c;
     Conditions := Conditions c |}.

Definition withFailureDomains (c : AWSCluster) (fd : gmap string FailureDomainSpec)
    : AWSCluster :=
  {| Namespace := Namespace c; Name := Name c; Finalizers := Finalizers c;
     ControlPlaneEndpoint := ControlPlaneEndpoint c;
     NetworkSubnets := NetworkSubnets c; Ready := Ready c; DNSName := DNSName c;
     AvailabilityZones := AvailabilityZones c; FailureDomains := fd;
     Conditions := Conditions c |}.

Definition withReady (c : AWSCluster) (b : bool) : AWSCluster :=
  {| Namespace := Namespace c; Name := Name c; Finalizers := Finalizers c;
     ControlPlaneEndpoint := ControlPlaneEndpoint c;
     NetworkSubnets := NetworkSubnets c; Ready := b; DNSName := DNSName c;
     AvailabilityZones := AvailabilityZones c; FailureDomains := FailureDomains c;
     Conditions := Conditions c |}.

(** [controllerutil.AddFinalizer], [controllerutil.RemoveFinalizer] *)
Definition AddFinalizer (c : AWSCluster) (finalizer : string) : AWSCluster :=
  if bool_decide (finalizer ∈ Finalizers c) then c
  else withFinalizers c (Finalizers c ++ [finalizer]).

Definition RemoveFinalizer (c : AWSCluster) (finalizer : string) : AWSCluster :=
  withFinalizers c (List.filter (fun f => bool_decide (f ≠ finalizer)) (Finalizers c)).

(** [conditions.MarkFalse] and [conditions.MarkTrue] go through
    [conditions.Set] of the cluster API library, which is declared
    outside the files at hand: the condition of the given type is
    replaced where it stands, or appended when there is none, and the
    conditions are then sorted by type.  The library puts the Ready
    condition first and orders the other types by name.  None of the
    four types set here is the Ready condition; by their names (they
    begin with BastionHost, ClusterSecurityGroups, LoadBalancer and
    S3Bucket) the bastion host comes first, then the cluster security
    groups, the load balancer and the bucket. *)
Definition conditionRank (t : ConditionType) : nat :=
  match t with
  | BastionHostReadyCondition => 0
  | ClusterSecurityGroupsReadyCondition => 1
  | LoadBalancerReadyCondition => 2
  | S3BucketReadyCondition => 3
  end.

(** [lexicographicLess] of the library, on these types (taken
    non-strict, which makes no difference between conditions of
    different types). *)
Definition lexicographicLess (a b : Condition) : Prop :=
  (conditionRank (Cond_Type a) ≤ conditionRank (Cond_Type b))%nat.

#[global] Instance lexicographicLess_dec (a b : Condition)
  : Decision (lexicographicLess a b).
Proof. unfold lexicographicLess. apply _. Defined.

Fixpoint replaceOrAppend (cs : list Condition) (c : Condition) : list Condition :=
  match cs with
  | [] => [c]
  | c' :: rest =>
      if bool_decide (Cond_Type c' = Cond_Type c) then c :: rest
      else c' :: replaceOrAppend rest c
  end.

Definition setCondition (cs : list Condition) (c : Condition) : list Condition :=
  merge_sort lexicographicLess (replaceOrAppend cs c).

Definition MarkFalse (a : AWSCluster) (t : ConditionType) (reason : ConditionReason)
    (severity : ConditionSeverity) (message : option error) : AWSCluster :=
  withConditions a
    (setCondition (Conditions a)
       {| Cond_Type := t; Cond_Status := false; Cond_Reason := reason;
          Cond_Severity := severity; Cond_Message := message |}).

Definition MarkTrue (a : AWSCluster) (t : ConditionType) : AWSCluster :=
  withConditions a
    (setCondition (Conditions a)
       {| Cond_Type := t; Cond_Status := true; Cond_Reason := NoReason;
          Cond_Severity := ConditionSeverityNone; Cond_Message := None |}).

(** The cluster scope: the object under reconciliation and what the
    scope's accessors read besides it. *)
Record ClusterScope := {
  awsCluster : AWSCluster;            (* clusterScope.AWSCluster *)
  APIServerPort : Z                   (* clusterScope.APIServerPort() *)
}.

Definition withCluster (cs : ClusterScope) (a : AWSCluster) : ClusterScope :=
  {| awsCluster := a; APIServerPort := APIServerPort cs |}.

(** [clusterScope.SetFailureDomain] *)
Definition SetFailureDomain (a : AWSCluster) (id : string) (spec : FailureDomainSpec)
    : AWSCluster :=
  withFailureDomains a (<[id := spec]> (FailureDomains a)).

(** The collaborators invoked by the two paths, in the trace. *)
Inductive Step :=
| DeleteEC2Events
| DeleteLoadbalancers
| DeleteBastion
| DeleteSecurityGroups
| DeleteNetwork
| DeleteBucket
| PatchObject
| ReconcileNetwork
| ReconcileSecurityGroups
| ReconcileBastion
| ReconcileEC2Events
| ReconcileLoadbalancers
| ReconcileBucket
| NetLookupIP (host : string).

#[global] Instance Step_eq_dec : EqDecision Step.
Proof. solve_decision. Defined.

Section Reconciler.

Context {W : Type}.

(** A collaborator receives the cluster scope (it may update the
    object, its status above all) and the state of the outside world;
    it returns an error or nil. *)
Definition Collaborator : Type := ClusterScope → W → option error * ClusterScope * W.

(** The services built by the reconciler's factories ([run], one
    collaborator per method), the defaulting of the object
    ([AWSCluster.Default]), the resolver behind [net.LookupIP] (it
    sees the outside world only), the feature gate, and the names
    declared outside the files at hand. *)
Record awsClusterReconciler := {
  run : Step → Collaborator;
  Default : AWSCluster → AWSCluster;
  LookupIP : string → W → option error * W;
  EventBridgeInstanceState : bool;       (* feature.Gates.Enabled(...) *)
  ClusterFinalizer : string;             (* infrav1.ClusterFinalizer *)
  ErrorConditionAfterInit : ClusterScope → ConditionSeverity
}.

Record RSt := {
  cscope : ClusterScope;
  rworld : W;
  steps : list Step                      (* collaborators invoked, oldest first *)
}.

(** Invoke a collaborator and record the invocation. *)
Definition invoke (r : awsClusterReconciler) (step : Step) (st : RSt)
    : option error * RSt :=
  let '(err, cs, w) := run r step (cscope st) (rworld st) in
  (err, {| cscope := cs; rworld := w; steps := steps st ++ [step] |}).

(** [net.LookupIP], recorded in the trace as well. *)
Definition lookup (r : awsClusterReconciler) (host : string) (st : RSt)
    : option error * RSt :=
  let '(err, w) := LookupIP r host (rworld st) in
  (err, {| cscope := cscope st; rworld := w;
           steps := steps st ++ [NetLookupIP host] |}).

(** A mutation of the object by the controller itself. *)
Definition update (f : AWSCluster → AWSCluster) (st : RSt) : RSt :=
  {| cscope := withCluster (cscope st) (f (awsCluster (cscope st)));
     rworld := rworld st; steps := steps st |}.

(** [reconcileDelete] *)
Definition reconcileDelete (r : awsClusterReconciler) (st : RSt)
    : Result * option error * RSt :=
  let st :=
    if EventBridgeInstanceState r
    then snd (invoke r DeleteEC2Events st)     (* a failure is logged as non-fatal *)
    else st in
  match invoke r DeleteLoadbalancers st with
  | (Some err, st) => (emptyResult, Some err, st)
  | (None, st) =>
  match invoke r DeleteBastion st with
  | (Some err, st) => (emptyResult, Some err, st)
  | (None, st) =>
  match invoke r DeleteSecurityGroups st with
  | (Some err, st) => (emptyResult, Some err, st)
  | (None, st) =>
  match invoke r DeleteNetwork st with
  | (Some err, st) => (emptyResult, Some err, st)
  | (None, st) =>
  match invoke r DeleteBucket st with
  | (Some err, st) =>
      (emptyResult, Some (Wrap err (Sprintf "error deleting S3 Bucket" [])), st)
  | (None, st) =>
      let st := update (fun a => RemoveFinalizer a (ClusterFinalizer r)) st in
      (emptyResult, None, st)
  end end end end end.

(** [reconcileNormal]: the loop publishing the failure domains. *)
Definition setFailureDomains (a : AWSCluster) : AWSCluster :=
  fold_left
    (fun a subnet =>
       let found :=
         existsb (fun az => bool_decide (az = Subnet_AvailabilityZone subnet))
                 (AvailabilityZones a) in
       SetFailureDomain a (Subnet_AvailabilityZone subnet) {| ControlPlane := found |})
    (FilterPrivate (NetworkSubnets a)) a.

(** [reconcileNormal] *)
Definition reconcileNormal (r : awsClusterReconciler) (st : RSt)
    : Result * option error * RSt :=
  let st := update (fun a => AddFinalizer a (ClusterFinalizer r)) st in
  match invoke r PatchObject st with
  | (Some err, st) => (emptyResult, Some err, st)
  | (None, st) =>
  match invoke r ReconcileNetwork st with
  | (Some err, st) => (emptyResult, Some err, st)
  | (None, st) =>
  let st := update (Default r) st in
  match invoke r ReconcileSecurityGroups st with
  | (Some err, st) =>
      let st :=
        update (fun a =>
                  MarkFalse a ClusterSecurityGroupsReadyCondition
                    ClusterSecurityGroupReconciliationFailedReason
                    (ErrorConditionAfterInit r (cscope st)) (Some err)) st in
      (emptyResult, Some err, st)
  | (None, st) =>
  match invoke r ReconcileBastion st with
  | (Some err, st) =>
      let st :=
        update (fun a =>
                  MarkFalse a BastionHostReadyCondition BastionHostFailedReason
                    (ErrorConditionAfterInit r (cscope st)) (Some err)) st in
      (emptyResult, Some err, st)
  | (None, st) =>
  let st :=
    if EventBridgeInstanceState r
    then snd (invoke r ReconcileEC2Events st)  (* non fatal error, so we continue *)
    else st in
  match invoke r ReconcileLoadbalancers st with
  | (Some err, st) =>
      let st :=
        update (fun a =>
                  MarkFalse a LoadBalancerReadyCondition LoadBalancerFailedReason
                    (ErrorConditionAfterInit r (cscope st)) (Some err)) st in
      (emptyResult, Some err, st)
  | (None, st) =>
  match invoke r ReconcileBucket st with
  | (Some err, st) =>
      let st :=
        update (fun a =>
                  MarkFalse a S3BucketReadyCondition S3BucketFailedReason
                    ConditionSeverityError (Some err)) st in
      (emptyResult,
       Some (Wrap err (Sprintf "failed to reconcile S3 Bucket for AWSCluster %s/%s"
                         [AStr (Namespace (awsCluster (cscope st)));
                          AStr (Name (awsCluster (cscope st)))])),
       st)
  | (None, st) =>
  if bool_decide (DNSName (awsCluster (cscope st)) = "") then
    let st :=
      update (fun a =>
                MarkFalse a LoadBalancerReadyCondition WaitForDNSNameReason
                  ConditionSeverityInfo None) st in
    ({| Requeue := false; RequeueAfter := 15 * Second |}, None, st)
  else
  match lookup r (DNSName (awsCluster (cscope st))) st with
  | (Some err, st) =>
      let st :=
        update (fun a =>
                  MarkFalse a LoadBalancerReadyCondition WaitForDNSNameResolveReason
                    ConditionSeverityInfo None) st in
      ({| Requeue := false; RequeueAfter := 15 * Second |}, None, st)
  | (None, st) =>
      let st := update (fun a => MarkTrue a LoadBalancerReadyCondition) st in
      let st :=
        update (fun a =>
                  withEndpoint a
                    {| Host := DNSName a; Port := APIServerPort (cscope st) |}) st in
      let st := update setFailureDomains st in
      let st := update (fun a => withReady a true) st in
      (emptyResult, None, st)
  end end end end end end end.

End Reconciler.

Arguments awsClusterReconciler : clear implicits.
Arguments RSt : clear implicits.
Arguments Collaborator : clear implicits.

End controllers.

(** ** A provider double and sample scopes

    A small stateful stand-in for the cloud provider, used to run the
    embedding on concrete inputs: subnets, interfaces with their groups,
    images, and a set of calls that are made to fail. *)

Module fixtures.

Import infrav1 ec2.

Record World := {
  subnets : list sdk.Subnet;
  interfacesOf : gmap string (list string);    (* instance id -> interface ids *)
  groupsOf : gmap string (list string);        (* interface id -> group ids *)
  images : gmap string sdk.Image;
  launched : list sdk.RunInstancesInput;
  broken : sdk.Call → bool                     (* the calls that fail *)
}.

Definition withGroups (w : World) (g : gmap string (list string)) : World :=
  {| subnets := subnets w; interfacesOf := interfacesOf w; groupsOf := g;
     images := images w; launched := launched w; broken := broken w |}.

Definition withLaunched (w : World) (l : list sdk.RunInstancesInput) : World :=
  {| subnets := subnets w; interfacesOf := interfacesOf w; groupsOf := groupsOf w;
     images := images w; launched := l; broken := broken w |}.

Definition internalError : error := Remote "InternalError".

(** Answer [c] with [f w] unless the call is one of the broken ones. *)
Definition answer {A} (c : sdk.Call) (f : World → Response A * World) (w : World)
    : Response A * World :=
  if broken w c then (inl internalError, w) else f w.

Definition interfaceOf (w : World) (id : string) : sdk.NetworkInterface :=
  {| sdk.NetworkInterfaceId := Some id;
     sdk.Groups := map (fun g => {| sdk.GroupId := Some g |}) (default [] (groupsOf w !! id)) |}.

Definition runningInstance (input : sdk.RunInstancesInput) : sdk.Instance :=
  {| sdk.InstanceId := Some "i-0001";
     sdk.Inst_State := Some {| sdk.State_Name := Some "pending" |};
     sdk.InstanceType := sdk.In_InstanceType input;
     sdk.Inst_SubnetId := sdk.In_SubnetId input;
     sdk.ImageId := sdk.In_ImageId input;
     sdk.KeyName := sdk.In_KeyName input;
     sdk.Inst_PrivateIpAddress := Some "10.0.0.10";
     sdk.PublicIpAddress := None;
     sdk.EnaSupport := None;
     sdk.EbsOptimized := sdk.In_EbsOptimized input;
     sdk.Inst_IamInstanceProfile := None;
     sdk.SecurityGroups :=
       map (fun g => {| sdk.GroupId := g |}) (sdk.In_SecurityGroupIds input);
     sdk.Inst_Tags := [];
     sdk.Inst_NetworkInterfaces := [];
     sdk.Inst_Placement :=
       Some {| sdk.Placement_AvailabilityZone := Some "us-east-1a";
               sdk.Placement_Tenancy := None |};
     sdk.Inst_BlockDeviceMappings := [] |}.

Definition client : EC2API World :=
  {| DescribeSubnets criteria :=
       answer (sdk.CallDescribeSubnets criteria) (fun w => (inr (subnets w), w));
     DescribeNetworkInterfaces filters :=
       answer (sdk.CallDescribeNetworkInterfaces filters)
         (fun w =>
            match filters with
            | [sdk.Raw {| sdk.Values := [Some instanceID] |}] =>
                (inr (map (interfaceOf w) (default [] (interfacesOf w !! instanceID))), w)
            | _ => (inr [], w)
            end);
     DescribeNetworkInterfaceAttribute attribute networkInterfaceId :=
       answer (sdk.CallDescribeNetworkInterfaceAttribute attribute networkInterfaceId)
         (fun w =>
            match groupsOf w !! sdk.StringValue networkInterfaceId with
            | Some gs => (inr (map (fun g => {| sdk.GroupId := Some g |}) gs), w)
            | None => (inl (Remote "InvalidNetworkInterfaceID.NotFound"), w)
            end);
     ModifyNetworkInterfaceAttribute networkInterfaceId groups :=
       answer (sdk.CallModifyNetworkInterfaceAttribute networkInterfaceId groups)
         (fun w =>
            (inr tt,
             withGroups w (<[sdk.StringValue networkInterfaceId :=
                               map sdk.StringValue groups]> (groupsOf w))));
     CreateTags resources tags :=
       answer (sdk.CallCreateTags resources tags) (fun w => (inr tt, w));
     DeleteTags resources tags :=
       answer (sdk.CallDeleteTags resources tags) (fun w => (inr tt, w));
     DescribeImages imageIds :=
       answer (sdk.CallDescribeImages imageIds)
         (fun w =>
            (inr (omap (fun id => images w !! sdk.StringValue id) imageIds), w));
     RunInstances input :=
       answer (sdk.CallRunInstances input)
         (fun w => (inr [runningInstance input], withLaunched w (launched w ++ [input])));
     WaitUntilInstanceRunningWithContext instanceIds :=
       answer (sdk.CallWaitUntilInstanceRunning instanceIds) (fun w => (inr tt, w)) |}.

Definition collaborators : Collaborators World :=
  {| MapToTags tags :=
       map (fun kv => {| sdk.Key := Some kv.1; sdk.Value := Some kv.2 |})
           (map_to_list tags);
     TagsToMap tags :=
       Ok (list_to_map
             (map (fun t => (sdk.StringValue (sdk.Key t), sdk.StringValue (sdk.Value t)))
                  tags));
     BuildTags s scope := <["Name" := MS_Name scope]> (AdditionalTags scope);
     eksAMILookup version lookupType w := (inr "ami-eks", w);
     defaultAMIIDLookup format org baseOS version w := (inr "ami-default", w);
     GzipBytes b := inr b;
     EncodeToString b := "dXNlci1kYXRh";
     defaultSSHKeyName := "default" |}.

Definition image (size : Z) : sdk.Image :=
  {| sdk.RootDeviceName := Some "/dev/sda1";
     sdk.Image_BlockDeviceMappings :=
       [{| sdk.DeviceName := Some "/dev/sda1";
           sdk.Ebs := Some {| sdk.DeleteOnTermination := Some true;
                              sdk.VolumeSize := Some size;
                              sdk.Encrypted := None; sdk.Iops := None;
                              sdk.KmsKeyId := None; sdk.VolumeType := None |} |}] |}.

(** A provider with one instance carrying one interface whose groups
    are sg-1 and sg-2, and an image whose snapshot size is 20. *)
Definition world0 : World :=
  {| subnets := [{| sdk.SubnetId := Some "subnet-1" |}];
     interfacesOf := {[ "i-0001" := ["eni-1"] ]};
     groupsOf := {[ "eni-1" := ["sg-1"; "sg-2"] ]};
     images := {[ "ami-1" := image 20 ]};
     launched := [];
     broken := fun _ => false |}.

Definition breaking (f : sdk.Call → bool) (w : World) : World :=
  {| subnets := subnets w; interfacesOf := interfacesOf w; groupsOf := groupsOf w;
     images := images w; launched := launched w; broken := f |}.

Definition clusterScope (dnsName : string) : EC2Scope :=
  {| Scope_Name := "test-cluster";
     VPC_ID := "vpc-1";
     Scope_Subnets :=
       [ {| Subnet_ID := "subnet-1"; Subnet_AvailabilityZone := "us-east-1a";
            Subnet_IsPublic := false |};
         {| Subnet_ID := "subnet-2"; Subnet_AvailabilityZone := "us-east-1b";
            Subnet_IsPublic := false |} ];
     APIServerELB_DNSName := dnsName;
     Scope_SecurityGroups :=
       {[ SecurityGroupNode := {| SG_ID := "sg-node"; SG_Name := "node" |};
          SecurityGroupLB := {| SG_ID := "sg-lb"; SG_Name := "lb" |};
          SecurityGroupControlPlane :=
            {| SG_ID := "sg-cp"; SG_Name := "controlplane" |} ]} |}.

Definition service (dnsName : string) : Service World :=
  {| s_scope := clusterScope dnsName; EC2Client := client; deps := collaborators |}.

Definition start (w : World) : St World :=
  {| world := w; calls := []; failure := None |}.

Definition machineSpec : AWSMachineSpec :=
  {| Spec_InstanceType := "t3.large";
     Spec_IAMInstanceProfile := "nodes.cluster-api-provider-aws.sigs.k8s.io";
     Spec_RootVolume := None;
     Spec_NonRootVolumes := [];
     Spec_NetworkInterfaces := [];
     AMI := {| AMI_ID := Some "ami-1"; EKSOptimizedLookupType := None |};
     ImageLookupFormat := "";
     ImageLookupOrg := "";
     ImageLookupBaseOS := "";
     Spec_FailureDomain := None;
     Subnet := None;
     Spec_SSHKeyName := None;
     Spec_SpotMarketOptions := None;
     Spec_Tenancy := "" |}.

Definition withSubnet (m : AWSMachineSpec) (sn : option AWSResourceReference)
    (fd : option string) : AWSMachineSpec :=
  {| Spec_InstanceType := Spec_InstanceType m;
     Spec_IAMInstanceProfile := Spec_IAMInstanceProfile m;
     Spec_RootVolume := Spec_RootVolume m;
     Spec_NonRootVolumes := Spec_NonRootVolumes m;
     Spec_NetworkInterfaces := Spec_NetworkInterfaces m;
     AMI := AMI m;
     ImageLookupFormat := ImageLookupFormat m;
     ImageLookupOrg := ImageLookupOrg m;
     ImageLookupBaseOS := ImageLookupBaseOS m;
     Spec_FailureDomain := fd;
     Subnet := sn;
     Spec_SSHKeyName := Spec_SSHKeyName m;
     Spec_SpotMarketOptions := Spec_SpotMarketOptions m;
     Spec_Tenancy := Spec_Tenancy m |}.

Definition withAMI (m : AWSMachineSpec) (ami : option string) : AWSMachineSpec :=
  {| Spec_InstanceType := Spec_InstanceType m;
     Spec_IAMInstanceProfile := Spec_IAMInstanceProfile m;
     Spec_RootVolume := Spec_RootVolume m;
     Spec_NonRootVolumes := Spec_NonRootVolumes m;
     Spec_NetworkInterfaces := Spec_NetworkInterfaces m;
     AMI := {| AMI_ID := ami; EKSOptimizedLookupType := None |};
     ImageLookupFormat := ImageLookupFormat m;
     ImageLookupOrg := ImageLookupOrg m;
     ImageLookupBaseOS := ImageLookupBaseOS m;
     Spec_FailureDomain := Spec_FailureDomain m;
     Subnet := Subnet m;
     Spec_SSHKeyName := Spec_SSHKeyName m;
     Spec_SpotMarketOptions := Spec_SpotMarketOptions m;
     Spec_Tenancy := Spec_Tenancy m |}.

Definition withRootVolume (m : AWSMachineSpec) (size : Z) : AWSMachineSpec :=
  {| Spec_InstanceType := Spec_InstanceType m;
     Spec_IAMInstanceProfile := Spec_IAMInstanceProfile m;
     Spec_RootVolume :=
       Some {| Vol_DeviceName := ""; Vol_Size := size; Vol_Type := "gp2";
               Vol_IOPS := 0; Vol_Encrypted := false; Vol_EncryptionKey := "" |};
     Spec_NonRootVolumes := Spec_NonRootVolumes m;
     Spec_NetworkInterfaces := Spec_NetworkInterfaces m;
     AMI := AMI m;
     ImageLookupFormat := ImageLookupFormat m;
     ImageLookupOrg := ImageLookupOrg m;
     ImageLookupBaseOS := ImageLookupBaseOS m;
     Spec_FailureDomain := Spec_FailureDomain m;
     Subnet := Subnet m;
     Spec_SSHKeyName := Spec_SSHKeyName m;
     Spec_SpotMarketOptions := Spec_SpotMarketOptions m;
     Spec_Tenancy := Spec_Tenancy m |}.

Definition subnetRef (id : string) : AWSResourceReference :=
  {| Ref_ID := Some id; Ref_ARN := None; Ref_Filters := None |}.

(** A machine scope: role, externally-managed flag, machine spec. *)
Definition machine (role : string) (external : bool) (spec : AWSMachineSpec)
    : MachineScope :=
  {| MS_Name := "machine-0";
     Role := role;
     Machine := {| Version := None; FailureDomain := None |};
     AWSMachine := spec;
     InfraCluster := {| IC_ImageLookupFormat := ""; IC_ImageLookupOrg := "";
                        IC_ImageLookupBaseOS := ""; IC_SSHKeyName := None |};
     IsExternallyManaged := external;
     IsEKSManaged := false;
     UserDataIsUncompressed := true;
     AdditionalTags := ∅ |}.

Import controllers.

(** A cluster object carrying the finalizer, with the given
    load-balancer DNS name in its status. *)
Definition cluster (dnsName : string) : AWSCluster :=
  {| Namespace := "default"; Name := "test-cluster";
     Finalizers := ["awscluster.infrastructure.cluster.x-k8s.io"];
     ControlPlaneEndpoint := {| Host := ""; Port := 0 |};
     NetworkSubnets := Scope_Subnets (clusterScope dnsName);
     Ready := false;
     DNSName := dnsName;
     AvailabilityZones := ["us-east-1a"];
     FailureDomains := ∅;
     Conditions := [] |}.

(** A reconciler over a world that is the set of host names that
    resolve; the collaborators listed in [failing] return an error and
    the others return nil, none of them touches the object. *)
Definition reconciler (failing : list Step) : awsClusterReconciler (list string) :=
  {| run step cs w :=
       (if bool_decide (step ∈ failing) then Some internalError else None, cs, w);
     Default a := a;
     LookupIP host w :=
       (if bool_decide (host ∈ w) then None else Some (Remote "no such host"), w);
     EventBridgeInstanceState := true;
     ClusterFinalizer := "awscluster.infrastructure.cluster.x-k8s.io";
     ErrorConditionAfterInit cs := ConditionSeverityWarning |}.

Definition begin (dnsName : string) (resolving : list string) : RSt (list string) :=
  {| cscope := {| awsCluster := cluster dnsName; APIServerPort := 6443 |};
     rworld := resolving;
     steps := [] |}.

End fixtures.

(** ** Vocabulary of the statements

    Notions used to state what the code does: what a computation adds to
    the trace, what it means for the groups to have been attached to the
    interfaces of an instance, a sequence of steps that stops at the first
    failure, and the state in which all convergers of the create path have
    succeeded. *)

Module spec.

Import infrav1 ec2 controllers.

(** Every call that [m] adds to the trace satisfies [P], and [m] only
    adds to the trace. *)
Definition emits {W A} (P : sdk.Call → Prop) (m : M W A) : Prop :=
  ∀ st, ∃ l, calls (snd (m st)) = calls st ++ l ∧ Forall P l.

Definition notRunInstances (c : sdk.Call) : Prop := sdk.isRunInstances c = false.

(** If [c] is an instance-create call, its request carries the SSH key
    name [key] (nil for no key). *)
Definition createsWithKey (key : option string) (c : sdk.Call) : Prop :=
  ∀ input, c = sdk.CallRunInstances input → sdk.In_KeyName input = key.

(** The group ids of a describe-attribute response. *)
Definition groupIds (gs : list sdk.GroupIdentifier) : list string :=
  map (fun g => sdk.StringValue (sdk.GroupId g)) gs.

Definition describeGroups (id : string) : sdk.Call :=
  sdk.CallDescribeNetworkInterfaceAttribute (Some "groupSet") (Some id).

Definition modifyGroups (id : string) (groups : list string) : sdk.Call :=
  sdk.CallModifyNetworkInterfaceAttribute (Some id) (map Some groups).

(** Following the spec's words ("attaches any group in groupIds not
    already present (set union, preserving existing groups) - a no-op
    call is skipped"): [attached api ids enis w l w'] holds when,
    starting behind the client in [w], every interface of [enis] in
    turn had its groups read and, unless every id of [ids] was already
    among them, replaced in one modify call by a list that starts with
    the existing groups and holds exactly the existing groups and the
    ids; [l] is the calls issued and [w'] the state reached. *)
Inductive attached {W} (api : EC2API W) (ids : list string)
    : list sdk.NetworkInterface → W → list sdk.Call → W → Prop :=
| attached_done w : attached api ids [] w [] w
| attached_present eni rest w gs w1 l w2 :
    DescribeNetworkInterfaceAttribute api (Some "groupSet")
      (Some (sdk.StringValue (sdk.NetworkInterfaceId eni))) w = (inr gs, w1) →
    (∀ g, g ∈ ids → g ∈ groupIds gs) →
    attached api ids rest w1 l w2 →
    attached api ids (eni :: rest) w
      (describeGroups (sdk.StringValue (sdk.NetworkInterfaceId eni)) :: l) w2
| attached_union eni rest w gs w1 total w2 l w3 :
    DescribeNetworkInterfaceAttribute api (Some "groupSet")
      (Some (sdk.StringValue (sdk.NetworkInterfaceId eni))) w = (inr gs, w1) →
    (∃ g, g ∈ ids ∧ g ∉ groupIds gs) →
    groupIds gs `prefix_of` total →
    (∀ g, g ∈ total ↔ g ∈ groupIds gs ∨ g ∈ ids) →
    ModifyNetworkInterfaceAttribute api
      (Some (sdk.StringValue (sdk.NetworkInterfaceId eni))) (map Some total) w1
      = (inr tt, w2) →
    attached api ids rest w2 l w3 →
    attached api ids (eni :: rest) w
      (describeGroups (sdk.StringValue (sdk.NetworkInterfaceId eni))
       :: modifyGroups (sdk.StringValue (sdk.NetworkInterfaceId eni)) total :: l) w3.

(** Following the spec's words ("each strictly sequential and each
    aborting the whole delete on first hard error"): run the steps in
    order, each in the state left by the one before, and stop at the
    first one that returns an error. *)
Fixpoint runSteps {W} (r : awsClusterReconciler W) (l : list Step) (st : RSt W)
    : option (Step * error) * RSt W :=
  match l with
  | [] => (None, st)
  | step :: rest =>
      match invoke r step st with
      | (Some err, st') => (Some (step, err), st')
      | (None, st') => runSteps r rest st'
      end
  end.

(** The deletion steps of the delete path, in the order of the spec. *)
Definition teardown : list Step :=
  [DeleteLoadbalancers; DeleteBastion; DeleteSecurityGroups; DeleteNetwork; DeleteBucket].

(** Following the spec's words ("after all convergers succeed"): the
    state reached on the create path when the finalizer patch and every
    converger returned nil; [None] when one of them returned an error. *)
Definition converged {W} (r : awsClusterReconciler W) (st : RSt W) : option (RSt W) :=
  let st := update (fun a => AddFinalizer a (ClusterFinalizer r)) st in
  match runSteps r [PatchObject; ReconcileNetwork] st with
  | (Some _, _) => None
  | (None, st) =>
      let st := update (Default r) st in
      match runSteps r [ReconcileSecurityGroups; ReconcileBastion] st with
      | (Some _, _) => None
      | (None, st) =>
          let st :=
            if EventBridgeInstanceState r
            then snd (invoke r ReconcileEC2Events st) else st in
          match runSteps r [ReconcileLoadbalancers; ReconcileBucket] st with
          | (Some _, _) => None
          | (None, st) => Some st
          end
      end
  end.

Definition requeueAfter15s : Result :=
  {| Requeue := false; RequeueAfter := 15000000000 |}.

End spec.

(** ** [instances.go]: the remaining methods

    The methods below talk to the provider through four more methods of
    the [EC2Client] interface.  Each of them issues at most two calls;
    they are written in state-passing style: a method takes the state
    behind the client and returns its outcome, the state afterwards and
    the calls it issued, oldest first. *)

Module instances.

Import infrav1 ec2.
Local Open Scope go_scope.

(** [scope.MachinePoolScope], as far as [GetCoreNodeSecurityGroups] reads it. *)
Record MachinePoolScope := { MP_IsEKSManaged : bool }.

(** [GetCoreNodeSecurityGroups] *)
Definition GetCoreNodeSecurityGroups (s : EC2Scope) (scope : MachinePoolScope)
    : outcome (list string) :=
  let sgRoles := [SecurityGroupNode] in
  let sgRoles :=
    if negb (MP_IsEKSManaged scope)
    then sgRoles ++ [SecurityGroupLB]
    else sgRoles ++ [SecurityGroupEKSNodeAdditional] in
  lookupRoles (Scope_SecurityGroups s) sgRoles [].

(** [GetInstanceSecurityGroups]: the loop filling the map. *)
Definition groupsByInterface (enis : list sdk.NetworkInterface)
    : gmap string (list string) :=
  fold_left
    (fun out eni =>
       <[sdk.StringValue (sdk.NetworkInterfaceId eni) :=
           map (fun group => sdk.StringValue (sdk.GroupId group)) (sdk.Groups eni)]> out)
    enis ∅.

(** [GetInstanceSecurityGroups] *)
Definition GetInstanceSecurityGroups {W} (s : Service W) (instanceID : string)
    : M W (gmap string (list string)) :=
  let* enis :=
    wrapErr (getInstanceENIs s instanceID)
            (Sprintf "failed to get ENIs for instance %q" [AStr instanceID]) in
  ret (groupsByInterface enis).

(** The filters built by package [filter] for instances, kept symbolic as
    the ones for subnets are. *)
Inductive InstanceFilter :=
| EC2_VPC (id : string)
| EC2_ClusterOwned (clusterName : string)
| EC2_Name (name : string)
| EC2_InstanceStates (states : list string).

(** Constants of the SDK's [ec2] package. *)
Definition InstanceStateNamePending : string := "pending".
Definition InstanceStateNameRunning : string := "running".

Record DescribeInstancesInput := {
  Filters : list InstanceFilter;
  InstanceIds : list (option string)
}.

Record Reservation := { Instances : list sdk.Instance }.

Record SecurityGroup := { GroupId : option string }.

Inductive Call :=
| CallDescribeInstances (input : DescribeInstancesInput)
| CallTerminateInstances (instanceIds : list (option string))
| CallWaitUntilInstanceTerminated (instanceIds : list (option string))
| CallDescribeSecurityGroups (filters : list sdk.Filter).

(** Four more methods of the [EC2Client] interface, and
    [awserrors.IsNotFound], which is declared outside the files at hand. *)
Record API (W : Type) := {
  DescribeInstances : DescribeInstancesInput → W → Response (list Reservation) * W;
  TerminateInstances : list (option string) → W → Response unit * W;
  WaitUntilInstanceTerminated : list (option string) → W → Response unit * W;
  DescribeSecurityGroups : list sdk.Filter → W → Response (list SecurityGroup) * W;
  IsNotFound : error → bool
}.
Arguments DescribeInstances {W} _ _ _.
Arguments TerminateInstances {W} _ _ _.
Arguments WaitUntilInstanceTerminated {W} _ _ _.
Arguments DescribeSecurityGroups {W} _ _ _.
Arguments IsNotFound {W} _ _.

(** What a method hands back: outcome, state behind the client, calls. *)
Definition Run (W A : Type) : Type := (outcome A * W * list Call)%type.

(** [return s.SDKToInstance(inst)] where the result type is a pointer. *)
Definition found {W} (s : Service W) (inst : sdk.Instance) : outcome (option Instance) :=
  match SDKToInstance s inst with
  | Ok i => Ok (Some i)
  | Err e => Err e
  | Panic => Panic
  end.

(** [GetRunningInstanceByTags]: the two nested loops, which return at the
    first instance they meet. *)
Fixpoint firstInstance (reservations : list Reservation) : option sdk.Instance :=
  match reservations with
  | [] => None
  | res :: rest =>
      match Instances res with
      | inst :: _ => Some inst
      | [] => firstInstance rest
      end
  end.

(** [GetRunningInstanceByTags] *)
Definition GetRunningInstanceByTags {W} (s : Service W) (x : API W)
    (scope : MachineScope) (w : W) : Run W (option Instance) :=
  let input :=
    {| Filters :=
         [ EC2_VPC (VPC_ID (s_scope s));
           EC2_ClusterOwned (Scope_Name (s_scope s));
           EC2_Name (MS_Name scope);
           EC2_InstanceStates [InstanceStateNamePending; InstanceStateNameRunning] ];
       InstanceIds := [] |} in
  let '(out, w') := DescribeInstances x input w in
  (match out with
   | inl err =>
       if IsNotFound x err then Ok None
       else Err (Wrap err (Sprintf "failed to describe instances by tags" []))
   | inr reservations =>
       match firstInstance reservations with
       | Some inst => found s inst
       | None => Ok None
       end
   end,
   w', [CallDescribeInstances input]).

(** [InstanceIfExists] *)
Definition InstanceIfExists {W} (s : Service W) (x : API W)
    (id : option string) (w : W) : Run W (option Instance) :=
  match id with
  | None => (Ok None, w, [])
  | Some instanceID =>
      let input := {| Filters := []; InstanceIds := [id] |} in
      let '(out, w') := DescribeInstances x input w in
      (match out with
       | inl err =>
           if IsNotFound x err then Ok None
           else Err (Wrap err (Sprintf "failed to describe instance: %q" [AStr instanceID]))
       | inr reservations =>
           match reservations with
           | res :: _ =>
               match Instances res with
               | inst :: _ => found s inst
               | [] => Ok None
               end
           | [] => Ok None
           end
       end,
       w', [CallDescribeInstances input])
  end.

(** [TerminateInstance] *)
Definition TerminateInstance {W} (x : API W) (instanceID : string) (w : W)
    : Run W unit :=
  let '(out, w') := TerminateInstances x [Some instanceID] w in
  (match out with
   | inl err =>
       Err (Wrap err (Sprintf "failed to terminate instance with id %q" [AStr instanceID]))
   | inr _ => Ok tt
   end,
   w', [CallTerminateInstances [Some instanceID]]).

(** [TerminateInstanceAndWait] *)
Definition TerminateInstanceAndWait {W} (x : API W) (instanceID : string) (w : W)
    : Run W unit :=
  match TerminateInstance x instanceID w with
  | (Ok _, w1, issued) =>
      let '(out, w2) := WaitUntilInstanceTerminated x [Some instanceID] w1 in
      (match out with
       | inl err =>
           Err (Wrap err (Sprintf "failed to wait for instance %q termination"
                            [AStr instanceID]))
       | inr _ => Ok tt
       end,
       w2, issued ++ [CallWaitUntilInstanceTerminated [Some instanceID]])
  | failed => failed
  end.

(** [GetFilteredSecurityGroupID] *)
Definition GetFilteredSecurityGroupID {W} (x : API W)
    (securityGroup : AWSResourceReference) (w : W) : Run W string :=
  match Ref_Filters securityGroup with
  | None => (Ok "", w, [])
  | Some given =>
      let filters :=
        map (fun f => {| sdk.Name := Some (Filter_Name f);
                         sdk.Values := map Some (Filter_Values f) |})
            given in
      let '(out, w') := DescribeSecurityGroups x filters w in
      (match out with
       | inl err => Err err
       | inr [] =>
           Err (New (Sprintf
             "failed to find security group matching filters: %q, reason: %w" []))
       | inr (sg :: _) =>
           match GroupId sg with
           | Some id => Ok id
           | None => Panic
           end
       end,
       w', [CallDescribeSecurityGroups filters])
  end.

(** [runInstance] over a client whose run-state waiter is replaced: the
    other methods answer as before. *)
Definition withWaiter {W} (api : EC2API W)
    (waiter : list (option string) → W → Response unit * W) : EC2API W :=
  {| DescribeSubnets := DescribeSubnets api;
     DescribeNetworkInterfaces := DescribeNetworkInterfaces api;
     DescribeNetworkInterfaceAttribute := DescribeNetworkInterfaceAttribute api;
     ModifyNetworkInterfaceAttribute := ModifyNetworkInterfaceAttribute api;
     CreateTags := CreateTags api;
     DeleteTags := DeleteTags api;
     DescribeImages := DescribeImages api;
     RunInstances := RunInstances api;
     WaitUntilInstanceRunningWithContext := waiter |}.

Definition withClient {W} (s : Service W) (api : EC2API W) : Service W :=
  {| s_scope := s_scope s; EC2Client := api; deps := deps s |}.

(** An instance as the provider describes it: one security group, one
    volume, and one network interface, with an associated address when
    [public] is set. *)
Definition described (id : string) (public : bool) : sdk.Instance :=
  {| sdk.InstanceId := Some id;
     sdk.Inst_State := Some {| sdk.State_Name := Some "running" |};
     sdk.InstanceType := Some "t3.large";
     sdk.Inst_SubnetId := Some "subnet-1";
     sdk.ImageId := Some "ami-1";
     sdk.KeyName := None;
     sdk.Inst_PrivateIpAddress := Some "10.0.0.10";
     sdk.PublicIpAddress := None;
     sdk.EnaSupport := None;
     sdk.EbsOptimized := None;
     sdk.Inst_IamInstanceProfile := None;
     sdk.SecurityGroups := [{| sdk.GroupId := Some "sg-node" |}];
     sdk.Inst_Tags := [];
     sdk.Inst_NetworkInterfaces :=
       [{| sdk.PrivateDnsName := Some "ip-10-0-0-10.ec2.internal";
           sdk.PrivateIpAddress := Some "10.0.0.10";
           sdk.Association :=
             if public
             then Some {| sdk.PublicDnsName := Some "ec2-1-2-3-4.compute.amazonaws.com";
                          sdk.PublicIp := Some "1.2.3.4" |}
             else None |}];
     sdk.Inst_Placement :=
       Some {| sdk.Placement_AvailabilityZone := Some "us-east-1a";
               sdk.Placement_Tenancy := None |};
     sdk.Inst_BlockDeviceMappings :=
       [{| sdk.Inst_Ebs := Some {| sdk.VolumeId := Some "vol-1" |} |}] |}.

(** A provider double for the four methods, beside the double of the
    other methods: it describes the given reservations; the instance ids
    listed in [missing] are reported as not found, terminations of the
    ids in [stuck] fail. *)
Definition double (reservations : list Reservation) (missing stuck : list string)
    : API fixtures.World :=
  {| DescribeInstances input w :=
       (match InstanceIds input with
        | [Some id] =>
            if bool_decide (id ∈ missing)
            then inl (Remote "InvalidInstanceID.NotFound") else inr reservations
        | _ => inr reservations
        end, w);
     TerminateInstances instanceIds w :=
       (match instanceIds with
        | [Some id] =>
            if bool_decide (id ∈ stuck) then inl (Remote "InternalError") else inr tt
        | _ => inr tt
        end, w);
     WaitUntilInstanceTerminated instanceIds w := (inr tt, w);
     DescribeSecurityGroups filters w :=
       (match filters with
        | [] => inr []
        | _ => inr [{| GroupId := Some "sg-filtered" |}]
        end, w);
     IsNotFound e :=
       match e with
       | Remote code => bool_decide (code = "InvalidInstanceID.NotFound")
       | _ => false
       end |}.

End instances.

(** ** [awscluster_webhook.go]: admission of an AWSCluster *)

Module webhook.

(** [field.Invalid(path, value, detail)]: the path and the detail; the
    offending value is not kept. *)
Record FieldError := { Field : list string; Detail : string }.

#[global] Instance FieldError_eq_dec : EqDecision FieldError.
Proof. solve_decision. Defined.

Record APIEndpoint := { Host : string; Port : Z }.

#[global] Instance APIEndpoint_eq_dec : EqDecision APIEndpoint.
Proof. solve_decision. Defined.

(** The types, functions and constants of the API package that the file
    uses and that are declared outside the files at hand.  Equality on
    [NetworkSpec] and [VPCSpec] is [reflect.DeepEqual]; the two laws say
    what the zero values [NetworkSpec{}] and [VPCSpec{}] hold. *)
Class ApiTypes := {
  NetworkSpec : Type;
  VPCSpec : Type;
  Bastion : Type;
  NetworkSpec_eq_dec :: EqDecision NetworkSpec;
  VPCSpec_eq_dec :: EqDecision VPCSpec;
  zeroNetworkSpec : NetworkSpec;
  zeroVPCSpec : VPCSpec;
  VPC : NetworkSpec → VPCSpec;
  VPC_ID : VPCSpec → string;
  Bastion_Validate : Bastion → list FieldError;
  validateSSHKeyName : option string → list FieldError;
  SetDefaults_Bastion : Bastion → Bastion;
  SetDefaults_NetworkSpec : NetworkSpec → NetworkSpec;
  ClassicELBSchemeInternetFacing : string;
  ControllerIdentityKind : string;
  AWSClusterControllerIdentityName : string;
  VPC_zero : VPC zeroNetworkSpec = zeroVPCSpec;
  VPC_ID_zero : VPC_ID zeroVPCSpec = ""
}.

Section Admission.

Context `{ApiTypes}.

Record AWSLoadBalancerSpec := { Scheme : option string }.

Record AWSIdentityReference := { Identity_Kind : string; Identity_Name : string }.

Record AWSClusterSpec := {
  Region : string;
  ControlPlaneLoadBalancer : option AWSLoadBalancerSpec;
  ControlPlaneEndpoint : APIEndpoint;
  Spec_NetworkSpec : NetworkSpec;
  IdentityRef : option AWSIdentityReference;
  Spec_Bastion : Bastion;
  SSHKeyName : option string
}.

Record AWSCluster := {
  Name : string;
  Annotations : gmap string string;
  Spec : AWSClusterSpec
}.

(** The other argument of [ValidateUpdate] is a [runtime.Object]. *)
Inductive RuntimeObject :=
| OfAWSCluster (c : AWSCluster)
| OfAnotherKind.

(** What a validating method does: it returns nil, a bad-request error,
    or [aggregateObjErrors(kind, name, allErrs)] (declared outside the
    files at hand, kept symbolic), or it dereferences a nil pointer. *)
Inductive admission :=
| Nil
| NewBadRequest
| aggregateObjErrors (name : string) (allErrs : list FieldError)
| NilDereference.

(** [annotations.IsExternallyManaged] of the cluster API library: the
    managed-by annotation is present. *)
Definition IsExternallyManaged (c : AWSCluster) : bool :=
  bool_decide (is_Some (Annotations c !! "cluster.x-k8s.io/managed-by")).

(** [ValidateCreate] *)
Definition ValidateCreate (r : AWSCluster) : admission :=
  aggregateObjErrors (Name r)
    (Bastion_Validate (Spec_Bastion (Spec r)) ++ validateSSHKeyName (SSHKeyName (Spec r))).

(** [ValidateDelete] *)
Definition ValidateDelete (r : AWSCluster) : admission := Nil.

(** [ValidateUpdate]: the check of the load-balancer scheme.  [None] is
    the nil dereference of [r.Spec.ControlPlaneLoadBalancer] in the
    argument of [field.Invalid]. *)
Definition schemeErrors (r oldC : AWSCluster) : option (list FieldError) :=
  let newScheme :=
    match ControlPlaneLoadBalancer (Spec r) with
    | Some lb => Scheme lb
    | None => None
    end in
  match ControlPlaneLoadBalancer (Spec oldC) with
  | None =>
      match newScheme with
      | Some scheme =>
          if bool_decide (scheme ≠ ClassicELBSchemeInternetFacing) then
            Some [{| Field := ["spec"; "controlPlaneLoadBalancer"; "scheme"];
                     Detail := "field is immutable, default value was set to Internet-facing" |}]
          else Some []
      | None => Some []
      end
  | Some existingLoadBalancer =>
      if bool_decide (Scheme existingLoadBalancer ≠ newScheme) then
        match ControlPlaneLoadBalancer (Spec r) with
        | Some _ =>
            Some [{| Field := ["spec"; "controlPlaneLoadBalancer"; "scheme"];
                     Detail := "field is immutable" |}]
        | None => None
        end
      else Some []
  end.

(** [ValidateUpdate]: the checks other than the one of the scheme, in
    the order of the source. *)
Definition regionErrors (r oldC : AWSCluster) : list FieldError :=
  if bool_decide (Region (Spec r) ≠ Region (Spec oldC))
  then [{| Field := ["spec"; "region"]; Detail := "field is immutable" |}] else [].

Definition endpointErrors (r oldC : AWSCluster) : list FieldError :=
  if bool_decide (ControlPlaneEndpoint (Spec oldC) ≠ {| Host := ""; Port := 0 |})
     && bool_decide (ControlPlaneEndpoint (Spec r) ≠ ControlPlaneEndpoint (Spec oldC))
  then [{| Field := ["spec"; "controlPlaneEndpoint"]; Detail := "field is immutable" |}]
  else [].

Definition vpcErrors (r oldC : AWSCluster) : list FieldError :=
  if bool_decide (Spec_NetworkSpec (Spec oldC) ≠ zeroNetworkSpec)
     && bool_decide (VPC (Spec_NetworkSpec (Spec oldC)) ≠ zeroVPCSpec)
     && bool_decide (VPC_ID (VPC (Spec_NetworkSpec (Spec oldC))) ≠ "")
  then
    if bool_decide (Spec_NetworkSpec (Spec r) = zeroNetworkSpec)
       || bool_decide (VPC (Spec_NetworkSpec (Spec r)) = zeroVPCSpec)
       || bool_decide (VPC_ID (VPC (Spec_NetworkSpec (Spec oldC)))
                       ≠ VPC_ID (VPC (Spec_NetworkSpec (Spec r))))
    then [{| Field := ["spec"; "networkSpec"; "vpc"; "id"];
             Detail := "field cannot be modified once set" |}]
    else []
  else [].

Definition identityErrors (r oldC : AWSCluster) : list FieldError :=
  match IdentityRef (Spec oldC), IdentityRef (Spec r) with
  | Some _, None =>
      [{| Field := ["spec"; "identityRef"]; Detail := "field cannot be set to nil" |}]
  | _, _ => []
  end.

Definition managedErrors (r oldC : AWSCluster) : list FieldError :=
  if IsExternallyManaged oldC && negb (IsExternallyManaged r)
  then [{| Field := ["metadata"; "annotations"];
           Detail := "removal of externally managed annotation is not allowed" |}]
  else [].

(** [ValidateUpdate] *)
Definition ValidateUpdate (r : AWSCluster) (old : RuntimeObject) : admission :=
  match old with
  | OfAnotherKind => NewBadRequest
  | OfAWSCluster oldC =>
      match schemeErrors r oldC with
      | None => NilDereference
      | Some scheme =>
          aggregateObjErrors (Name r)
            (regionErrors r oldC ++ scheme ++ endpointErrors r oldC ++ vpcErrors r oldC
             ++ identityErrors r oldC ++ managedErrors r oldC
             ++ Bastion_Validate (Spec_Bastion (Spec r)))
      end
  end.

(** [SetDefaultsAWSClusterSpec] *)
Definition SetDefaultsAWSClusterSpec (s : AWSClusterSpec) : AWSClusterSpec :=
  {| Region := Region s;
     ControlPlaneLoadBalancer := ControlPlaneLoadBalancer s;
     ControlPlaneEndpoint := ControlPlaneEndpoint s;
     Spec_NetworkSpec := SetDefaults_NetworkSpec (Spec_NetworkSpec s);
     IdentityRef :=
       match IdentityRef s with
       | None => Some {| Identity_Kind := ControllerIdentityKind;
                         Identity_Name := AWSClusterControllerIdentityName |}
       | Some given => Some given
       end;
     Spec_Bastion := SetDefaults_Bastion (Spec_Bastion s);
     SSHKeyName := SSHKeyName s |}.

(** [Default] *)
Definition Default (r : AWSCluster) : AWSCluster :=
  {| Name := Name r; Annotations := Annotations r;
     Spec := SetDefaultsAWSClusterSpec (Spec r) |}.

End Admission.

(** An instance of the API types for running the methods: a network spec
    is a VPC id and a list of subnet ids, no bastion rule. *)
#[global] Instance sampleApiTypes : ApiTypes :=
  {| NetworkSpec := (string * list string)%type;
     VPCSpec := string;
     Bastion := bool;
     zeroNetworkSpec := ("", []);
     zeroVPCSpec := "";
     VPC := fst;
     VPC_ID := id;
     Bastion_Validate := fun _ => [];
     validateSSHKeyName := fun _ => [];
     SetDefaults_Bastion := fun b => b;
     SetDefaults_NetworkSpec := fun n => n;
     ClassicELBSchemeInternetFacing := "Internet-facing";
     ControllerIdentityKind := "AWSClusterControllerIdentity";
     AWSClusterControllerIdentityName := "default";
     VPC_zero := eq_refl;
     VPC_ID_zero := eq_refl |}.

Definition sampleCluster (region vpc : string) (scheme : option string)
    (endpoint : string) : AWSCluster :=
  {| Name := "test-cluster";
     Annotations := ∅;
     Spec := {| Region := region;
                ControlPlaneLoadBalancer := Some {| Scheme := scheme |};
                ControlPlaneEndpoint := {| Host := endpoint; Port := 6443 |};
                Spec_NetworkSpec := (vpc, []);
                IdentityRef := None;
                Spec_Bastion := false;
                SSHKeyName := None |} |}.

(** The same cluster without a load-balancer spec. *)
Definition withoutLoadBalancer (c : AWSCluster) : AWSCluster :=
  {| Name := Name c; Annotations := Annotations c;
     Spec := {| Region := Region (Spec c);
                ControlPlaneLoadBalancer := None;
                ControlPlaneEndpoint := ControlPlaneEndpoint (Spec c);
                Spec_NetworkSpec := Spec_NetworkSpec (Spec c);
                IdentityRef := IdentityRef (Spec c);
                Spec_Bastion := Spec_Bastion (Spec c);
                SSHKeyName := SSHKeyName (Spec c) |} |}.

End webhook.

(** ** [awscluster_controller.go]: the entry point and the watch mapping *)

Module entrypoints.

Import controllers.

Record ObjectReference := { Ref_Kind : string; Ref_Namespace : string; Ref_Name : string }.

(** A [clusterv1.Cluster], as far as the controller reads it. *)
Record Cluster := {
  Cluster_Namespace : string;
  Cluster_Name : string;
  Cluster_Deleted : bool;              (* the deletion timestamp is not zero *)
  InfrastructureRef : option ObjectReference
}.

(** The object fetched by [r.Get]: the AWSCluster and whether its
    deletion timestamp is set. *)
Record Fetched := {
  object : AWSCluster;
  deletionRequested : bool             (* !awsCluster.DeletionTimestamp.IsZero() *)
}.

Record NamespacedName := { Key_Namespace : string; Key_Name : string }.

(** What [Reconcile] does besides running one of the two paths. *)
Inductive Event :=
| Get
| GetOwnerCluster
| NewHelper
| NewClusterScope
| Close
| Patch.

#[global] Instance Event_eq_dec : EqDecision Event.
Proof. solve_decision. Defined.

Section EntryPoint.

Context {W : Type}.

(** The object store and the helpers around it, all declared outside the
    files at hand: [r.Get] with [apierrors.IsNotFound],
    [util.GetOwnerCluster], [annotations.IsPaused], [patch.NewHelper]
    and the helper's [Patch], [scope.NewClusterScope] (what it yields
    besides the object it was given) and the scope's [Close]. *)
Record Manager := {
  get : NamespacedName → W → (error + Fetched) * W;
  IsNotFound : error → bool;
  getOwnerCluster : Fetched → W → (error + option Cluster) * W;
  IsPaused : Cluster → Fetched → bool;
  newHelper : Fetched → W → option error * W;
  patch : AWSCluster → W → option error * W;
  newClusterScope : Cluster → Fetched → W → (error + ClusterScope) * W;
  close : ClusterScope → W → option error * W
}.

(** The outcome of [Reconcile]: result, error, the outside world, what
    the entry point did, and the collaborators invoked by the path it
    ran (both oldest first). *)
Record Outcome := {
  result : Result;
  reterr : option error;
  after : W;
  events : list Event;
  invoked : list Step
}.

(** [Reconcile] *)
Definition Reconcile (m : Manager) (r : awsClusterReconciler W)
    (req : NamespacedName) (w : W) : Outcome :=
  match get m req w with
  | (inl err, w) =>
      {| result := emptyResult;
         reterr := if IsNotFound m err then None else Some err;
         after := w; events := [Get]; invoked := [] |}
  | (inr awsCluster, w) =>
  match getOwnerCluster m awsCluster w with
  | (inl err, w) =>
      {| result := emptyResult; reterr := Some err;
         after := w; events := [Get; GetOwnerCluster]; invoked := [] |}
  | (inr None, w) =>
      {| result := emptyResult; reterr := None;
         after := w; events := [Get; GetOwnerCluster]; invoked := [] |}
  | (inr (Some cluster), w) =>
  if IsPaused m cluster awsCluster then
      {| result := emptyResult; reterr := None;
         after := w; events := [Get; GetOwnerCluster]; invoked := [] |}
  else
  match newHelper m awsCluster w with
  | (Some err, w) =>
      {| result := emptyResult;
         reterr := Some (Wrap err (Sprintf "failed to init patch helper" []));
         after := w; events := [Get; GetOwnerCluster; NewHelper]; invoked := [] |}
  | (None, w) =>
  match newClusterScope m cluster awsCluster w with
  | (inl err, w) =>
      (* the deferred patch still runs; its error is printed *)
      let '(_, w) := patch m (object awsCluster) w in
      {| result := emptyResult;
         reterr := Some (New (Sprintf "failed to create scope: %+v" []));
         after := w;
         events := [Get; GetOwnerCluster; NewHelper; NewClusterScope; Patch];
         invoked := [] |}
  | (inr clusterScope, w) =>
      let st :=
        {| cscope := withCluster clusterScope (object awsCluster);
           rworld := w; steps := [] |} in
      let '(res, err, st) :=
        if deletionRequested awsCluster
        then reconcileDelete r st
        else reconcileNormal r st in
      (* deferred, last registered first: close the scope, then patch *)
      let '(closeErr, w) := close m (cscope st) (rworld st) in
      let err :=
        match closeErr, err with
        | Some e, None => Some e
        | _, _ => err
        end in
      let '(_, w) := patch m (controllers.awsCluster (cscope st)) w in
      {| result := res; reterr := err; after := w;
         events := [Get; GetOwnerCluster; NewHelper; NewClusterScope; Close; Patch];
         invoked := steps st |}
  end end end end.

(** [ctrl.Request] *)
Record Request := { Req_Namespace : string; Req_Name : string }.

(** The argument of the mapping function is a [client.Object]. *)
Inductive ClientObject :=
| OfCluster (c : Cluster)
| OfAnotherType.

(** [requeueAWSClusterForUnpausedCluster]: the mapping function it
    returns.  [lookup] is [r.Get] for an AWSCluster: the annotations of
    the object found, [None] when the call fails.  The result is [None]
    when the function panics. *)
Definition requeueAWSClusterForUnpausedCluster
    (lookup : NamespacedName → option (gmap string string)) (o : ClientObject)
    : option (list Request) :=
  match o with
  | OfAnotherType => None
  | OfCluster c =>
      if Cluster_Deleted c then Some []
      else
        match InfrastructureRef c with
        | None => Some []
        | Some ref =>
            if bool_decide (Ref_Kind ref ≠ "AWSCluster") then Some []
            else
              match lookup {| Key_Namespace := Ref_Namespace ref;
                              Key_Name := Ref_Name ref |} with
              | None => Some []
              | Some annotations =>
                  if bool_decide (is_Some (annotations !! "cluster.x-k8s.io/managed-by"))
                  then Some []
                  else Some [{| Req_Namespace := Cluster_Namespace c;
                                Req_Name := Ref_Name ref |}]
              end
        end
  end.

(** The reconciler whose event-notification steps report no error: they
    change the object and the world as before. *)
Definition muted (r : awsClusterReconciler W) : awsClusterReconciler W :=
  {| run step cs w :=
       match step with
       | DeleteEC2Events | ReconcileEC2Events =>
           let '(_, cs', w') := run r step cs w in (None, cs', w')
       | _ => run r step cs w
       end;
     Default := Default r;
     LookupIP := LookupIP r;
     EventBridgeInstanceState := EventBridgeInstanceState r;
     ClusterFinalizer := ClusterFinalizer r;
     ErrorConditionAfterInit := ErrorConditionAfterInit r |}.

(** The collaborators of the create path, in the order in which
    [reconcileNormal] invokes them, up to the load balancer's name
    resolution. *)
Definition convergers (r : awsClusterReconciler W) : list Step :=
  [PatchObject; ReconcileNetwork; ReconcileSecurityGroups; ReconcileBastion]
  ++ (if EventBridgeInstanceState r then [ReconcileEC2Events] else [])
  ++ [ReconcileLoadbalancers; ReconcileBucket].

End EntryPoint.

Arguments Manager : clear implicits.
Arguments Outcome : clear implicits.

(** An object store holding one cluster that is owned and not paused.
    Closing the scope and patching the object leave a mark in the world
    (beside the host names that resolve), so that a run that closes or
    patches can be told from one that does not. *)
Definition store (deleting : bool) (closeFails : bool)
    : Manager (list string) :=
  {| get req w :=
       (if bool_decide (Key_Name req = "test-cluster")
        then inr {| object := fixtures.cluster "elb.example";
                    deletionRequested := deleting |}
        else inl (Remote "NotFound"), w);
     IsNotFound e := match e with Remote code => bool_decide (code = "NotFound") | _ => false end;
     getOwnerCluster f w :=
       (inr (Some {| Cluster_Namespace := "default"; Cluster_Name := "test";
                     Cluster_Deleted := false; InfrastructureRef := None |}), w);
     IsPaused c f := false;
     newHelper f w := (None, w);
     patch a w := (None, w ++ ["patched"]);
     newClusterScope c f w := (inr {| awsCluster := object f; APIServerPort := 6443 |}, w);
     close cs w := (if closeFails then Some (Remote "Conflict") else None, w ++ ["closed"]) |}.

(** The same store before the cluster controller has set the owner
    reference. *)
Definition unowned : Manager (list string) :=
  {| get := get (store false false);
     IsNotFound := IsNotFound (store false false);
     getOwnerCluster f w := (inr None, w);
     IsPaused := IsPaused (store false false);
     newHelper := newHelper (store false false);
     patch := patch (store false false);
     newClusterScope := newClusterScope (store false false);
     close := close (store false false) |}.

End entrypoints.

(** ** More vocabulary: counting calls, leaving the scope alone *)

Module tracing.

Import ec2.

(** The number of instance-create calls among [l]. *)
Definition creates (l : list sdk.Call) : nat := length (List.filter sdk.isRunInstances l).

(** [m] only adds to the trace; it adds at most [n] instance-create
    calls, and exactly [n] when it returns a value. *)
Definition createsExactly {W A} (n : nat) (m : M W A) : Prop :=
  ∀ st, ∃ l,
    calls (snd (m st)) = calls st ++ l ∧
    (creates l ≤ n)%nat ∧
    (∀ a, fst (m st) = Ok a → creates l = n).

(** The two image lookups. *)
Definition isImageLookup (c : sdk.Call) : bool :=
  match c with
  | sdk.CallEksAMILookup _ _ | sdk.CallDefaultAMIIDLookup _ _ _ _ => true
  | _ => false
  end.

(** Neither an instance-create call nor an image lookup. *)
Definition plain (c : sdk.Call) : Prop :=
  sdk.isRunInstances c = false ∧ isImageLookup c = false.

(** [m] leaves the failure reason and message of the machine scope as
    they are. *)
Definition keepsFailure {W A} (m : M W A) : Prop :=
  ∀ st, failure (snd (m st)) = failure st.

(** If [c] is an instance-create call, its request satisfies [P]. *)
Definition requests (P : sdk.RunInstancesInput → Prop) (c : sdk.Call) : Prop :=
  ∀ input, c = sdk.CallRunInstances input → P input.

(** A block device as [runInstance] builds them: deleted with the
    instance, sized, and encrypted whenever it names a KMS key. *)
Definition wellFormedDevice (mapping : sdk.BlockDeviceMapping) : Prop :=
  ∃ device,
    sdk.Ebs mapping = Some device ∧
    sdk.DeleteOnTermination device = Some true ∧
    is_Some (sdk.VolumeSize device) ∧
    (is_Some (sdk.KmsKeyId device) → sdk.Encrypted device = Some true).

(** The block devices a request starts with: none, or the root device
    built from the root volume, under the name the image gives it. *)
Definition rootMappingsOf (i : infrav1.Instance)
    (rootMappings : list sdk.BlockDeviceMapping) : Prop :=
  match infrav1.RootVolume i with
  | None => rootMappings = []
  | Some rootVolume =>
      ∃ name, rootMappings = [{| sdk.DeviceName := name;
                                  sdk.Ebs := Some (ebsDeviceOf rootVolume) |}]
  end.

(** The collaborators of the create path run one after the other, each
    in the state left by the one before - the defaults are applied after
    the network step, the event notifications run before the load
    balancers and their error is dropped: the first collaborator that
    returned an error, with that error, or [None]; and the state
    reached. *)
Definition createPath {W} (r : controllers.awsClusterReconciler W)
    (st : controllers.RSt W)
    : option (controllers.Step * error) * controllers.RSt W :=
  let st :=
    controllers.update
      (fun a => controllers.AddFinalizer a (controllers.ClusterFinalizer r)) st in
  match spec.runSteps r [controllers.PatchObject; controllers.ReconcileNetwork] st with
  | (Some failure, st) => (Some failure, st)
  | (None, st) =>
      let st := controllers.update (controllers.Default r) st in
      match spec.runSteps r [controllers.ReconcileSecurityGroups;
                             controllers.ReconcileBastion] st with
      | (Some failure, st) => (Some failure, st)
      | (None, st) =>
          let st :=
            if controllers.EventBridgeInstanceState r
            then snd (controllers.invoke r controllers.ReconcileEC2Events st) else st in
          spec.runSteps r [controllers.ReconcileLoadbalancers;
                           controllers.ReconcileBucket] st
      end
  end.

(** The condition of type [t] on the cluster object is false, with the
    given reason and the given error as its message. *)
Definition recorded (a : controllers.AWSCluster) (t : controllers.ConditionType)
    (reason : controllers.ConditionReason) (e : error) : Prop :=
  ∃ c, c ∈ controllers.Conditions a ∧
       controllers.Cond_Type c = t ∧
       controllers.Cond_Status c = false ∧
       controllers.Cond_Reason c = reason ∧
       controllers.Cond_Message c = Some e.

End tracing.

(** C4 (spot translation).  A nil spot option yields no market-options
    request; every non-nil spot option yields a request of market type
    spot whose spot options carry interruption behaviour terminate and
    spot instance type one-time; a non-nil, non-empty max price is copied
    verbatim into the request. *)
Theorem spot_translation :
  ec2.getInstanceMarketOptionsRequest None = None ∧
  (∀ smo : infrav1.SpotMarketOptions,
     ∃ so,
       ec2.getInstanceMarketOptionsRequest (Some smo)
         = Some {| sdk.MarketType := Some sdk.MarketTypeSpot;
                   sdk.SpotOptions := Some so |} ∧
       sdk.InstanceInterruptionBehavior so = Some "terminate" ∧
       sdk.SpotInstanceType so = Some "one-time") ∧
  (∀ p : string, p ≠ "" →
     ∃ so,
       ec2.getInstanceMarketOptionsRequest (Some {| infrav1.MaxPrice := Some p |})
         = Some {| sdk.MarketType := Some "spot"; sdk.SpotOptions := Some so |} ∧
       sdk.Spot_MaxPrice so = Some p).
Proof.
  split; [reflexivity|]. split.
  - intros [[p|]]; cbn.
    + case_bool_decide; eexists; (split; [reflexivity|]); cbn; auto.
    + eexists; (split; [reflexivity|]); cbn; auto.
  - intros p Hp. cbn. rewrite bool_decide_eq_true_2 by done.
    eexists; split; [reflexivity|]. reflexivity.
Qed.

Lemma spot_translation_witness :
  ∃ so,
    ec2.getInstanceMarketOptionsRequest (Some {| infrav1.MaxPrice := Some "0.05" |})
      = Some {| sdk.MarketType := Some "spot"; sdk.SpotOptions := Some so |} ∧
    sdk.Spot_MaxPrice so = Some "0.05".
Proof.
  apply (proj2 (proj2 spot_translation) "0.05"). discriminate.
Defined.

(** * Subnet resolution *)

Section FindSubnet.

Import infrav1 ec2.
Context {W : Type} (s : Service W).

(** C1 (subnet priority, explicit subnet id), as the code has it.  With
    an explicit subnet id in the machine spec, [findSubnet] issues no
    remote call.  Without a failure domain it returns that id, whether
    or not the observed subnet set holds it.  With a failure domain the
    id must be found in the observed subnet set and the availability
    zone of the subnet found must equal the failure domain, otherwise
    the result is a FailedDependency error; when both hold the result
    is that id. *)
Theorem findSubnet_explicit_id
    (scope : MachineScope) (ref : AWSResourceReference) (id : string) (st : St W) :
  Subnet (AWSMachine scope) = Some ref →
  Ref_ID ref = Some id →
  snd (findSubnet s scope st) = st ∧
  (failureDomainOf scope = None → fst (findSubnet s scope st) = Ok id) ∧
  (∀ fd, failureDomainOf scope = Some fd →
     match FindByID (Scope_Subnets (s_scope s)) id with
     | None => ∃ m, fst (findSubnet s scope st) = Err (NewFailedDependency m)
     | Some subnet =>
         (Subnet_AvailabilityZone subnet ≠ fd →
            ∃ m, fst (findSubnet s scope st) = Err (NewFailedDependency m)) ∧
         (Subnet_AvailabilityZone subnet = fd →
            fst (findSubnet s scope st) = Ok id)
     end).
Proof.
  intros Href Hid. unfold findSubnet. rewrite Href.
  destruct ref as [rid rarn rfilters]; cbn in Hid; subst rid.
  destruct (failureDomainOf scope) as [fd|] eqn:Hfd.
  - destruct (FindByID (Scope_Subnets (s_scope s)) id) as [subnet|] eqn:Hfind.
    + case_bool_decide as Haz.
      * split; [reflexivity|]. split; [discriminate|].
        intros fd' [= <-]. split; [eauto|]. intros; contradiction.
      * split; [reflexivity|]. split; [discriminate|].
        intros fd' [= <-]. split; [|reflexivity].
        intros Hne. exfalso. apply Hne. exact Haz.
    + split; [reflexivity|]. split; [discriminate|].
      intros fd' [= <-]. eauto.
  - split; [reflexivity|]. split; [reflexivity|]. discriminate.
Qed.

End FindSubnet.

(** The explicit subnet subnet-1 lies in us-east-1a: asking for failure
    domain us-east-1b fails with FailedDependency. *)
Lemma findSubnet_explicit_id_witness :
  ∃ m,
    fst (ec2.findSubnet (fixtures.service "elb")
           (fixtures.machine "node" false
              (fixtures.withSubnet fixtures.machineSpec
                 (Some (fixtures.subnetRef "subnet-1")) (Some "us-east-1b")))
           (fixtures.start fixtures.world0))
    = Err (NewFailedDependency m).
Proof.
  destruct (findSubnet_explicit_id (fixtures.service "elb")
              (fixtures.machine "node" false
                 (fixtures.withSubnet fixtures.machineSpec
                    (Some (fixtures.subnetRef "subnet-1")) (Some "us-east-1b")))
              (fixtures.subnetRef "subnet-1") "subnet-1"
              (fixtures.start fixtures.world0) eq_refl eq_refl) as (_ & _ & H).
  specialize (H "us-east-1b" eq_refl). cbn in H.
  apply H. discriminate.
Defined.

(** C1 as stated fails: an explicit subnet id that the observed subnet set
    does not hold is returned, not rejected, when no failure domain is
    given. *)
Lemma findSubnet_unknown_id_accepted :
  let s := fixtures.service "elb" in
  let scope :=
    fixtures.machine "node" false
      (fixtures.withSubnet fixtures.machineSpec
         (Some (fixtures.subnetRef "subnet-404")) None) in
  infrav1.FindByID (ec2.Scope_Subnets (ec2.s_scope s)) "subnet-404" = None ∧
  fst (ec2.findSubnet s scope (fixtures.start fixtures.world0)) = Ok "subnet-404" ∧
  ¬ ∃ m, fst (ec2.findSubnet s scope (fixtures.start fixtures.world0))
         = Err (NewFailedDependency m).
Proof.
  cbn. split; [reflexivity|]. split; [reflexivity|]. intros [m Hm]. discriminate Hm.
Qed.

(** * Security-group role resolution *)

Section CoreSecurityGroups.

Import infrav1 ec2.

Lemma lookupRoles_ok (sgs : gmap SecurityGroupRole SecurityGroup) roles :
  ∀ ids,
    (∀ r, r ∈ roles → is_Some (sgs !! r)) →
    ∃ gs, Forall2 (λ r g, sgs !! r = Some g) roles gs ∧
          lookupRoles sgs roles ids = Ok (ids ++ map SG_ID gs).
Proof.
  induction roles as [|r roles IH]; intros ids Hall.
  - exists []. split; [constructor|]. cbn. by rewrite app_nil_r.
  - destruct (Hall r) as [g Hg]; [left|].
    destruct (IH (ids ++ [SG_ID g])) as (gs & Hgs & Heq).
    { intros r' Hr'. apply Hall. by right. }
    exists (g :: gs). split; [by constructor|].
    cbn. rewrite Hg, Heq. by rewrite <- app_assoc.
Qed.

Lemma lookupRoles_missing (sgs : gmap SecurityGroupRole SecurityGroup) roles r :
  ∀ ids,
    r ∈ roles → sgs !! r = None →
    ∃ m, lookupRoles sgs roles ids = Err (NewFailedDependency m).
Proof.
  induction roles as [|r' roles IH]; intros ids Hin Hnone.
  - by apply elem_of_nil in Hin.
  - cbn. destruct (sgs !! r') as [g|] eqn:Hr'; [|eauto].
    apply elem_of_cons in Hin as [->|Hin]; [congruence|]. by apply IH.
Qed.

(** C7 (security-group role resolution), as the code has it.  For an
    externally managed cluster [GetCoreSecurityGroups] returns no group
    and no error, whatever the role string.  Otherwise the role list is:
    the node role; the load-balancer role unless the cluster is
    EKS-managed; the control-plane role for role "control-plane"; the
    EKS-node-additional role for role "node" on an EKS-managed cluster.
    Any other role string is an error that is not a FailedDependency;
    with a known role string, the ids of the listed roles are returned
    in that order when every role is mapped, and a listed role without
    a mapping gives a FailedDependency error. *)
Theorem core_security_groups (s : EC2Scope) (scope : MachineScope) :
  (IsExternallyManaged scope = true → GetCoreSecurityGroups s scope = Ok []) ∧
  (IsExternallyManaged scope = false →
     let roles :=
       [SecurityGroupNode]
       ++ (if IsEKSManaged scope then [] else [SecurityGroupLB])
       ++ (if bool_decide (Role scope = "control-plane")
           then [SecurityGroupControlPlane] else [])
       ++ (if bool_decide (Role scope = "node") && IsEKSManaged scope
           then [SecurityGroupEKSNodeAdditional] else []) in
     (Role scope ≠ "node" → Role scope ≠ "control-plane" →
        ∃ e, GetCoreSecurityGroups s scope = Err e ∧ IsFailedDependency e = false) ∧
     (Role scope = "node" ∨ Role scope = "control-plane" →
        ((∀ r, r ∈ roles → is_Some (Scope_SecurityGroups s !! r)) →
           ∃ gs, Forall2 (λ r g, Scope_SecurityGroups s !! r = Some g) roles gs ∧
                 GetCoreSecurityGroups s scope = Ok (map SG_ID gs)) ∧
        (∀ r, r ∈ roles → Scope_SecurityGroups s !! r = None →
           ∃ e, GetCoreSecurityGroups s scope = Err e ∧ IsFailedDependency e = true))).
Proof.
  split.
  - intros Hext. unfold GetCoreSecurityGroups. by rewrite Hext.
  - intros Hext roles. unfold GetCoreSecurityGroups. rewrite Hext.
    assert (Hroles : (Role scope = "node" ∨ Role scope = "control-plane") →
                     coreRoles scope = Some roles).
    { subst roles. unfold coreRoles.
      intros [Hr|Hr]; rewrite Hr; cbn; destruct (IsEKSManaged scope); reflexivity. }
    split.
    + intros Hn Hc. unfold coreRoles.
      rewrite (bool_decide_eq_false_2 _ Hn), (bool_decide_eq_false_2 _ Hc).
      eexists; split; reflexivity.
    + intros Hr. rewrite (Hroles Hr). split.
      * intros Hall. destruct (lookupRoles_ok _ roles [] Hall) as (gs & Hgs & Heq).
        exists gs. split; [exact Hgs|exact Heq].
      * intros r Hin Hnone.
        destruct (lookupRoles_missing _ roles r [] Hin Hnone) as [m Hm].
        rewrite Hm. eexists; split; reflexivity.
Qed.

End CoreSecurityGroups.

(** A control-plane machine of a cluster whose node, load-balancer and
    control-plane groups are known gets exactly these three ids. *)
Lemma core_security_groups_witness :
  ec2.GetCoreSecurityGroups (fixtures.clusterScope "elb")
    (fixtures.machine "control-plane" false fixtures.machineSpec)
  = Ok ["sg-node"; "sg-lb"; "sg-cp"].
Proof.
  destruct (core_security_groups (fixtures.clusterScope "elb")
              (fixtures.machine "control-plane" false fixtures.machineSpec))
    as [_ H].
  destruct (H eq_refl) as [_ H2].
  destruct (H2 (or_intror eq_refl)) as [Hok _].
  destruct Hok as (gs & Hgs & Heq).
  { intros r Hr. cbn in Hr. set_unfold in Hr.
    destruct Hr as [->|[->|[->|[]]]]; vm_compute; eauto. }
  rewrite Heq. cbn in Hgs.
  inversion Hgs as [|? g1 ? l1 H1 Hgs1]; subst.
  inversion Hgs1 as [|? g2 ? l2 H2' Hgs2]; subst.
  inversion Hgs2 as [|? g3 ? l3 H3 Hgs3]; subst.
  inversion Hgs3; subst.
  vm_compute in H1, H2', H3.
  injection H1 as <-. injection H2' as <-. injection H3 as <-. reflexivity.
Defined.

(** C7 as stated fails: on an externally managed cluster an unknown role
    string is not an error, and the node role is not looked up. *)
Lemma core_security_groups_externally_managed :
  ec2.GetCoreSecurityGroups (fixtures.clusterScope "elb")
    (fixtures.machine "bogus" true fixtures.machineSpec) = Ok [] ∧
  ec2.GetCoreSecurityGroups (fixtures.clusterScope "elb")
    (fixtures.machine "node" true fixtures.machineSpec) = Ok [].
Proof. split; reflexivity. Qed.

(** * The delete path *)

Section Teardown.

Import controllers spec.
Context {W : Type} (r : awsClusterReconciler W).

Lemma invoke_steps (step : Step) (st : RSt W) :
  steps (snd (invoke r step st)) = steps st ++ [step].
Proof. unfold invoke. destruct (run r step _ _) as [[err cs] w]. reflexivity. Qed.

(** What a sequence of steps leaves in the trace: all of it when no step
    fails, and otherwise the steps up to the failed one, included. *)
Lemma runSteps_steps (l : list Step) :
  ∀ st : RSt W,
    match fst (runSteps r l st) with
    | Some (failed, _) =>
        ∃ before after,
          l = before ++ failed :: after ∧
          steps (snd (runSteps r l st)) = steps st ++ before ++ [failed]
    | None => steps (snd (runSteps r l st)) = steps st ++ l
    end.
Proof.
  induction l as [|step rest IH]; intros st; cbn.
  - by rewrite app_nil_r.
  - pose proof (invoke_steps step st) as Hinv.
    destruct (invoke r step st) as [[err|] st'] eqn:Hi; cbn in *.
    + exists [], rest. split; [reflexivity|]. exact Hinv.
    + specialize (IH st').
      destruct (runSteps r rest st') as [[[failed err]|] st''] eqn:Hr; cbn in *.
      * destruct IH as (before & after & -> & Hsteps).
        exists (step :: before), after. split; [reflexivity|].
        rewrite Hsteps, Hinv. by rewrite <- app_assoc.
      * rewrite IH, Hinv. by rewrite <- app_assoc.
Qed.

(** C2 (teardown order).  After the optional, non-fatal removal of the
    event notifications, [reconcileDelete] runs load-balancer deletion,
    bastion termination, security-group deletion, network deletion and
    object-store deletion in that order, each in the state left by the
    previous one.  When a step fails the error is returned, no later
    step is attempted and the object is left as the failed step left
    it: the finalizer is not removed.  The finalizer is removed exactly
    when all five steps returned nil.  In particular a load-balancer
    deletion failure ends the delete with the load-balancer deletion as
    the only deletion step attempted. *)
Theorem reconcileDelete_teardown (st : RSt W) :
  let st0 :=
    if EventBridgeInstanceState r then snd (invoke r DeleteEC2Events st) else st in
  let out := runSteps r teardown st0 in
  match fst out with
  | Some (failed, err) =>
      (∃ err', reconcileDelete r st = (emptyResult, Some err', snd out) ∧
               (err' = err ∨ err' = Wrap err (Sprintf "error deleting S3 Bucket" []))) ∧
      (∃ before after,
         teardown = before ++ failed :: after ∧
         steps (snd out) = steps st0 ++ before ++ [failed])
  | None =>
      reconcileDelete r st
        = (emptyResult, None,
           update (fun a => RemoveFinalizer a (ClusterFinalizer r)) (snd out)) ∧
      steps (snd out) = steps st0 ++ teardown
  end ∧
  (∀ err st1,
     invoke r DeleteLoadbalancers st0 = (Some err, st1) →
     reconcileDelete r st = (emptyResult, Some err, st1) ∧
     steps st1 = steps st0 ++ [DeleteLoadbalancers] ∧
     DeleteBastion ∉ [DeleteLoadbalancers]).
Proof.
  intros st0 out. split.
  - pose proof (runSteps_steps teardown st0) as Htrace. fold out in Htrace.
    subst out. unfold reconcileDelete. fold st0.
    unfold teardown in *. cbn [runSteps] in *.
    destruct (invoke r DeleteLoadbalancers st0) as [[e1|] s1]; cbn in *;
      [split; [eexists; split; [reflexivity|by left]|exact Htrace]|].
    destruct (invoke r DeleteBastion s1) as [[e2|] s2]; cbn in *;
      [split; [eexists; split; [reflexivity|by left]|exact Htrace]|].
    destruct (invoke r DeleteSecurityGroups s2) as [[e3|] s3]; cbn in *;
      [split; [eexists; split; [reflexivity|by left]|exact Htrace]|].
    destruct (invoke r DeleteNetwork s3) as [[e4|] s4]; cbn in *;
      [split; [eexists; split; [reflexivity|by left]|exact Htrace]|].
    destruct (invoke r DeleteBucket s4) as [[e5|] s5]; cbn in *;
      [split; [eexists; split; [reflexivity|by right]|exact Htrace]|].
    split; [reflexivity|exact Htrace].
  - intros err st1 Hlb. unfold reconcileDelete. fold st0. rewrite Hlb.
    split; [reflexivity|]. split.
    + pose proof (invoke_steps DeleteLoadbalancers st0) as H.
      rewrite Hlb in H. exact H.
    + intros Hin. apply list_elem_of_singleton in Hin. discriminate Hin.
Qed.

End Teardown.

(** When the load-balancer deletion fails, the delete ends with that
    error; the trace holds the event-notification teardown and the
    load-balancer deletion only, and the object still carries its
    finalizer. *)
Lemma reconcileDelete_teardown_witness :
  let r := fixtures.reconciler [controllers.DeleteLoadbalancers] in
  let st := fixtures.begin "elb.example" [] in
  ∃ st1,
    controllers.reconcileDelete r st
      = (controllers.emptyResult, Some fixtures.internalError, st1) ∧
    controllers.steps st1 = [controllers.DeleteEC2Events; controllers.DeleteLoadbalancers] ∧
    controllers.Finalizers (controllers.awsCluster (controllers.cscope st1))
      = ["awscluster.infrastructure.cluster.x-k8s.io"].
Proof.
  intros r st.
  destruct (reconcileDelete_teardown r st) as [_ H].
  edestruct (H fixtures.internalError) as (Hrun & Hsteps & _); [reflexivity|].
  eexists. split; [exact Hrun|]. split; [exact Hsteps|reflexivity].
Defined.

(** When every step succeeds the finalizer is gone. *)
Example reconcileDelete_all_succeed :
  let out := controllers.reconcileDelete (fixtures.reconciler [])
               (fixtures.begin "elb.example" []) in
  fst out = (controllers.emptyResult, None) ∧
  controllers.steps (snd out)
    = controllers.DeleteEC2Events :: spec.teardown ∧
  controllers.Finalizers (controllers.awsCluster (controllers.cscope (snd out))) = [].
Proof. repeat split. Qed.

(** * The create path: waiting for the load balancer *)

Section WaitForLoadBalancer.

Import controllers spec.
Context {W : Type} (r : awsClusterReconciler W).

(** When a converger fails, [reconcileNormal] returns its error with an
    empty result: no requeue delay is asked for. *)
Lemma reconcileNormal_converger_failed (st : RSt W) :
  converged r st = None →
  ∃ err st', reconcileNormal r st = (emptyResult, Some err, st').
Proof.
  unfold converged, reconcileNormal. cbn [runSteps].
  destruct (invoke r PatchObject _) as [[e|] s1]; [eauto|].
  destruct (invoke r ReconcileNetwork _) as [[e|] s2]; [eauto|].
  destruct (invoke r ReconcileSecurityGroups _) as [[e|] s3]; [eauto|].
  destruct (invoke r ReconcileBastion _) as [[e|] s4]; [eauto|].
  destruct (invoke r ReconcileLoadbalancers _) as [[e|] s5]; [eauto|].
  destruct (invoke r ReconcileBucket _) as [[e|] s6]; [eauto|].
  discriminate.
Qed.

(** C8 (load-balancer waits).  Let all convergers of the create path
    have succeeded.  If the observed load-balancer DNS name is empty,
    [reconcileNormal] returns a requeue-after of 15 seconds and no
    error, without resolving anything and without touching the ready
    flag.  If the name is not empty and does not resolve, it returns a
    requeue-after of 15 seconds and no error, again without touching
    the ready flag.  Only when the name is not empty and resolves does
    it set the ready flag to true (and return the empty result). *)
Theorem reconcileNormal_waits (st s6 : RSt W) :
  converged r st = Some s6 →
  let a := awsCluster (cscope s6) in
  (DNSName a = "" →
     ∃ st', reconcileNormal r st = (requeueAfter15s, None, st') ∧
            Ready (awsCluster (cscope st')) = Ready a ∧
            steps st' = steps s6) ∧
  (DNSName a ≠ "" →
     ∀ err w, LookupIP r (DNSName a) (rworld s6) = (Some err, w) →
     ∃ st', reconcileNormal r st = (requeueAfter15s, None, st') ∧
            Ready (awsCluster (cscope st')) = Ready a ∧
            steps st' = steps s6 ++ [NetLookupIP (DNSName a)]) ∧
  (DNSName a ≠ "" →
     ∀ w, LookupIP r (DNSName a) (rworld s6) = (None, w) →
     ∃ st', reconcileNormal r st = (emptyResult, None, st') ∧
            Ready (awsCluster (cscope st')) = true ∧
            steps st' = steps s6 ++ [NetLookupIP (DNSName a)]).
Proof.
  unfold converged, reconcileNormal. cbn [runSteps].
  destruct (invoke r PatchObject _) as [[e|] s1]; [discriminate|].
  destruct (invoke r ReconcileNetwork _) as [[e|] s2]; [discriminate|].
  destruct (invoke r ReconcileSecurityGroups _) as [[e|] s3]; [discriminate|].
  destruct (invoke r ReconcileBastion _) as [[e|] s4]; [discriminate|].
  destruct (invoke r ReconcileLoadbalancers _) as [[e|] s5]; [discriminate|].
  destruct (invoke r ReconcileBucket _) as [[e|] s6']; [discriminate|].
  intros [= ->]. split; [|split].
  - intros Hdns. rewrite (bool_decide_eq_true_2 _ Hdns).
    eexists. split; [reflexivity|]. split; reflexivity.
  - intros Hdns err w Hlook. rewrite (bool_decide_eq_false_2 _ Hdns).
    unfold lookup. rewrite Hlook.
    eexists. split; [reflexivity|]. split; reflexivity.
  - intros Hdns w Hlook. rewrite (bool_decide_eq_false_2 _ Hdns).
    unfold lookup. rewrite Hlook.
    eexists. split; [reflexivity|]. split; reflexivity.
Qed.

End WaitForLoadBalancer.

(** All convergers succeed and the status has no load-balancer DNS name
    yet: requeue after 15 seconds, no error, the object is not ready. *)
Lemma reconcileNormal_waits_witness :
  let r := fixtures.reconciler [] in
  let st := fixtures.begin "" [] in
  ∃ st',
    controllers.reconcileNormal r st
      = ({| controllers.Requeue := false;
            controllers.RequeueAfter := 15 * controllers.Second |}, None, st') ∧
    controllers.Ready (controllers.awsCluster (controllers.cscope st')) = false.
Proof.
  intros r st.
  destruct (reconcileNormal_waits r st _ eq_refl) as (H & _ & _).
  destruct (H eq_refl) as (st' & Hrun & Hready & _).
  exists st'. split; [exact Hrun|exact Hready].
Defined.

(** The name is there but does not resolve yet: same outcome; once it
    resolves the object becomes ready. *)
Example reconcileNormal_unresolved_then_resolved :
  let r := fixtures.reconciler [] in
  let waiting := controllers.reconcileNormal r (fixtures.begin "elb.example" []) in
  let done := controllers.reconcileNormal r (fixtures.begin "elb.example" ["elb.example"]) in
  fst waiting = (spec.requeueAfter15s, None) ∧
  controllers.Ready (controllers.awsCluster (controllers.cscope (snd waiting))) = false ∧
  fst done = (controllers.emptyResult, None) ∧
  controllers.Ready (controllers.awsCluster (controllers.cscope (snd done))) = true ∧
  controllers.ControlPlaneEndpoint (controllers.awsCluster (controllers.cscope (snd done)))
    = {| controllers.Host := "elb.example"; controllers.Port := 6443 |}.
Proof. vm_compute. repeat split. Qed.

(** * What the service adds to the trace *)

Section Trace.

Import infrav1 ec2 spec.
Context {W : Type}.
Implicit Type s : Service W.
Implicit Type P : sdk.Call → Prop.

Lemma emits_ret {A} P (a : A) : emits P (ret a : M W A).
Proof. intros st. exists []. by rewrite app_nil_r. Qed.

Lemma emits_fail {A} P (e : error) : emits P (fail e : M W A).
Proof. intros st. exists []. by rewrite app_nil_r. Qed.

Lemma emits_panic {A} P : emits P (panic : M W A).
Proof. intros st. exists []. by rewrite app_nil_r. Qed.

Lemma emits_lift {A} P (o : outcome A) : emits P (lift o : M W A).
Proof. intros st. exists []. by rewrite app_nil_r. Qed.

Lemma emits_setFailure P reason (e : error) : emits P (setFailure reason e : M W unit).
Proof. intros st. exists []. by rewrite app_nil_r. Qed.

Lemma emits_call {A} P (c : sdk.Call) (f : W → Response A * W) :
  P c → emits P (call c f).
Proof.
  intros Hc st. exists [c]. unfold call.
  destruct (f (world st)) as [[e|a] w']; cbn; split; auto.
Qed.

Lemma emits_bind {A B} P (m : M W A) (k : A → M W B) :
  emits P m → (∀ a, emits P (k a)) → emits P (bind m k).
Proof.
  intros Hm Hk st. unfold bind.
  destruct (Hm st) as (l1 & Hl1 & HP1).
  destruct (m st) as [[a|e|] st1]; cbn in *; [|by exists l1..].
  destruct (Hk a st1) as (l2 & Hl2 & HP2).
  exists (l1 ++ l2). split.
  - by rewrite Hl2, Hl1, app_assoc.
  - by apply Forall_app.
Qed.

Lemma emits_wrapErr {A} P (m : M W A) (msg : Msg) : emits P m → emits P (wrapErr m msg).
Proof.
  intros Hm st. unfold wrapErr.
  destruct (Hm st) as (l & Hl & HP).
  destruct (m st) as [[a|e|] st1]; by exists l.
Qed.

Lemma emits_try {A} P (m : M W A) : emits P m → emits P (try m).
Proof.
  intros Hm st. unfold try.
  destruct (Hm st) as (l & Hl & HP).
  destruct (m st) as [[a|e|] st1]; by exists l.
Qed.

Lemma emits_weaken {A} P (Q : sdk.Call → Prop) (m : M W A) :
  (∀ c, P c → Q c) → emits P m → emits Q m.
Proof.
  intros HPQ Hm st. destruct (Hm st) as (l & Hl & HP).
  exists l. split; [done|]. eapply Forall_impl; eauto.
Qed.

(** One step of a proof that a computation emits only calls of a kind:
    follow the structure of the computation. *)
Ltac emits_step :=
  first
    [ apply emits_ret | apply emits_fail | apply emits_panic | apply emits_lift
    | apply emits_setFailure | apply emits_wrapErr | apply emits_try
    | apply emits_call; first [ reflexivity | done ]
    | apply emits_bind; [|intros ?]
    | case_match ].

Lemma emits_findSubnet s scope : emits notRunInstances (findSubnet s scope).
Proof. unfold findSubnet, getFilteredSubnets. repeat emits_step. Qed.

Lemma emits_resolveImageID s scope : emits notRunInstances (resolveImageID s scope).
Proof. unfold resolveImageID. repeat emits_step. Qed.

Lemma emits_attach s groups interfaceID :
  emits notRunInstances (attachSecurityGroupsToNetworkInterface s groups interfaceID).
Proof.
  unfold attachSecurityGroupsToNetworkInterface, getNetworkInterfaceSecurityGroups.
  repeat emits_step.
Qed.

Lemma emits_attachToProvided s groups interfaces :
  emits notRunInstances (attachToProvided s groups interfaces).
Proof.
  induction interfaces as [|id rest IH]; cbn [attachToProvided].
  - apply emits_ret.
  - apply emits_bind; [apply emits_attach|intros _; exact IH].
Qed.

Lemma emits_checkRootVolume s rootVolume imageID :
  emits notRunInstances (checkRootVolume s rootVolume imageID).
Proof.
  unfold checkRootVolume, getImageRootDevice, getImageSnapshotSize.
  repeat emits_step.
Qed.

Lemma notRunInstances_createsWithKey key c : notRunInstances c → createsWithKey key c.
Proof. intros Hc input ->. discriminate Hc. Qed.

Lemma emits_runInstance s role i :
  emits (createsWithKey (SSHKeyName i)) (runInstance s role i).
Proof.
  unfold runInstance.
  destruct (UserData i); [|apply emits_panic].
  apply emits_bind.
  { destruct (RootVolume i); [|apply emits_ret].
    apply emits_bind; [|intros ?; apply emits_ret].
    eapply emits_weaken; [apply notRunInstances_createsWithKey|].
    apply emits_checkRootVolume. }
  intros rootMappings. apply emits_bind; [apply emits_lift|].
  intros mappings. apply emits_bind.
  { apply emits_wrapErr, emits_call. intros input [= <-]. reflexivity. }
  intros instances. destruct instances as [|instance ?]; [apply emits_fail|].
  destruct (sdk.InstanceId instance); [|apply emits_panic].
  apply emits_bind; [|intros ?; apply emits_lift].
  apply emits_try, emits_call. intros input [=].
Qed.

End Trace.

(** * Instance creation *)

Section CreateInstance.

Import infrav1 ec2 spec.
Context {W : Type} (s : Service W).

Lemma emits_CreateInstance scope userData :
  emits (createsWithKey
           (if bool_decide (prioritizedSSHKeyName s scope = "") then None
            else Some (prioritizedSSHKeyName s scope)))
        (CreateInstance s scope userData).
Proof.
  set (key := if bool_decide (prioritizedSSHKeyName s scope = "") then None
              else Some (prioritizedSSHKeyName s scope)).
  unfold CreateInstance.
  apply emits_bind.
  { eapply emits_weaken; [apply notRunInstances_createsWithKey|].
    apply emits_resolveImageID. }
  intros imageID. apply emits_bind.
  { eapply emits_weaken; [apply notRunInstances_createsWithKey|].
    apply emits_findSubnet. }
  intros subnetID. case_match; [apply emits_fail|].
  apply emits_bind.
  { repeat case_match; first [apply emits_fail | apply emits_ret]. }
  intros userData'. apply emits_bind; [apply emits_lift|].
  intros ids. apply emits_bind.
  { eapply emits_weaken; [|apply emits_runInstance].
    intros c Hc input Heq. rewrite (Hc input Heq). cbn. subst key.
    destruct (decide (prioritizedSSHKeyName s scope = "")) as [He|He].
    - by rewrite (bool_decide_eq_false_2 _ (λ H, H He)), (bool_decide_eq_true_2 _ He).
    - by rewrite (bool_decide_eq_true_2 _ He), (bool_decide_eq_false_2 _ He). }
  intros out. apply emits_bind; [|intros ?; apply emits_ret].
  case_match; [|apply emits_ret].
  eapply emits_weaken; [apply notRunInstances_createsWithKey|].
  apply emits_attachToProvided.
Qed.

(** The selection of the SSH key name, as the code has it.  A machine-level
    name, when not nil, is the one selected; a nil machine-level name
    inherits the cluster-level one; when both are nil the default SSH
    key name is selected unless the cluster is externally managed, in
    which case the empty name is selected.  Every instance-create
    request issued by [CreateInstance] carries the selected name, and no
    SSH key name at all when the selected name is the empty string. *)
Theorem ssh_key_selection (scope : MachineScope) :
  (∀ name, Spec_SSHKeyName (AWSMachine scope) = Some name →
     prioritizedSSHKeyName s scope = name) ∧
  (∀ name, Spec_SSHKeyName (AWSMachine scope) = None →
     IC_SSHKeyName (InfraCluster scope) = Some name →
     prioritizedSSHKeyName s scope = name) ∧
  (Spec_SSHKeyName (AWSMachine scope) = None →
   IC_SSHKeyName (InfraCluster scope) = None →
   prioritizedSSHKeyName s scope
     = if IsExternallyManaged scope then "" else defaultSSHKeyName (deps s)) ∧
  (∀ userData st,
     ∃ l, calls (snd (CreateInstance s scope userData st)) = calls st ++ l ∧
          ∀ input, sdk.CallRunInstances input ∈ l →
            sdk.In_KeyName input =
              if bool_decide (prioritizedSSHKeyName s scope = "") then None
              else Some (prioritizedSSHKeyName s scope)).
Proof.
  unfold prioritizedSSHKeyName. repeat split.
  - by intros name ->.
  - by intros name -> ->.
  - intros -> ->. by destruct (IsExternallyManaged scope).
  - intros userData st.
    destruct (emits_CreateInstance scope userData st) as (l & Hl & HP).
    exists l. split; [exact Hl|].
    intros input Hin. rewrite Forall_forall in HP.
    exact (HP _ Hin input eq_refl).
Qed.

(** C10 (no instance ahead of the load balancer), as the code has it.
    For a cluster that is neither externally managed nor EKS-managed and
    whose observed API-server load-balancer DNS name is empty,
    [CreateInstance] never returns an instance and never issues an
    instance-create call; when the image and the subnet are resolved,
    what it returns is the FailedDependency error "APIServer ELB not
    available", with the trace as subnet resolution left it.  When the
    resolution of the image fails, what it returns is that error, in
    the state the image resolution left; when the image is resolved and
    the resolution of the subnet fails, what it returns is that error,
    in the state the subnet resolution left. *)
Theorem create_requires_load_balancer (scope : MachineScope) userData (st : St W) :
  IsExternallyManaged scope = false →
  IsEKSManaged scope = false →
  APIServerELB_DNSName (s_scope s) = "" →
  (∀ instance, fst (CreateInstance s scope userData st) ≠ Ok instance) ∧
  (∃ l, calls (snd (CreateInstance s scope userData st)) = calls st ++ l ∧
        Forall notRunInstances l) ∧
  (∀ imageID st1 subnetID st2,
     resolveImageID s scope st = (Ok imageID, st1) →
     findSubnet s scope st1 = (Ok subnetID, st2) →
     CreateInstance s scope userData st
       = (Err (NewFailedDependency
                 (Sprintf "failed to run controlplane, APIServer ELB not available" [])),
          st2)) ∧
  (∀ e st1,
     resolveImageID s scope st = (Err e, st1) →
     CreateInstance s scope userData st = (Err e, st1)) ∧
  (∀ imageID st1 e st2,
     resolveImageID s scope st = (Ok imageID, st1) →
     findSubnet s scope st1 = (Err e, st2) →
     CreateInstance s scope userData st = (Err e, st2)).
Proof.
  intros Hext Heks Hdns.
  assert (Hrun : CreateInstance s scope userData st =
            bind (resolveImageID s scope)
              (fun _ => bind (findSubnet s scope)
                 (fun _ => fail (NewFailedDependency
                    (Sprintf "failed to run controlplane, APIServer ELB not available" []))))
              st).
  { unfold CreateInstance, bind.
    destruct (resolveImageID s scope st) as [[imageID|e|] st1]; [|done..].
    destruct (findSubnet s scope st1) as [[subnetID|e|] st2]; [|done..].
    rewrite Hext, Heks, Hdns. reflexivity. }
  rewrite Hrun. split; [|split; [|split; [|split]]].
  - intros instance. unfold bind.
    destruct (resolveImageID s scope st) as [[imageID|e|] st1]; [|done..].
    destruct (findSubnet s scope st1) as [[subnetID|e|] st2]; done.
  - apply emits_bind; [apply emits_resolveImageID|].
    intros _. apply emits_bind; [apply emits_findSubnet|].
    intros _. apply emits_fail.
  - intros imageID st1 subnetID st2 Himg Hsub. unfold bind.
    rewrite Himg, Hsub. reflexivity.
  - intros e st1 Himg. unfold bind. rewrite Himg. reflexivity.
  - intros imageID st1 e st2 Himg Hsub. unfold bind.
    rewrite Himg, Hsub. reflexivity.
Qed.

End CreateInstance.

(** With no name on the machine or on the cluster, a cluster that is not
    externally managed gets the default SSH key name. *)
Lemma ssh_key_selection_witness :
  ec2.prioritizedSSHKeyName (fixtures.service "elb.example")
    (fixtures.machine "node" false fixtures.machineSpec) = "default".
Proof.
  exact (proj1 (proj2 (proj2
           (ssh_key_selection (fixtures.service "elb.example")
              (fixtures.machine "node" false fixtures.machineSpec))))
           eq_refl eq_refl).
Defined.

(** C9 (SSH key name selection): the code at the failing input.  The
    comment above the switch in [CreateInstance] says that nil values
    for both the machine-level and the cluster-level name mean the
    default SSH key name.  With both names nil on an externally managed
    cluster the code does not select the default name: the selected name
    is empty and the instance is created with no key name. *)
Lemma ssh_key_default_skipped_when_externally_managed :
  let s := fixtures.service "elb.example" in
  let scope := fixtures.machine "node" true fixtures.machineSpec in
  ec2.Spec_SSHKeyName (ec2.AWSMachine scope) = None ∧
  ec2.IC_SSHKeyName (ec2.InfraCluster scope) = None ∧
  ec2.defaultSSHKeyName (ec2.deps s) = "default" ∧
  ec2.prioritizedSSHKeyName s scope ≠ ec2.defaultSSHKeyName (ec2.deps s) ∧
  ∃ input,
    ec2.calls (snd (ec2.CreateInstance s scope [] (fixtures.start fixtures.world0)))
      = [sdk.CallRunInstances input; sdk.CallWaitUntilInstanceRunning [Some "i-0001"]] ∧
    sdk.In_KeyName input = None.
Proof.
  cbv zeta. split; [reflexivity|]. split; [reflexivity|]. split; [reflexivity|].
  split; [discriminate|].
  eexists. split; [vm_compute; reflexivity|reflexivity].
Qed.

(** The image is given and a private subnet exists, but the load balancer
    has no DNS name yet: FailedDependency, nothing is issued. *)
Lemma create_requires_load_balancer_witness :
  ec2.CreateInstance (fixtures.service "")
    (fixtures.machine "node" false fixtures.machineSpec) []
    (fixtures.start fixtures.world0)
  = (Err (NewFailedDependency
            (Sprintf "failed to run controlplane, APIServer ELB not available" [])),
     fixtures.start fixtures.world0).
Proof.
  exact (proj1 (proj2 (proj2
           (create_requires_load_balancer (fixtures.service "")
              (fixtures.machine "node" false fixtures.machineSpec) []
              (fixtures.start fixtures.world0) eq_refl eq_refl eq_refl)))
           "ami-1" _ "subnet-1" _ eq_refl eq_refl).
Defined.

(** C10 as stated fails: with neither an image id nor a machine version,
    the error returned while the load balancer has no DNS name is not a
    FailedDependency. *)
Lemma create_without_image_is_not_failed_dependency :
  let s := fixtures.service "" in
  let scope :=
    fixtures.machine "node" false (fixtures.withAMI fixtures.machineSpec None) in
  ec2.IsExternallyManaged scope = false ∧
  ec2.IsEKSManaged scope = false ∧
  ec2.APIServerELB_DNSName (ec2.s_scope s) = "" ∧
  ∃ e, fst (ec2.CreateInstance s scope [] (fixtures.start fixtures.world0)) = Err e ∧
       IsFailedDependency e = false.
Proof.
  cbv zeta. split; [reflexivity|]. split; [reflexivity|]. split; [reflexivity|].
  eexists. split; [vm_compute; reflexivity|reflexivity].
Qed.

(** * Security groups of the network interfaces *)

Section SecurityGroups.

Import infrav1 ec2 spec.
Context {W : Type} (s : Service W).

Lemma containsGroup_elem (l : list string) (x : string) :
  containsGroup l x = true ↔ x ∈ l.
Proof.
  induction l as [|y l IH]; cbn.
  - split; [discriminate|]. by intros ?%elem_of_nil.
  - case_bool_decide as Hy.
    + subst y. split; [intros _; left|done].
    + rewrite IH. split; [by right|].
      intros [?|?]%elem_of_cons; [congruence|done].
Qed.

(** The loop only appends: the result is the existing groups followed
    by the requested groups that are not among them. *)
Lemma totalGroupsOf_app (existing groups : list string) :
  totalGroupsOf existing groups
  = existing ++ List.filter (fun g => negb (containsGroup existing g)) groups.
Proof.
  unfold totalGroupsOf.
  enough (H : ∀ acc,
            fold_left
              (fun totalGroups group =>
                 if negb (containsGroup existing group)
                 then totalGroups ++ [group] else totalGroups) groups acc
            = acc ++ List.filter (fun g => negb (containsGroup existing g)) groups)
    by apply H.
  induction groups as [|g groups IH]; intros acc; cbn.
  - by rewrite app_nil_r.
  - rewrite IH. destruct (negb (containsGroup existing g)); [|done].
    by rewrite <- app_assoc.
Qed.

Lemma totalGroupsOf_elem (existing groups : list string) (g : string) :
  g ∈ totalGroupsOf existing groups ↔ g ∈ existing ∨ g ∈ groups.
Proof.
  rewrite totalGroupsOf_app, elem_of_app.
  rewrite (list_elem_of_In (List.filter _ _) g), filter_In, <- list_elem_of_In.
  split.
  - intros [?|[? _]]; auto.
  - intros [?|Hg]; [by left|].
    destruct (containsGroup existing g) eqn:Hc.
    + left. by apply containsGroup_elem.
    + by right.
Qed.

(** The two lists have the same length exactly when every requested
    group is already present. *)
Lemma totalGroupsOf_same_length (existing groups : list string) :
  length existing = length (totalGroupsOf existing groups)
  ↔ ∀ g, g ∈ groups → g ∈ existing.
Proof.
  rewrite totalGroupsOf_app, length_app.
  induction groups as [|g groups IH]; cbn.
  - split; [by intros _ g ?%elem_of_nil|lia].
  - destruct (containsGroup existing g) eqn:Hc; cbn.
    + rewrite IH. apply containsGroup_elem in Hc. split.
      * intros H g' [->|?]%elem_of_cons; auto.
      * intros H g' Hg'. apply H. by right.
    + split; [lia|]. intros H.
      assert (Hg : g ∈ existing) by (apply H; left).
      apply containsGroup_elem in Hg. congruence.
Qed.

(** [attachSecurityGroupsToNetworkInterface], call by call. *)
Lemma attach_run (groups : list string) (id : string) (st : St W) :
  attachSecurityGroupsToNetworkInterface s groups id st =
  let described w :=
    {| world := w; calls := calls st ++ [describeGroups id]; failure := failure st |} in
  match DescribeNetworkInterfaceAttribute (EC2Client s)
          (Some "groupSet") (Some id) (world st) with
  | (inl e, w1) =>
      (Err (Wrap e (Sprintf
              "failed to look up network interface security groups: %+v" [])),
       described w1)
  | (inr gs, w1) =>
      let total := totalGroupsOf (groupIds gs) groups in
      if bool_decide (length (groupIds gs) = length total) then (Ok tt, described w1)
      else
        let modified w :=
          {| world := w;
             calls := (calls st ++ [describeGroups id]) ++ [modifyGroups id total];
             failure := failure st |} in
        match ModifyNetworkInterfaceAttribute (EC2Client s)
                (Some id) (map Some total) w1 with
        | (inl e, w2) =>
            (Err (Wrap e (Sprintf
                    "failed to modify interface %q to have security groups %v"
                    [AStr id])),
             modified w2)
        | (inr u, w2) => (Ok u, modified w2)
        end
  end.
Proof.
  unfold attachSecurityGroupsToNetworkInterface, getNetworkInterfaceSecurityGroups,
    bind, wrapErr, call, ret. cbn.
  destruct (DescribeNetworkInterfaceAttribute _ _ _ _) as [[e|gs] w1]; cbn; [done|].
  fold (groupIds gs).
  destruct (bool_decide _); [done|]. cbn.
  destruct (ModifyNetworkInterfaceAttribute _ _ _ _) as [[e|u] w2]; done.
Qed.

Lemma attachToEach_attached (ids : list string) (instanceID : string)
    (enis : list sdk.NetworkInterface) :
  ∀ st st',
    attachToEach s ids instanceID enis st = (Ok tt, st') →
    ∃ l, attached (EC2Client s) ids enis (world st) l (world st') ∧
         calls st' = calls st ++ l.
Proof.
  induction enis as [|eni rest IH]; intros st st'; cbn [attachToEach].
  - intros [= <-]. exists []. split; [constructor|by rewrite app_nil_r].
  - unfold bind, wrapErr. rewrite attach_run. cbv zeta.
    destruct (DescribeNetworkInterfaceAttribute _ _ _ _) as [[e|gs] w1] eqn:Hd;
      [discriminate|].
    case_bool_decide as Hlen.
    + intros Hrest. apply IH in Hrest as (l & Hatt & Hcalls). cbn in *.
      exists (describeGroups (sdk.StringValue (sdk.NetworkInterfaceId eni)) :: l).
      split; [|by rewrite Hcalls, <- app_assoc].
      eapply attached_present; eauto.
      by apply totalGroupsOf_same_length.
    + destruct (ModifyNetworkInterfaceAttribute _ _ _ _) as [[e|[]] w2] eqn:Hm;
        [discriminate|].
      intros Hrest. apply IH in Hrest as (l & Hatt & Hcalls). cbn in *.
      eexists (describeGroups _ :: modifyGroups _ _ :: l).
      split; [|by rewrite Hcalls, <- !app_assoc].
      eapply attached_union; eauto.
      * destruct (decide (Forall (λ g, g ∈ groupIds gs) ids)) as [Hall|Hnall].
        -- exfalso. apply Hlen. apply totalGroupsOf_same_length.
           by apply Forall_forall.
        -- apply not_Forall_Exists in Hnall; [|solve_decision].
           apply Exists_exists in Hnall as (g & Hg & Hng). by exists g.
      * eexists. apply totalGroupsOf_app.
      * apply totalGroupsOf_elem.
Qed.

(** C3 (security-group union).  For one interface: when every requested
    group is already among the groups read from the interface, no
    modify call is issued - the read is the only call.  For an instance:
    when [UpdateInstanceSecurityGroups] succeeds, each interface of the
    instance, in the order in which the provider listed them, had its
    groups read and, unless every requested group was already present,
    replaced by one modify call with the existing groups followed by the
    missing ones - as a set, the union of the existing and the requested
    groups; nothing else was called. *)
Theorem update_security_groups_union (instanceID : string) (ids : list string) :
  (∀ id st gs w1,
     DescribeNetworkInterfaceAttribute (EC2Client s)
       (Some "groupSet") (Some id) (world st) = (inr gs, w1) →
     (∀ g, g ∈ ids → g ∈ groupIds gs) →
     attachSecurityGroupsToNetworkInterface s ids id st
       = (Ok tt, {| world := w1; calls := calls st ++ [describeGroups id];
                    failure := failure st |})) ∧
  (∀ st st',
     UpdateInstanceSecurityGroups s instanceID ids st = (Ok tt, st') →
     let filters :=
       [sdk.Raw {| sdk.Name := Some "attachment.instance-id";
                   sdk.Values := [Some instanceID] |}] in
     ∃ enis w1 l,
       DescribeNetworkInterfaces (EC2Client s) filters (world st) = (inr enis, w1) ∧
       attached (EC2Client s) ids enis w1 l (world st') ∧
       calls st' = calls st ++ sdk.CallDescribeNetworkInterfaces filters :: l).
Proof.
  split.
  - intros id st gs w1 Hd Hall. rewrite attach_run, Hd. cbv zeta.
    rewrite bool_decide_eq_true_2; [done|].
    by apply totalGroupsOf_same_length.
  - intros st st'. unfold UpdateInstanceSecurityGroups, getInstanceENIs, bind, wrapErr, call.
    destruct (DescribeNetworkInterfaces _ _ _) as [[e|enis] w1] eqn:Hd; [discriminate|].
    intros Hrest. cbv zeta. apply attachToEach_attached in Hrest as (l & Hatt & Hcalls).
    cbn in *. exists enis, w1, l. split; [done|]. split; [done|].
    by rewrite Hcalls, <- app_assoc.
Qed.

End SecurityGroups.

(** The interface of the instance carries sg-1 and sg-2; attaching sg-2
    and sg-3 succeeds and the interface was given the union. *)
Lemma update_security_groups_union_witness :
  ∃ enis w1 l st',
    ec2.UpdateInstanceSecurityGroups (fixtures.service "elb") "i-0001" ["sg-2"; "sg-3"]
      (fixtures.start fixtures.world0) = (Ok tt, st') ∧
    spec.attached fixtures.client ["sg-2"; "sg-3"] enis w1 l (ec2.world st') ∧
    fixtures.groupsOf (ec2.world st') !! "eni-1" = Some ["sg-1"; "sg-2"; "sg-3"].
Proof.
  destruct (proj2 (update_security_groups_union (fixtures.service "elb")
                     "i-0001" ["sg-2"; "sg-3"])
              (fixtures.start fixtures.world0) _ eq_refl)
    as (enis & w1 & l & _ & Hatt & _).
  exists enis, w1, l. eexists. split; [reflexivity|]. split; [exact Hatt|].
  vm_compute. reflexivity.
Defined.

(** The two runs of the spec: existing sg-1, sg-2 with sg-2, sg-3 attached
    gives one modify call with sg-1, sg-2, sg-3; attaching sg-1, sg-2
    gives no modify call. *)
Example security_group_union_runs :
  ec2.calls (snd (ec2.UpdateInstanceSecurityGroups (fixtures.service "elb") "i-0001"
                    ["sg-2"; "sg-3"] (fixtures.start fixtures.world0)))
  = [ sdk.CallDescribeNetworkInterfaces
        [sdk.Raw {| sdk.Name := Some "attachment.instance-id";
                    sdk.Values := [Some "i-0001"] |}];
      spec.describeGroups "eni-1";
      spec.modifyGroups "eni-1" ["sg-1"; "sg-2"; "sg-3"] ] ∧
  ec2.calls (snd (ec2.UpdateInstanceSecurityGroups (fixtures.service "elb") "i-0001"
                    ["sg-1"; "sg-2"] (fixtures.start fixtures.world0)))
  = [ sdk.CallDescribeNetworkInterfaces
        [sdk.Raw {| sdk.Name := Some "attachment.instance-id";
                    sdk.Values := [Some "i-0001"] |}];
      spec.describeGroups "eni-1" ].
Proof. split; vm_compute; reflexivity. Qed.

(** * The root volume guard *)

Section RootVolume.

Import infrav1 ec2 spec.
Context {W : Type} (s : Service W).

Lemma nonRootMappings_ok (volumes : list Volume) :
  ∀ mappings,
    Forall (λ v, Vol_DeviceName v ≠ "") volumes →
    ∃ mappings', nonRootMappings volumes mappings = Ok mappings'.
Proof.
  induction volumes as [|v volumes IH]; intros mappings Hall; cbn; [eauto|].
  inversion Hall as [|? ? Hv Hrest]; subst.
  rewrite (bool_decide_eq_false_2 _ Hv). by apply IH.
Qed.

(** Once issued, a call stays in the trace of whatever follows. *)
Lemma emits_keeps {A} (P : sdk.Call → Prop) (m : M W A) (c : sdk.Call) (st : St W) :
  emits P m → c ∈ calls st → c ∈ calls (snd (m st)).
Proof.
  intros Hm Hc. destruct (Hm st) as (l & -> & _). apply elem_of_app. by left.
Qed.

(** C5 (root volume guard).  Let the instance description carry a root
    volume, and let the image lookups answer with a root device name
    and a snapshot size.  If the requested size is smaller than the
    snapshot size, [checkRootVolume] fails and [runInstance] returns
    that error, having issued the image lookups only: no instance-create
    call.  If the requested size is at least the snapshot size,
    [checkRootVolume] accepts it and returns the root device name, and
    [runInstance] goes on to issue the instance-create call (provided
    every non-root volume has a device name). *)
Theorem root_volume_guard (role : string) (i : Instance) (rootVolume : Volume)
    (userData : string) (st st1 st2 : St W) (rootDeviceName : option string) (size : Z) :
  RootVolume i = Some rootVolume →
  UserData i = Some userData →
  getImageRootDevice s (ImageID i) st = (Ok rootDeviceName, st1) →
  getImageSnapshotSize s (ImageID i) st1 = (Ok (Some size), st2) →
  (Vol_Size rootVolume < size →
     ∃ e, checkRootVolume s rootVolume (ImageID i) st = (Err e, st2) ∧
          runInstance s role i st = (Err e, st2) ∧
          ∃ l, calls st2 = calls st ++ l ∧ Forall notRunInstances l) ∧
  (size ≤ Vol_Size rootVolume →
     checkRootVolume s rootVolume (ImageID i) st = (Ok rootDeviceName, st2) ∧
     (Forall (λ v, Vol_DeviceName v ≠ "") (NonRootVolumes i) →
        ∃ input, sdk.CallRunInstances input ∈ calls (snd (runInstance s role i st)))).
Proof.
  intros Hrv Hud Hroot Hsnap.
  assert (Hcheck : checkRootVolume s rootVolume (ImageID i) st =
            (if bool_decide (Vol_Size rootVolume < size)
             then Err (New (Sprintf
                    "root volume size (%d) must be greater than or equal to snapshot size (%d)"
                    [AInt (Vol_Size rootVolume); AInt size]))
             else Ok rootDeviceName, st2)).
  { unfold checkRootVolume, bind, wrapErr. rewrite Hroot, Hsnap.
    by destruct (bool_decide _). }
  split.
  - intros Hlt. rewrite (bool_decide_eq_true_2 _ Hlt) in Hcheck.
    eexists. split; [exact Hcheck|]. split.
    + unfold runInstance. rewrite Hud, Hrv. unfold bind at 1. unfold bind at 1.
      by rewrite Hcheck.
    + destruct (emits_checkRootVolume s rootVolume (ImageID i) st) as (l & Hl & HP).
      rewrite Hcheck in Hl. by exists l.
  - intros Hge. rewrite bool_decide_eq_false_2 in Hcheck by lia.
    split; [exact Hcheck|].
    intros Hnames.
    destruct (nonRootMappings_ok (NonRootVolumes i)
                [{| sdk.DeviceName := rootDeviceName;
                    sdk.Ebs := Some (ebsDeviceOf rootVolume) |}] Hnames)
      as (mappings & Hmappings).
    exists (runInstancesInput i mappings).
    unfold runInstance. rewrite Hud, Hrv.
    unfold bind at 1. unfold bind at 1. rewrite Hcheck. cbn [ret].
    unfold bind at 1. unfold lift. rewrite Hmappings.
    match goal with
    | |- _ ∈ calls (snd (bind ?m ?k ?st)) =>
        assert (Hissued : sdk.CallRunInstances (runInstancesInput i mappings)
                          ∈ calls (snd (m st)))
    end.
    { unfold wrapErr, call.
      destruct (RunInstances _ _ _) as [[e|instances] w']; cbn;
        apply elem_of_app; right; by left. }
    unfold bind.
    destruct (wrapErr _ _ st2) as [[instances|e|] st3]; [|done..].
    cbn [snd] in Hissued.
    eapply (emits_keeps (λ _, True)); [|exact Hissued].
    destruct instances as [|instance ?]; [apply emits_fail|].
    destruct (sdk.InstanceId instance); [|apply emits_panic].
    apply emits_bind; [|intros ?; apply emits_lift].
    apply emits_try, emits_call. done.
Qed.

End RootVolume.

(** Snapshot size 20, requested root volume size 10: rejected, the two
    image lookups are the only calls. *)
Lemma root_volume_guard_witness :
  let i size := {|
    infrav1.ID := ""; infrav1.State := infrav1.StateOf ""; infrav1.Type_ := "t3.large";
    infrav1.SubnetID := "subnet-1"; infrav1.ImageID := "ami-1";
    infrav1.SSHKeyName := None; infrav1.SecurityGroupIDs := [];
    infrav1.UserData := Some "dXNlci1kYXRh"; infrav1.IAMProfile := "";
    infrav1.Addresses := []; infrav1.PrivateIP := None; infrav1.PublicIP := None;
    infrav1.ENASupport := None; infrav1.EBSOptimized := None;
    infrav1.RootVolume := ec2.Spec_RootVolume (fixtures.withRootVolume fixtures.machineSpec size);
    infrav1.NonRootVolumes := []; infrav1.NetworkInterfaces := [];
    infrav1.Tags := ∅; infrav1.AvailabilityZone := "";
    infrav1.Inst_SpotMarketOptions := None; infrav1.Tenancy := "";
    infrav1.VolumeIDs := [] |} in
  (∃ e st2,
     ec2.runInstance (fixtures.service "elb") "node" (i 10) (fixtures.start fixtures.world0)
       = (Err e, st2) ∧
     ec2.calls st2 = [sdk.CallDescribeImages [Some "ami-1"];
                      sdk.CallDescribeImages [Some "ami-1"]]) ∧
  (∃ input,
     sdk.CallRunInstances input
     ∈ ec2.calls (snd (ec2.runInstance (fixtures.service "elb") "node" (i 25)
                         (fixtures.start fixtures.world0)))).
Proof.
  intros i. split.
  - destruct (proj1 (root_volume_guard (fixtures.service "elb") "node" (i 10)
                       _ _ (fixtures.start fixtures.world0) _ _ _ 20
                       eq_refl eq_refl eq_refl eq_refl)) as (e & _ & Hrun & _);
      [reflexivity|].
    exists e. eexists. split; [exact Hrun|reflexivity].
  - destruct (proj2 (root_volume_guard (fixtures.service "elb") "node" (i 25)
                       _ _ (fixtures.start fixtures.world0) _ _ _ 20
                       eq_refl eq_refl eq_refl eq_refl)) as (_ & Hrun);
      [discriminate|].
    apply Hrun. constructor.
Defined.

(** * Tag updates *)

Section ResourceTags.

Import infrav1 ec2 spec.
Context {W : Type} (s : Service W).

Lemma size_pos_non_empty (m : gmap string string) : (0 < size m)%nat ↔ m ≠ ∅.
Proof. rewrite <- map_size_non_empty_iff. lia. Qed.

(** The calls of [UpdateResourceTags] for a non-nil resource id. *)
Lemma update_resource_tags_trace (rid : string) (create remove : gmap string string)
    (st : St W) :
  let createCall := sdk.CallCreateTags [Some rid] (MapToTags (deps s) create) in
  let deleteCall := sdk.CallDeleteTags [Some rid] (MapToTags (deps s) remove) in
  let createFailed :=
    create ≠ ∅ ∧
    ∃ e, fst (CreateTags (EC2Client s) [Some rid] (MapToTags (deps s) create) (world st))
         = inl e in
  ∃ l,
    calls (snd (UpdateResourceTags s (Some rid) create remove st)) = calls st ++ l ∧
    (createCall ∈ l ↔ create ≠ ∅) ∧
    (deleteCall ∈ l ↔ remove ≠ ∅ ∧ ¬ createFailed) ∧
    l `sublist_of` [createCall; deleteCall] ∧
    (create = ∅ → remove = ∅ → l = []).
Proof.
  intros createCall deleteCall createFailed. subst createFailed.
  unfold UpdateResourceTags, bind, wrapErr, call, ret.
  destruct (decide (create = ∅)) as [Hc|Hc];
    destruct (decide (remove = ∅)) as [Hr|Hr].
  - rewrite !bool_decide_eq_false_2 by (rewrite size_pos_non_empty; tauto).
    exists []. cbn. rewrite app_nil_r.
    split; [done|]. split; [|split; [|split; [apply sublist_nil_l|done]]].
    + split; [by intros ?%elem_of_nil|done].
    + split; [by intros ?%elem_of_nil|tauto].
  - rewrite (bool_decide_eq_false_2 (0 < size create)%nat)
      by (rewrite size_pos_non_empty; tauto).
    rewrite (bool_decide_eq_true_2 (0 < size remove)%nat)
      by (by rewrite size_pos_non_empty).
    exists [deleteCall]. cbn.
    split; [by destruct (DeleteTags _ _ _ _) as [[e|u] w']|].
    split; [|split; [|split; [by apply sublist_cons|done]]].
    + split; [|done]. intros Hin%list_elem_of_singleton. discriminate Hin.
    + split; [tauto|]. intros _. by apply list_elem_of_singleton.
  - rewrite (bool_decide_eq_true_2 (0 < size create)%nat)
      by (by rewrite size_pos_non_empty).
    rewrite (bool_decide_eq_false_2 (0 < size remove)%nat)
      by (rewrite size_pos_non_empty; tauto).
    exists [createCall]. cbn.
    split; [by destruct (CreateTags _ _ _ _) as [[e|u] w']|].
    split; [|split; [|split; [apply sublist_skip, sublist_nil_l|done]]].
    + split; [done|]. intros _. by apply list_elem_of_singleton.
    + split; [|tauto]. intros Hin%list_elem_of_singleton. discriminate Hin.
  - rewrite (bool_decide_eq_true_2 (0 < size create)%nat)
      by (by rewrite size_pos_non_empty).
    rewrite (bool_decide_eq_true_2 (0 < size remove)%nat)
      by (by rewrite size_pos_non_empty).
    destruct (CreateTags _ _ _ _) as [[e|u] w'] eqn:Hcreate; cbn.
    + exists [createCall].
      split; [done|].
      split; [|split; [|split; [apply sublist_skip, sublist_nil_l|done]]].
      * split; [done|]. intros _. by apply list_elem_of_singleton.
      * split.
        -- intros Hin%list_elem_of_singleton. discriminate Hin.
        -- intros [_ Hnot]. exfalso. apply Hnot. split; [done|]. by exists e.
    + exists [createCall; deleteCall].
      split; [destruct (DeleteTags _ _ _ _) as [[e|u'] w'']; cbn;
              by rewrite <- app_assoc|].
      split; [|split; [|split; [done|done]]].
      * split; [done|]. intros _. left.
      * split.
        -- intros _. split; [done|]. intros [_ [e He]]. discriminate He.
        -- intros _. right. left.
Qed.

(** C6 (tag updates), as the code has it.  For a non-nil resource id,
    [UpdateResourceTags] issues at most two calls, tag-create first.
    The tag-create call is issued if and only if the create map is not
    empty.  The tag-delete call is issued if and only if the remove map
    is not empty and the tag-create call, when there was one, did not
    fail.  A failed tag-create call returns its error at once: the
    result is the provider's error, wrapped, the tag-create call is the
    only call, and the state is the one that call left.  With both maps
    empty nothing is called, and the result is nil. *)
Theorem update_resource_tags_calls (rid : string) (create remove : gmap string string)
    (st : St W) :
  let createCall := sdk.CallCreateTags [Some rid] (MapToTags (deps s) create) in
  let deleteCall := sdk.CallDeleteTags [Some rid] (MapToTags (deps s) remove) in
  let createFailed :=
    create ≠ ∅ ∧
    ∃ e, fst (CreateTags (EC2Client s) [Some rid] (MapToTags (deps s) create) (world st))
         = inl e in
  ∃ l,
    calls (snd (UpdateResourceTags s (Some rid) create remove st)) = calls st ++ l ∧
    (createCall ∈ l ↔ create ≠ ∅) ∧
    (deleteCall ∈ l ↔ remove ≠ ∅ ∧ ¬ createFailed) ∧
    l `sublist_of` [createCall; deleteCall] ∧
    (create = ∅ → remove = ∅ → l = []) ∧
    (∀ e w',
       create ≠ ∅ →
       CreateTags (EC2Client s) [Some rid] (MapToTags (deps s) create) (world st)
       = (inl e, w') →
       l = [createCall] ∧
       UpdateResourceTags s (Some rid) create remove st
       = (Err (Wrap e (Sprintf "failed to create tags for resource %q: %+v" [AStr rid])),
          {| world := w'; calls := calls st ++ [createCall]; failure := failure st |})) ∧
    (create = ∅ → remove = ∅ →
       UpdateResourceTags s (Some rid) create remove st = (Ok tt, st)).
Proof.
  intros createCall deleteCall createFailed.
  destruct (update_resource_tags_trace rid create remove st)
    as (l & Hl & Hcreate & Hdelete & Hsub & Hnone).
  exists l. split; [exact Hl|]. split; [exact Hcreate|]. split; [exact Hdelete|].
  split; [exact Hsub|]. split; [exact Hnone|]. split.
  - intros e w' Hc Hfailed.
    assert (Hrun : UpdateResourceTags s (Some rid) create remove st
              = (Err (Wrap e (Sprintf "failed to create tags for resource %q: %+v"
                                [AStr rid])),
                 {| world := w'; calls := calls st ++ [createCall];
                    failure := failure st |})).
    { unfold UpdateResourceTags, bind, wrapErr, call.
      rewrite (bool_decide_eq_true_2 (0 < size create)%nat)
        by (by rewrite size_pos_non_empty).
      by rewrite Hfailed. }
    split; [|exact Hrun].
    rewrite Hrun in Hl. cbn in Hl. by apply app_inv_head in Hl.
  - intros Hc Hr. unfold UpdateResourceTags, bind, ret.
    rewrite !bool_decide_eq_false_2 by (rewrite size_pos_non_empty; tauto).
    reflexivity.
Qed.

End ResourceTags.

(** Both maps non-empty and a provider that accepts the tag-create call:
    the tag-create call is followed by the tag-delete call. *)
Lemma update_resource_tags_calls_witness :
  ec2.calls (snd (ec2.UpdateResourceTags (fixtures.service "elb") (Some "i-0001")
                    {[ "c" := "3" ]} {[ "a" := "1" ]} (fixtures.start fixtures.world0)))
  = [ sdk.CallCreateTags [Some "i-0001"] [{| sdk.Key := Some "c"; sdk.Value := Some "3" |}];
      sdk.CallDeleteTags [Some "i-0001"] [{| sdk.Key := Some "a"; sdk.Value := Some "1" |}] ]
  ∧ ec2.calls (snd (ec2.UpdateResourceTags (fixtures.service "elb") (Some "i-0001")
                      ∅ ∅ (fixtures.start fixtures.world0))) = [].
Proof.
  split; [vm_compute; reflexivity|].
  destruct (update_resource_tags_calls (fixtures.service "elb") "i-0001" ∅ ∅
              (fixtures.start fixtures.world0)) as (l & Hl & _ & _ & _ & Hnone & _).
  rewrite Hl, (Hnone eq_refl eq_refl). reflexivity.
Defined.

(** C6 as stated fails: the two calls are not independent.  When the
    tag-create call fails, its error is returned at once and the
    tag-delete call is not issued although the remove map is not empty. *)
Lemma update_resource_tags_delete_skipped :
  let remove : gmap string string := {[ "a" := "1" ]} in
  let run :=
    ec2.UpdateResourceTags (fixtures.service "elb") (Some "i-0001")
      {[ "c" := "3" ]} remove
      (fixtures.start (fixtures.breaking sdk.isCreateTags fixtures.world0)) in
  remove ≠ ∅ ∧
  ec2.calls (snd run)
    = [sdk.CallCreateTags [Some "i-0001"] [{| sdk.Key := Some "c"; sdk.Value := Some "3" |}]] ∧
  ¬ Exists (λ c, sdk.isDeleteTags c = true) (ec2.calls (snd run)) ∧
  fst run
  = Err (Wrap fixtures.internalError
           (Sprintf "failed to create tags for resource %q: %+v" [AStr "i-0001"])).
Proof.
  cbv zeta.
  assert (Hcalls :
    ec2.calls (snd (ec2.UpdateResourceTags (fixtures.service "elb") (Some "i-0001")
                      {[ "c" := "3" ]} {[ "a" := "1" ]}
                      (fixtures.start (fixtures.breaking sdk.isCreateTags fixtures.world0))))
    = [sdk.CallCreateTags [Some "i-0001"] [{| sdk.Key := Some "c"; sdk.Value := Some "3" |}]])
    by (vm_compute; reflexivity).
  split; [|split; [exact Hcalls|split]].
  - intros Hempty. apply (f_equal (λ m : gmap string string, m !! "a")) in Hempty.
    vm_compute in Hempty. discriminate Hempty.
  - rewrite Hcalls. intros Hex. apply Exists_cons in Hex as [Hd|Hex].
    + discriminate Hd.
    + by apply Exists_nil in Hex.
  - vm_compute. reflexivity.
Qed.

(** * Detaching security groups *)

Section GroupLists.

Import infrav1 ec2 spec.

Lemma filterGroups_elem (l : list string) (x y : string) :
  y ∈ filterGroups l x ↔ y ∈ l ∧ y ≠ x.
Proof.
  induction l as [|z l IH]; cbn.
  - split; [by intros ?%elem_of_nil|by intros [?%elem_of_nil _]].
  - case_bool_decide as Hz.
    + rewrite !elem_of_cons, IH. split.
      * intros [->|[? ?]]; auto.
      * intros [[->|?] ?]; auto.
    + rewrite elem_of_cons, IH. split.
      * intros [? ?]; auto.
      * intros [[->|?] ?]; [congruence|auto].
Qed.

Lemma filterGroups_sublist (l : list string) (x : string) :
  filterGroups l x `sublist_of` l.
Proof.
  induction l as [|z l IH]; cbn; [done|].
  case_bool_decide; [by apply sublist_skip|by apply sublist_cons].
Qed.

(** X1.  [filterGroups] removes every occurrence of the given string and
    nothing else: the result does not hold it, holds every other element
    of the list, in the order of the list, and is the list itself when
    the string does not occur. *)
Theorem filterGroups_removes (l : list string) (x : string) :
  (x ∉ filterGroups l x) ∧
  (∀ y, y ∈ filterGroups l x ↔ y ∈ l ∧ y ≠ x) ∧
  (filterGroups l x `sublist_of` l) ∧
  (x ∉ l → filterGroups l x = l).
Proof.
  split; [|split; [apply filterGroups_elem|split; [apply filterGroups_sublist|]]].
  - intros Hx. apply filterGroups_elem in Hx as [_ Hx]. by apply Hx.
  - induction l as [|z l IH]; cbn; [done|].
    intros Hnot. apply not_elem_of_cons in Hnot as [Hne Hnot].
    rewrite bool_decide_eq_true_2 by done. by rewrite IH.
Qed.

(** A string that occurs once in a list of distinct strings is gone
    after the removal, the others stay. *)
Lemma filterGroups_removes_witness :
  ec2.filterGroups ["sg-1"; "sg-2"; "sg-3"] "sg-4" = ["sg-1"; "sg-2"; "sg-3"].
Proof.
  apply (filterGroups_removes ["sg-1"; "sg-2"; "sg-3"] "sg-4").
  intros Hin. set_unfold in Hin. destruct Hin as [H|[H|[H|[]]]]; discriminate H.
Defined.

Lemma detached_elem (groups existing : list string) (g : string) :
  g ∈ fold_left filterGroups groups existing ↔ g ∈ existing ∧ g ∉ groups.
Proof.
  revert existing. induction groups as [|x groups IH]; intros existing; cbn.
  - split; [intros ?; split; [done|by intros ?%elem_of_nil]|by intros [? _]].
  - rewrite IH, filterGroups_elem, not_elem_of_cons. split.
    + intros [[? ?] ?]; auto.
    + intros [? [? ?]]; auto.
Qed.

Lemma detached_sublist (groups existing : list string) :
  fold_left filterGroups groups existing `sublist_of` existing.
Proof.
  revert existing. induction groups as [|x groups IH]; intros existing; cbn; [done|].
  etrans; [apply IH|]. apply filterGroups_sublist.
Qed.

(** X2.  Detaching the groups that were just attached undoes the
    attachment: removing the requested groups from the list sent by
    [attachSecurityGroupsToNetworkInterface] gives what removing them
    from the existing groups gives, and the existing groups themselves
    when none of the requested groups was among them. *)
Theorem detach_after_attach (existing groups : list string) :
  fold_left filterGroups groups (totalGroupsOf existing groups)
    = fold_left filterGroups groups existing ∧
  ((∀ g, g ∈ groups → g ∉ existing) →
     fold_left filterGroups groups (totalGroupsOf existing groups) = existing).
Proof.
  assert (Hfilter : ∀ l : list string,
            fold_left filterGroups groups l
            = List.filter (fun y => negb (containsGroup groups y)) l).
  { induction groups as [|x rest IH]; intros l; cbn.
    - induction l as [|z l IHl]; cbn; [done|]. by rewrite <- IHl.
    - rewrite IH. clear IH. induction l as [|z l IHl]; cbn; [done|].
      case_bool_decide as Hz; case_bool_decide as Hx; cbn.
      + congruence.
      + by rewrite IHl.
      + subst z. by rewrite IHl.
      + congruence. }
  assert (Hgone : List.filter (fun y => negb (containsGroup groups y))
                    (List.filter (fun g => negb (containsGroup existing g)) groups) = []).
  { generalize (List.filter (fun g => negb (containsGroup existing g)) groups),
      (incl_filter (fun g => negb (containsGroup existing g)) groups).
    intros l Hl. induction l as [|z l IHl]; cbn; [done|].
    assert (Hz : containsGroup groups z = true).
    { apply containsGroup_elem, list_elem_of_In, Hl. by left. }
    rewrite Hz. cbn. apply IHl. intros y Hy. apply Hl. by right. }
  assert (Hfirst : fold_left filterGroups groups (totalGroupsOf existing groups)
                   = fold_left filterGroups groups existing).
  { rewrite !Hfilter, totalGroupsOf_app, List.filter_app, Hgone. by rewrite app_nil_r. }
  split; [exact Hfirst|].
  intros Hfresh. rewrite Hfirst, Hfilter.
  clear Hfilter Hgone Hfirst.
  induction existing as [|z l IHl]; cbn; [done|].
  assert (Hz : containsGroup groups z = false).
  { destruct (containsGroup groups z) eqn:Hc; [|done].
    apply containsGroup_elem in Hc. exfalso. apply (Hfresh z Hc). by left. }
  rewrite Hz. cbn. f_equal. apply IHl.
  intros g Hg Hin. apply (Hfresh g Hg). by right.
Qed.

(** Attaching is idempotent on the list level: once the groups sent
    by an attachment are the groups of the interface, attaching the same
    groups again computes the same list, so that no modify call follows. *)
Lemma attach_twice (existing groups : list string) :
  totalGroupsOf (totalGroupsOf existing groups) groups = totalGroupsOf existing groups.
Proof.
  assert (Hlen : length (totalGroupsOf existing groups)
                 = length (totalGroupsOf (totalGroupsOf existing groups) groups)).
  { apply totalGroupsOf_same_length. intros g Hg.
    apply totalGroupsOf_elem. by right. }
  rewrite (totalGroupsOf_app (totalGroupsOf existing groups) groups) in *.
  rewrite length_app in Hlen.
  destruct (List.filter _ groups) as [|z l]; [by rewrite app_nil_r|].
  cbn in Hlen. lia.
Qed.

(** The list sent by an attachment holds no group twice, provided
    the existing groups and the requested groups each hold no group
    twice. *)
Lemma attach_keeps_groups_distinct (existing groups : list string) :
  NoDup existing → NoDup groups → NoDup (totalGroupsOf existing groups).
Proof.
  intros Hexisting Hgroups. rewrite totalGroupsOf_app.
  apply NoDup_app. split; [done|]. split.
  - intros g Hg Hin. apply list_elem_of_In, filter_In in Hin as [_ Hnot].
    apply containsGroup_elem in Hg. rewrite Hg in Hnot. discriminate Hnot.
  - clear Hexisting. induction Hgroups as [|g l Hg Hl IH]; cbn; [constructor|].
    destruct (negb (containsGroup existing g)); [|exact IH].
    constructor; [|exact IH].
    intros Hin. apply Hg. apply list_elem_of_In, filter_In in Hin as [Hin _].
    by apply list_elem_of_In.
Qed.

End GroupLists.

(** Distinct existing and requested groups give distinct groups. *)
Lemma attach_keeps_groups_distinct_witness :
  NoDup (ec2.totalGroupsOf ["sg-1"; "sg-2"] ["sg-2"; "sg-3"]).
Proof.
  apply attach_keeps_groups_distinct.
  - apply (NoDup_cons_2 "sg-1"); [|apply (NoDup_cons_2 "sg-2"); [|constructor]].
    + intros H%list_elem_of_singleton. discriminate H.
    + by intros ?%elem_of_nil.
  - apply (NoDup_cons_2 "sg-2"); [|apply (NoDup_cons_2 "sg-3"); [|constructor]].
    + intros H%list_elem_of_singleton. discriminate H.
    + by intros ?%elem_of_nil.
Defined.

(** Groups that were not on the interface are gone again after the
    detachment; the interface is back to its groups. *)
Lemma detach_after_attach_witness :
  fold_left ec2.filterGroups ["sg-3"; "sg-4"]
    (ec2.totalGroupsOf ["sg-1"; "sg-2"] ["sg-3"; "sg-4"]) = ["sg-1"; "sg-2"].
Proof.
  apply (proj2 (detach_after_attach ["sg-1"; "sg-2"] ["sg-3"; "sg-4"])).
  intros g Hg Hin. set_unfold in Hg. set_unfold in Hin.
  destruct Hg as [->|[->|[]]]; destruct Hin as [H|[H|[]]]; discriminate H.
Defined.

(** * Detaching and listing the security groups of interfaces *)

Section InterfaceGroups.

Import infrav1 ec2 spec instances.
Context {W : Type} (s : Service W).

(** X3.  [DetachSecurityGroupsFromNetworkInterface] reads the groups of
    the interface and, when the read succeeds, always issues one modify
    call - also when none of the given groups is on the interface - with
    the existing groups that are not among the given ones, in their
    order.  When the read fails the wrapped error is returned and no
    modify call is issued. *)
Theorem detach_calls (groups : list string) (id : string) (st : St W) :
  match DescribeNetworkInterfaceAttribute (EC2Client s)
          (Some "groupSet") (Some id) (world st) with
  | (inl e, w1) =>
      DetachSecurityGroupsFromNetworkInterface s groups id st
      = (Err (Wrap e (Sprintf "failed to look up network interface security groups" [])),
         {| world := w1; calls := calls st ++ [describeGroups id];
            failure := failure st |})
  | (inr gs, w1) =>
      ∃ remaining,
        calls (snd (DetachSecurityGroupsFromNetworkInterface s groups id st))
          = calls st ++ [describeGroups id; modifyGroups id remaining] ∧
        (∀ g, g ∈ remaining ↔ g ∈ groupIds gs ∧ g ∉ groups) ∧
        (remaining `sublist_of` groupIds gs)
  end.
Proof.
  unfold DetachSecurityGroupsFromNetworkInterface, getNetworkInterfaceSecurityGroups,
    bind, wrapErr, call, ret. cbn.
  destruct (DescribeNetworkInterfaceAttribute _ _ _ _) as [[e|gs] w1]; cbn; [done|].
  fold (groupIds gs).
  exists (fold_left filterGroups groups (groupIds gs)).
  split; [|split; [apply detached_elem|apply detached_sublist]].
  destruct (ModifyNetworkInterfaceAttribute _ _ _ _) as [[e|u] w2]; cbn;
    by rewrite <- app_assoc.
Qed.

Lemma groupsByInterface_other (enis : list sdk.NetworkInterface) (id : string) :
  ∀ acc : gmap string (list string),
    id ∉ map (fun eni => sdk.StringValue (sdk.NetworkInterfaceId eni)) enis →
    fold_left
      (fun out eni =>
         <[sdk.StringValue (sdk.NetworkInterfaceId eni) :=
             map (fun group => sdk.StringValue (sdk.GroupId group)) (sdk.Groups eni)]> out)
      enis acc !! id = acc !! id.
Proof.
  induction enis as [|eni rest IH]; intros acc Hnot; cbn; [done|].
  cbn in Hnot. apply not_elem_of_cons in Hnot as [Hne Hnot].
  rewrite IH by done. by rewrite lookup_insert_ne.
Qed.

Lemma groupsByInterface_dom (enis : list sdk.NetworkInterface) (id : string) :
  ∀ acc : gmap string (list string),
    is_Some (fold_left
      (fun out eni =>
         <[sdk.StringValue (sdk.NetworkInterfaceId eni) :=
             map (fun group => sdk.StringValue (sdk.GroupId group)) (sdk.Groups eni)]> out)
      enis acc !! id)
    ↔ is_Some (acc !! id)
      ∨ id ∈ map (fun eni => sdk.StringValue (sdk.NetworkInterfaceId eni)) enis.
Proof.
  induction enis as [|eni rest IH]; intros acc; cbn.
  - split; [by left|]. intros [?|?%elem_of_nil]; done.
  - rewrite IH, elem_of_cons.
    destruct (decide (sdk.StringValue (sdk.NetworkInterfaceId eni) = id)) as [<-|Hne].
    + rewrite lookup_insert_eq. split; [intros _; right; by left|intros _; left; eauto].
    + rewrite lookup_insert_ne by done. split.
      * intros [?|?]; auto.
      * intros [?|[?|?]]; [auto|congruence|auto].
Qed.

(** X4.  [GetInstanceSecurityGroups] issues one call, the listing of the
    interfaces of the instance.  On success the map it returns has an
    entry exactly for the ids of the interfaces listed, and when these
    ids are distinct the entry of an interface is the list of its group
    ids, in the order given.  A failed listing is returned wrapped. *)
Theorem instance_security_groups (instanceID : string) (st : St W) :
  let filters :=
    [sdk.Raw {| sdk.Name := Some "attachment.instance-id";
                sdk.Values := [Some instanceID] |}] in
  let idOf eni := sdk.StringValue (sdk.NetworkInterfaceId eni) in
  calls (snd (GetInstanceSecurityGroups s instanceID st))
    = calls st ++ [sdk.CallDescribeNetworkInterfaces filters] ∧
  match DescribeNetworkInterfaces (EC2Client s) filters (world st) with
  | (inl e, _) =>
      fst (GetInstanceSecurityGroups s instanceID st)
      = Err (Wrap e (Sprintf "failed to get ENIs for instance %q" [AStr instanceID]))
  | (inr enis, _) =>
      ∃ out,
        fst (GetInstanceSecurityGroups s instanceID st) = Ok out ∧
        (∀ id, is_Some (out !! id) ↔ id ∈ map idOf enis) ∧
        (NoDup (map idOf enis) →
           ∀ eni, eni ∈ enis → out !! idOf eni = Some (groupIds (sdk.Groups eni)))
  end.
Proof.
  intros filters idOf.
  unfold GetInstanceSecurityGroups, getInstanceENIs, bind, wrapErr, call, ret.
  fold filters.
  destruct (DescribeNetworkInterfaces _ _ _) as [[e|enis] w1]; cbn; [done|].
  split; [done|]. exists (groupsByInterface enis). split; [done|]. split.
  - intros id. unfold groupsByInterface. rewrite groupsByInterface_dom.
    rewrite lookup_empty. split; [intros [[? [=]]|?]; done|by right].
  - unfold groupsByInterface. generalize (∅ : gmap string (list string)).
    induction enis as [|x rest IH]; intros acc Hnodup eni Hin; cbn.
    + by apply elem_of_nil in Hin.
    + cbn in Hnodup. apply NoDup_cons in Hnodup as [Hx Hrest].
      apply elem_of_cons in Hin as [->|Hin].
      * rewrite groupsByInterface_other by done. by rewrite lookup_insert_eq.
      * by apply IH.
Qed.

End InterfaceGroups.

(** The interface of the fixture carries sg-1 and sg-2: detaching sg-2
    and sg-9 sends sg-1, listing the groups of the instance gives the
    two groups under the id of the interface. *)
Example interface_groups_runs :
  ec2.calls (snd (ec2.DetachSecurityGroupsFromNetworkInterface (fixtures.service "elb")
                    ["sg-2"; "sg-9"] "eni-1" (fixtures.start fixtures.world0)))
  = [spec.describeGroups "eni-1"; spec.modifyGroups "eni-1" ["sg-1"]] ∧
  fst (instances.GetInstanceSecurityGroups (fixtures.service "elb") "i-0001"
         (fixtures.start fixtures.world0))
  = Ok {[ "eni-1" := ["sg-1"; "sg-2"] ]}.
Proof. split; vm_compute; reflexivity. Qed.

(** The listing of the fixture succeeds with one interface. *)
Lemma instance_security_groups_witness :
  ∃ out,
    fst (instances.GetInstanceSecurityGroups (fixtures.service "elb") "i-0001"
           (fixtures.start fixtures.world0)) = Ok out ∧
    out !! "eni-1" = Some ["sg-1"; "sg-2"].
Proof.
  destruct (instance_security_groups (fixtures.service "elb") "i-0001"
              (fixtures.start fixtures.world0)) as [_ H].
  cbn in H. destruct H as (out & Hout & _ & Hentry).
  exists out. split; [exact Hout|].
  apply (Hentry (NoDup_singleton _)
           (fixtures.interfaceOf fixtures.world0 "eni-1")).
  apply list_elem_of_singleton. reflexivity.
Defined.

(** * Core security groups of machine pools *)

(** X5.  For the nodes of a cluster that is not externally managed,
    machines and machine pools resolve the same core security groups:
    [GetCoreSecurityGroups] for role "node" and
    [GetCoreNodeSecurityGroups] agree, result and error alike, whenever
    the two scopes agree on the cluster being EKS-managed. *)
Theorem node_groups_agree (s : ec2.EC2Scope) (scope : ec2.MachineScope)
    (pool : instances.MachinePoolScope) :
  ec2.IsExternallyManaged scope = false →
  ec2.Role scope = "node" →
  ec2.IsEKSManaged scope = instances.MP_IsEKSManaged pool →
  ec2.GetCoreSecurityGroups s scope = instances.GetCoreNodeSecurityGroups s pool.
Proof.
  intros Hext Hrole Heks.
  unfold ec2.GetCoreSecurityGroups, instances.GetCoreNodeSecurityGroups, ec2.coreRoles.
  rewrite Hext, Hrole, <- Heks. cbn.
  by destruct (ec2.IsEKSManaged scope).
Qed.

Lemma node_groups_agree_witness :
  ec2.GetCoreSecurityGroups (fixtures.clusterScope "elb")
    (fixtures.machine "node" false fixtures.machineSpec)
  = instances.GetCoreNodeSecurityGroups (fixtures.clusterScope "elb")
      {| instances.MP_IsEKSManaged := false |}.
Proof.
  exact (node_groups_agree (fixtures.clusterScope "elb")
           (fixtures.machine "node" false fixtures.machineSpec)
           {| instances.MP_IsEKSManaged := false |} eq_refl eq_refl eq_refl).
Defined.

(** * The instance-create request *)

Section RunInstance.

Import infrav1 ec2 spec tracing instances.
Context {W : Type} (s : Service W).

(** A continuation needs to behave only on the values the first part can
    return. *)
Lemma emits_bind_val {A B} (P : sdk.Call → Prop) (Q : A → Prop)
    (m : M W A) (k : A → M W B) :
  (∀ st a st', m st = (Ok a, st') → Q a) →
  emits P m → (∀ a, Q a → emits P (k a)) → emits P (bind m k).
Proof.
  intros HQ Hm Hk st. unfold bind.
  destruct (Hm st) as (l1 & Hl1 & HP1).
  destruct (m st) as [[a|e|] st1] eqn:Hrun; cbn in *; [|by exists l1..].
  destruct (Hk a (HQ _ _ _ Hrun) st1) as (l2 & Hl2 & HP2).
  exists (l1 ++ l2). split.
  - by rewrite Hl2, Hl1, app_assoc.
  - by apply Forall_app.
Qed.

Lemma notRunInstances_requests (P : sdk.RunInstancesInput → Prop) (c : sdk.Call) :
  notRunInstances c → requests P c.
Proof. intros Hc input ->. discriminate Hc. Qed.

(** Every instance-create request of [runInstance] is the request
    assembled from the instance description and the block devices. *)
Lemma emits_runInstance_input (role : string) (i : Instance) :
  emits (requests (λ input,
           ∃ rootMappings mappings,
             rootMappingsOf i rootMappings ∧
             nonRootMappings (NonRootVolumes i) rootMappings = Ok mappings ∧
             input = runInstancesInput i mappings))
        (runInstance s role i).
Proof.
  unfold runInstance.
  destruct (UserData i); [|apply emits_panic].
  apply (emits_bind_val _ (rootMappingsOf i)).
  { intros st a st'. unfold rootMappingsOf.
    destruct (RootVolume i) as [rootVolume|]; [|by intros [= <- _]].
    unfold bind, ret.
    destruct (checkRootVolume s rootVolume (ImageID i) st) as [[name|e|] st1];
      [|discriminate..].
    intros [= <- _]. by exists name. }
  { destruct (RootVolume i); [|apply emits_ret].
    apply emits_bind; [|intros ?; apply emits_ret].
    eapply emits_weaken; [apply notRunInstances_requests|].
    apply emits_checkRootVolume. }
  intros rootMappings Hroot.
  apply (emits_bind_val _ (λ mappings,
           nonRootMappings (NonRootVolumes i) rootMappings = Ok mappings)).
  { intros st a st'. unfold lift. by intros [= -> _]. }
  { apply emits_lift. }
  intros mappings Hmappings. apply emits_bind.
  { apply emits_wrapErr, emits_call. intros input [= <-]. eauto. }
  intros out. destruct out as [|instance ?]; [apply emits_fail|].
  destruct (sdk.InstanceId instance); [|apply emits_panic].
  apply emits_bind; [|intros ?; apply emits_lift].
  apply emits_try, emits_call. intros input [=].
Qed.

Lemma ebsDeviceOf_wellFormed (name : option string) (volume : Volume) :
  wellFormedDevice {| sdk.DeviceName := name; sdk.Ebs := Some (ebsDeviceOf volume) |}.
Proof.
  exists (ebsDeviceOf volume). unfold ebsDeviceOf. cbn.
  split; [done|]. split; [done|]. split; [eauto|].
  case_bool_decide; [done|]. by intros [? [=]].
Qed.

Lemma nonRootMappings_wellFormed (volumes : list Volume) :
  ∀ acc mappings,
    nonRootMappings volumes acc = Ok mappings →
    Forall wellFormedDevice acc →
    Forall wellFormedDevice mappings ∧
    map sdk.DeviceName mappings
      = map sdk.DeviceName acc ++ map (λ v, Some (Vol_DeviceName v)) volumes ∧
    Forall (λ v, Vol_DeviceName v ≠ "") volumes.
Proof.
  induction volumes as [|v volumes IH]; intros acc mappings; cbn.
  - intros [= <-] Hacc. by rewrite app_nil_r.
  - case_bool_decide as Hname; [discriminate|].
    intros Hrun Hacc. apply IH in Hrun as (Hwf & Hnames & Hall).
    + split; [done|]. split; [|by constructor].
      rewrite Hnames, map_app. cbn. by rewrite <- app_assoc.
    + apply Forall_app. split; [done|].
      constructor; [apply ebsDeviceOf_wellFormed|constructor].
Qed.

Lemma nonRootMappings_unnamed (volumes : list Volume) :
  ∀ acc,
    Exists (λ v, Vol_DeviceName v = "") volumes →
    ∃ e, nonRootMappings volumes acc = Err e.
Proof.
  induction volumes as [|v volumes IH]; intros acc Hex; cbn.
  - by apply Exists_nil in Hex.
  - case_bool_decide as Hname; [eauto|].
    apply Exists_cons in Hex as [?|Hex]; [done|]. by apply IH.
Qed.

(** X6.  A non-root volume without a device name makes [runInstance]
    fail whatever the provider answers: it returns no instance and
    issues no instance-create call. *)
Theorem unnamed_volume_rejected (role : string) (i : Instance) (st : St W) :
  Exists (λ v, Vol_DeviceName v = "") (NonRootVolumes i) →
  (∀ instance, fst (runInstance s role i st) ≠ Ok instance) ∧
  ∃ l, calls (snd (runInstance s role i st)) = calls st ++ l ∧
       Forall notRunInstances l.
Proof.
  intros Hex. split.
  - unfold runInstance. destruct (UserData i); [|done].
    unfold bind at 1.
    match goal with |- context [match ?A st with _ => _ end] =>
      destruct (A st) as [[rootMappings|e|] st1]; [|done..]
    end.
    destruct (nonRootMappings_unnamed _ rootMappings Hex) as [e He].
    unfold bind, lift. by rewrite He.
  - destruct (emits_runInstance_input role i st) as (l & Hl & HP).
    exists l. split; [exact Hl|].
    eapply Forall_impl; [exact HP|].
    intros c Hc. destruct c; try reflexivity.
    destruct (Hc _ eq_refl) as (rootMappings & mappings & _ & Hok & _).
    destruct (nonRootMappings_unnamed _ rootMappings Hex) as [e He]. congruence.
Qed.

(** X7.  Every instance-create request issued by [runInstance] lists the
    block devices in order - the root device first when a root volume is
    given, then one device per non-root volume under the device name of
    the volume.  Each device is deleted with the instance, carries a
    size, and is marked encrypted whenever it names a KMS key. *)
Theorem block_devices_of_request (role : string) (i : Instance) (st : St W) :
  ∃ l,
    calls (snd (runInstance s role i st)) = calls st ++ l ∧
    ∀ input, sdk.CallRunInstances input ∈ l →
      Forall wellFormedDevice (sdk.In_BlockDeviceMappings input) ∧
      ∃ rootMappings,
        rootMappingsOf i rootMappings ∧
        map sdk.DeviceName (sdk.In_BlockDeviceMappings input)
        = map sdk.DeviceName rootMappings
          ++ map (λ v, Some (Vol_DeviceName v)) (NonRootVolumes i).
Proof.
  destruct (emits_runInstance_input role i st) as (l & Hl & HP).
  exists l. split; [exact Hl|].
  intros input Hin. rewrite Forall_forall in HP.
  destruct (HP _ Hin input eq_refl) as (rootMappings & mappings & Hroot & Hok & ->).
  apply nonRootMappings_wellFormed in Hok as (Hwf & Hnames & _).
  - split; [exact Hwf|]. exists rootMappings. split; [exact Hroot|exact Hnames].
  - unfold rootMappingsOf in Hroot. destruct (RootVolume i) as [rootVolume|].
    + destruct Hroot as [name ->]. constructor; [apply ebsDeviceOf_wellFormed|constructor].
    + subst rootMappings. constructor.
Qed.

(** X8.  In every instance-create request issued by [runInstance],
    network interfaces on one side and subnet and security groups on the
    other exclude each other.  Without network interfaces in the
    instance description the request names the subnet and the security
    groups and no interface.  With network interfaces it names neither
    subnet nor security groups, and lists the interfaces in order, the
    k-th with device index k. *)
Theorem interfaces_exclude_subnet (role : string) (i : Instance) (st : St W) :
  ∃ l,
    calls (snd (runInstance s role i st)) = calls st ++ l ∧
    ∀ input, sdk.CallRunInstances input ∈ l →
      (NetworkInterfaces i = [] →
         sdk.In_NetworkInterfaces input = [] ∧
         sdk.In_SubnetId input = Some (SubnetID i) ∧
         sdk.In_SecurityGroupIds input = map Some (SecurityGroupIDs i)) ∧
      (NetworkInterfaces i ≠ [] →
         sdk.In_SubnetId input = None ∧
         sdk.In_SecurityGroupIds input = [] ∧
         length (sdk.In_NetworkInterfaces input) = length (NetworkInterfaces i) ∧
         ∀ (k : nat) (id : string),
           NetworkInterfaces i !! k = Some id →
           sdk.In_NetworkInterfaces input !! k
           = Some {| sdk.Spec_NetworkInterfaceId := Some id;
                     sdk.DeviceIndex := Some (Z.of_nat k) |}).
Proof.
  destruct (emits_runInstance_input role i st) as (l & Hl & HP).
  exists l. split; [exact Hl|].
  intros input Hin. rewrite Forall_forall in HP.
  destruct (HP _ Hin input eq_refl) as (rootMappings & mappings & _ & _ & ->).
  unfold runInstancesInput. cbn. split.
  - intros Hnone. rewrite Hnone. by cbn.
  - intros Hsome.
    rewrite bool_decide_eq_true_2
      by (destruct (NetworkInterfaces i); [done|cbn; lia]).
    split; [done|]. split; [done|]. split; [apply length_imap|].
    intros k id Hk. by rewrite list_lookup_imap, Hk.
Qed.

(** X9.  The wait for the running state is not fatal: what [runInstance]
    returns and which calls it issues do not depend on what the waiter
    answers. *)
Theorem wait_is_not_fatal (role : string) (i : Instance) (st : St W)
    (waiter : list (option string) → W → Response unit * W) :
  let s' := withClient s (withWaiter (EC2Client s) waiter) in
  fst (runInstance s' role i st) = fst (runInstance s role i st) ∧
  calls (snd (runInstance s' role i st)) = calls (snd (runInstance s role i st)).
Proof.
  intros s'.
  assert (Hbind : ∀ {A B} (m : M W A) (k1 k2 : A → M W B) st0,
            (∀ a st1, fst (k1 a st1) = fst (k2 a st1) ∧
                      calls (snd (k1 a st1)) = calls (snd (k2 a st1))) →
            fst (bind m k1 st0) = fst (bind m k2 st0) ∧
            calls (snd (bind m k1 st0)) = calls (snd (bind m k2 st0))).
  { intros A B m k1 k2 st0 Hk. unfold bind.
    destruct (m st0) as [[a|e|] st1]; [apply Hk|done..]. }
  unfold runInstance. destruct (UserData i); [|done].
  apply Hbind. intros rootMappings st1.
  apply Hbind. intros mappings st2.
  apply Hbind. intros out st3.
  destruct out as [|instance ?]; [done|].
  destruct (sdk.InstanceId instance); [|done].
  unfold bind, try, call, lift. cbn.
  destruct (waiter _ _) as [[e1|u1] w1];
    destruct (WaitUntilInstanceRunningWithContext _ _ _) as [[e2|u2] w2]; done.
Qed.

End RunInstance.

(** A machine with two provided interfaces: the request names them with
    device indexes 0 and 1 and no subnet. *)
Lemma interfaces_exclude_subnet_witness :
  let i := {|
    infrav1.ID := ""; infrav1.State := infrav1.StateOf ""; infrav1.Type_ := "t3.large";
    infrav1.SubnetID := "subnet-1"; infrav1.ImageID := "ami-1";
    infrav1.SSHKeyName := None; infrav1.SecurityGroupIDs := ["sg-node"];
    infrav1.UserData := Some "dXNlci1kYXRh"; infrav1.IAMProfile := "";
    infrav1.Addresses := []; infrav1.PrivateIP := None; infrav1.PublicIP := None;
    infrav1.ENASupport := None; infrav1.EBSOptimized := None;
    infrav1.RootVolume := None;
    infrav1.NonRootVolumes := []; infrav1.NetworkInterfaces := ["eni-1"; "eni-2"];
    infrav1.Tags := ∅; infrav1.AvailabilityZone := "";
    infrav1.Inst_SpotMarketOptions := None; infrav1.Tenancy := "";
    infrav1.VolumeIDs := [] |} in
  ∃ input,
    sdk.CallRunInstances input
    ∈ ec2.calls (snd (ec2.runInstance (fixtures.service "elb") "node" i
                        (fixtures.start fixtures.world0))) ∧
    sdk.In_SubnetId input = None ∧
    sdk.In_NetworkInterfaces input !! 1%nat
    = Some {| sdk.Spec_NetworkInterfaceId := Some "eni-2"; sdk.DeviceIndex := Some 1 |}.
Proof.
  intros i.
  destruct (interfaces_exclude_subnet (fixtures.service "elb") "node" i
              (fixtures.start fixtures.world0)) as (l & Hl & Hreq).
  eexists. split; [vm_compute; left|].
  match goal with |- sdk.In_SubnetId ?input = _ ∧ _ =>
    assert (Hin : sdk.CallRunInstances input ∈ l)
  end.
  { cbn in Hl. rewrite <- Hl. vm_compute. left. }
  destruct (Hreq _ Hin) as [_ Hsome].
  destruct Hsome as (Hsubnet & _ & _ & Hk); [discriminate|].
  split; [exact Hsubnet|]. apply (Hk 1%nat "eni-2"). reflexivity.
Defined.

(** A volume without a device name: no instance, no create call. *)
Lemma unnamed_volume_rejected_witness :
  let i := {|
    infrav1.ID := ""; infrav1.State := infrav1.StateOf ""; infrav1.Type_ := "t3.large";
    infrav1.SubnetID := "subnet-1"; infrav1.ImageID := "ami-1";
    infrav1.SSHKeyName := None; infrav1.SecurityGroupIDs := ["sg-node"];
    infrav1.UserData := Some "dXNlci1kYXRh"; infrav1.IAMProfile := "";
    infrav1.Addresses := []; infrav1.PrivateIP := None; infrav1.PublicIP := None;
    infrav1.ENASupport := None; infrav1.EBSOptimized := None;
    infrav1.RootVolume := None;
    infrav1.NonRootVolumes :=
      [{| infrav1.Vol_DeviceName := ""; infrav1.Vol_Size := 8; infrav1.Vol_Type := "";
          infrav1.Vol_IOPS := 0; infrav1.Vol_Encrypted := false;
          infrav1.Vol_EncryptionKey := "" |}];
    infrav1.NetworkInterfaces := [];
    infrav1.Tags := ∅; infrav1.AvailabilityZone := "";
    infrav1.Inst_SpotMarketOptions := None; infrav1.Tenancy := "";
    infrav1.VolumeIDs := [] |} in
  ec2.calls (snd (ec2.runInstance (fixtures.service "elb") "node" i
                    (fixtures.start fixtures.world0))) = [].
Proof.
  intros i.
  destruct (unnamed_volume_rejected (fixtures.service "elb") "node" i
              (fixtures.start fixtures.world0)) as (_ & l & Hl & _).
  { left. reflexivity. }
  vm_compute. reflexivity.
Defined.

(** * Instance creation: calls and scope *)

Section CreateInstanceCalls.

Import infrav1 ec2 spec tracing.
Context {W : Type} (s : Service W).

Ltac follow :=
  first
    [ apply emits_ret | apply emits_fail | apply emits_panic | apply emits_lift
    | apply emits_setFailure | apply emits_wrapErr | apply emits_try
    | apply emits_call; first [ reflexivity | by split ]
    | apply emits_bind; [|intros ?]
    | case_match ].

Lemma plain_findSubnet scope : emits plain (findSubnet s scope).
Proof. unfold findSubnet, getFilteredSubnets. repeat follow. Qed.

Lemma plain_attach groups interfaceID :
  emits plain (attachSecurityGroupsToNetworkInterface s groups interfaceID).
Proof.
  unfold attachSecurityGroupsToNetworkInterface, getNetworkInterfaceSecurityGroups.
  repeat follow.
Qed.

Lemma plain_attachToProvided groups interfaces :
  emits plain (attachToProvided s groups interfaces).
Proof.
  induction interfaces as [|id rest IH]; cbn [attachToProvided].
  - apply emits_ret.
  - apply emits_bind; [apply plain_attach|intros _; exact IH].
Qed.

Lemma plain_checkRootVolume rootVolume imageID :
  emits plain (checkRootVolume s rootVolume imageID).
Proof.
  unfold checkRootVolume, getImageRootDevice, getImageSnapshotSize. repeat follow.
Qed.

Lemma emits_and {A} (P Q : sdk.Call → Prop) (m : M W A) :
  emits P m → emits Q m → emits (λ c, P c ∧ Q c) m.
Proof.
  intros HP HQ st. destruct (HP st) as (l & Hl & Hall).
  destruct (HQ st) as (l' & Hl' & Hall').
  rewrite Hl in Hl'. apply app_inv_head in Hl'. subst l'.
  exists l. split; [done|]. apply Forall_and. by split.
Qed.

Lemma noLookup_runInstance role i :
  emits (λ c, isImageLookup c = false) (runInstance s role i).
Proof.
  unfold runInstance.
  destruct (UserData i); [|apply emits_panic].
  apply emits_bind.
  { destruct (RootVolume i); [|apply emits_ret].
    apply emits_bind; [|intros ?; apply emits_ret].
    eapply emits_weaken; [|apply plain_checkRootVolume]. by intros c [_ ?]. }
  intros ?. apply emits_bind; [apply emits_lift|].
  intros ?. apply emits_bind; [by apply emits_wrapErr, emits_call|].
  intros out. destruct out as [|instance ?]; [apply emits_fail|].
  destruct (sdk.InstanceId instance); [|apply emits_panic].
  apply emits_bind; [|intros ?; apply emits_lift].
  by apply emits_try, emits_call.
Qed.

(** X10.  An explicit image id wins: with [spec.ami.id] set,
    [CreateInstance] resolves the image without any call - also when the
    machine has no version -, issues no image lookup at all, and every
    instance-create request it issues names that image. *)
Theorem explicit_image_wins (scope : MachineScope) (id : string)
    (userData : list Byte.byte) (st : St W) :
  AMI_ID (AMI (AWSMachine scope)) = Some id →
  resolveImageID s scope st = (Ok id, st) ∧
  ∃ l,
    calls (snd (CreateInstance s scope userData st)) = calls st ++ l ∧
    Forall (λ c, isImageLookup c = false) l ∧
    ∀ input, sdk.CallRunInstances input ∈ l → sdk.In_ImageId input = Some id.
Proof.
  intros Hid.
  assert (Hresolve : ∀ st0, resolveImageID s scope st0 = (Ok id, st0)).
  { intros st0. unfold resolveImageID. by rewrite Hid. }
  split; [apply Hresolve|].
  enough (Hemits : emits (λ c, isImageLookup c = false
                               ∧ requests (λ input, sdk.In_ImageId input = Some id) c)
                         (CreateInstance s scope userData)).
  { destruct (Hemits st) as (l & Hl & HP). exists l. split; [exact Hl|].
    apply Forall_and in HP as [Hlookup Hreq]. split; [exact Hlookup|].
    intros input Hin. rewrite Forall_forall in Hreq. exact (Hreq _ Hin input eq_refl). }
  unfold CreateInstance.
  apply (emits_bind_val _ (λ imageID, imageID = id)).
  { intros st0 a st'. rewrite Hresolve. by intros [= -> _]. }
  { intros st0. exists []. rewrite Hresolve. cbn. by rewrite app_nil_r. }
  intros imageID ->. apply emits_bind.
  { eapply emits_weaken; [|apply plain_findSubnet].
    intros c [Hrun Hlookup]. split; [done|]. by apply notRunInstances_requests. }
  intros subnetID.
  destruct (negb _ && negb _ && bool_decide _); [apply emits_fail|].
  apply emits_bind.
  { repeat case_match; first [apply emits_fail | apply emits_ret]. }
  intros userData'. apply emits_bind; [apply emits_lift|].
  intros ids. apply emits_bind.
  { apply emits_and; [apply noLookup_runInstance|].
    eapply emits_weaken; [|apply emits_runInstance_input].
    intros c Hc input Heq. by destruct (Hc input Heq) as (? & ? & _ & _ & ->). }
  intros out. apply emits_bind; [|intros ?; apply emits_ret].
  destruct (bool_decide _); [|apply emits_ret].
  eapply emits_weaken; [|apply plain_attachToProvided].
  intros c [Hrun Hlookup]. split; [done|]. by apply notRunInstances_requests.
Qed.

Lemma creates_quiet (l : list sdk.Call) : Forall notRunInstances l → creates l = 0%nat.
Proof.
  unfold creates. induction 1 as [|c l Hc _ IH]; cbn; [done|]. by rewrite Hc.
Qed.

Lemma createsExactly_quiet {A} (m : M W A) : emits notRunInstances m → createsExactly 0 m.
Proof.
  intros Hm st. destruct (Hm st) as (l & Hl & HP). exists l. split; [done|].
  rewrite (creates_quiet l HP). split; [lia|done].
Qed.

(** A computation that issues no create call and returns no value fits
    any count. *)
Lemma createsExactly_stop {A} (n : nat) (m : M W A) :
  emits notRunInstances m → (∀ st a, fst (m st) ≠ Ok a) → createsExactly n m.
Proof.
  intros Hm Hstop st. destruct (Hm st) as (l & Hl & HP). exists l. split; [done|].
  rewrite (creates_quiet l HP). split; [lia|]. intros a Ha. by destruct (Hstop st a).
Qed.

Lemma creates_app (l1 l2 : list sdk.Call) : creates (l1 ++ l2) = (creates l1 + creates l2)%nat.
Proof. unfold creates. by rewrite List.filter_app, length_app. Qed.

Lemma createsExactly_bind {A B} (a b : nat) (m : M W A) (k : A → M W B) :
  createsExactly a m → (∀ x, createsExactly b (k x)) → createsExactly (a + b) (bind m k).
Proof.
  intros Hm Hk st. unfold bind.
  destruct (Hm st) as (l1 & Hl1 & Hle1 & Heq1).
  destruct (m st) as [[x|e|] st1]; cbn in *.
  - destruct (Hk x st1) as (l2 & Hl2 & Hle2 & Heq2).
    exists (l1 ++ l2). rewrite Hl2, Hl1, app_assoc, creates_app.
    split; [done|]. split; [lia|].
    intros y Hy. rewrite (Heq1 x eq_refl), (Heq2 y Hy). done.
  - exists l1. split; [done|]. split; [lia|done].
  - exists l1. split; [done|]. split; [lia|done].
Qed.

Lemma createsExactly_runInstance role i : createsExactly 1 (runInstance s role i).
Proof.
  unfold runInstance.
  destruct (UserData i); [|by apply createsExactly_stop; [apply emits_panic|]].
  apply (createsExactly_bind 0 1).
  { apply createsExactly_quiet.
    destruct (RootVolume i); [|apply emits_ret].
    apply emits_bind; [|intros ?; apply emits_ret]. apply emits_checkRootVolume. }
  intros rootMappings. apply (createsExactly_bind 0 1).
  { apply createsExactly_quiet, emits_lift. }
  intros mappings. apply (createsExactly_bind 1 0).
  { intros st. unfold wrapErr, call.
    destruct (RunInstances _ _ _) as [[e|out] w']; cbn;
      (eexists [_]; split; [reflexivity|]; split; [cbn; lia|done]). }
  intros out. apply createsExactly_quiet.
  destruct out as [|instance ?]; [apply emits_fail|].
  destruct (sdk.InstanceId instance); [|apply emits_panic].
  apply emits_bind; [|intros ?; apply emits_lift].
  by apply emits_try, emits_call.
Qed.

(** X11.  [CreateInstance] never creates twice: whatever the provider
    answers it issues at most one instance-create call, and it returns
    an instance only after issuing exactly one. *)
Theorem creates_at_most_once (scope : MachineScope) (userData : list Byte.byte)
    (st : St W) :
  ∃ l,
    calls (snd (CreateInstance s scope userData st)) = calls st ++ l ∧
    (creates l ≤ 1)%nat ∧
    (∀ instance, fst (CreateInstance s scope userData st) = Ok instance → creates l = 1%nat).
Proof.
  enough (H : createsExactly 1 (CreateInstance s scope userData)) by apply H.
  unfold CreateInstance.
  apply (createsExactly_bind 0 1); [apply createsExactly_quiet, emits_resolveImageID|].
  intros imageID.
  apply (createsExactly_bind 0 1); [apply createsExactly_quiet, emits_findSubnet|].
  intros subnetID.
  destruct (negb _ && negb _ && bool_decide _);
    [by apply createsExactly_stop; [apply emits_fail|]|].
  apply (createsExactly_bind 0 1).
  { apply createsExactly_quiet.
    repeat case_match; first [apply emits_fail | apply emits_ret]. }
  intros userData'. apply (createsExactly_bind 0 1).
  { apply createsExactly_quiet, emits_lift. }
  intros ids. apply (createsExactly_bind 1 0); [apply createsExactly_runInstance|].
  intros out. apply (createsExactly_bind 0 0).
  { apply createsExactly_quiet.
    destruct (bool_decide _); [apply emits_attachToProvided|apply emits_ret]. }
  intros ?. apply createsExactly_quiet, emits_ret.
Qed.

Lemma keepsFailure_bind {A B} (m : M W A) (k : A → M W B) :
  keepsFailure m → (∀ a, keepsFailure (k a)) → keepsFailure (bind m k).
Proof.
  intros Hm Hk st. unfold bind. specialize (Hm st).
  destruct (m st) as [[a|e|] st1]; cbn in *; [|done..].
  by rewrite Hk.
Qed.

Lemma keepsFailure_call {A} (c : sdk.Call) (f : W → Response A * W) :
  keepsFailure (call c f).
Proof. intros st. unfold call. by destruct (f (world st)) as [[e|a] w']. Qed.

Lemma keepsFailure_wrapErr {A} (m : M W A) (msg : Msg) :
  keepsFailure m → keepsFailure (wrapErr m msg).
Proof.
  intros Hm st. unfold wrapErr. specialize (Hm st).
  by destruct (m st) as [[a|e|] st1].
Qed.

Lemma keepsFailure_try {A} (m : M W A) : keepsFailure m → keepsFailure (try m).
Proof.
  intros Hm st. unfold try. specialize (Hm st).
  by destruct (m st) as [[a|e|] st1].
Qed.

Lemma keepsFailure_pure {A} (o : outcome A) : keepsFailure (lift o : M W A).
Proof. done. Qed.

Ltac frame :=
  first
    [ apply (keepsFailure_pure (Ok _)) | apply (keepsFailure_pure (Err _))
    | apply (keepsFailure_pure Panic) | apply keepsFailure_pure
    | apply keepsFailure_wrapErr | apply keepsFailure_try | apply keepsFailure_call
    | apply keepsFailure_bind; [|intros ?]
    | case_match ].

Lemma keepsFailure_findSubnet scope : keepsFailure (findSubnet s scope).
Proof. unfold findSubnet, getFilteredSubnets. repeat frame. Qed.

Lemma keepsFailure_attachToProvided groups interfaces :
  keepsFailure (attachToProvided s groups interfaces).
Proof.
  induction interfaces as [|id rest IH]; cbn [attachToProvided]; [done|].
  apply keepsFailure_bind; [|intros _; exact IH].
  unfold attachSecurityGroupsToNetworkInterface, getNetworkInterfaceSecurityGroups.
  repeat frame.
Qed.

Lemma keepsFailure_runInstance role i : keepsFailure (runInstance s role i).
Proof.
  unfold runInstance, checkRootVolume, getImageRootDevice, getImageSnapshotSize.
  repeat frame.
Qed.

(** X12.  [CreateInstance] sets the failure reason and message of the
    machine scope in one case only: neither [spec.ami.id] nor a machine
    version is given.  It then fails with that message as its error,
    without any call.  In every other run the failure reason and
    message of the scope are left as they were. *)
Theorem failure_reason_only_without_image (scope : MachineScope)
    (userData : list Byte.byte) (st : St W) :
  let err :=
    New (Sprintf
      "Either AWSMachine's spec.ami.id or Machine's spec.version must be defined" []) in
  match AMI_ID (AMI (AWSMachine scope)), Version (Machine scope) with
  | None, None =>
      CreateInstance s scope userData st
      = (Err err, {| world := world st; calls := calls st;
                     failure := Some (CreateMachineError, err) |})
  | _, _ => failure (snd (CreateInstance s scope userData st)) = failure st
  end.
Proof.
  intros err.
  destruct (AMI_ID (AMI (AWSMachine scope))) as [id|] eqn:Hid;
    [|destruct (Version (Machine scope)) as [version|] eqn:Hversion].
  3:{ unfold CreateInstance, resolveImageID. rewrite Hid, Hversion. reflexivity. }
  all: enough (Hkeeps : keepsFailure (CreateInstance s scope userData)) by apply Hkeeps.
  all: unfold CreateInstance; apply keepsFailure_bind;
    [unfold resolveImageID; rewrite Hid, ?Hversion;
     first [done | destruct (_ && _ && _ && _); apply keepsFailure_call]|].
  all: intros imageID; apply keepsFailure_bind; [apply keepsFailure_findSubnet|].
  all: intros subnetID; destruct (negb _ && negb _ && bool_decide _); [done|].
  all: apply keepsFailure_bind; [repeat frame|].
  all: intros userData'; apply keepsFailure_bind; [apply keepsFailure_pure|].
  all: intros ids; apply keepsFailure_bind; [apply keepsFailure_runInstance|].
  all: intros out; apply keepsFailure_bind; [|done].
  all: destruct (bool_decide _); [apply keepsFailure_attachToProvided|done].
Qed.

End CreateInstanceCalls.

(** The image is given by id: one create call, for that image. *)
Lemma explicit_image_wins_witness :
  ∃ input,
    ec2.calls (snd (ec2.CreateInstance (fixtures.service "elb.example")
                      (fixtures.machine "node" false fixtures.machineSpec) []
                      (fixtures.start fixtures.world0)))
    = [sdk.CallRunInstances input; sdk.CallWaitUntilInstanceRunning [Some "i-0001"]] ∧
    sdk.In_ImageId input = Some "ami-1".
Proof.
  destruct (explicit_image_wins (fixtures.service "elb.example")
              (fixtures.machine "node" false fixtures.machineSpec) "ami-1" []
              (fixtures.start fixtures.world0) eq_refl) as (_ & l & Hl & _ & Himage).
  eexists. split; [vm_compute; reflexivity|].
  apply Himage.
  change (ec2.calls (fixtures.start fixtures.world0) ++ l) with l in Hl.
  rewrite <- Hl. vm_compute. left.
Defined.

(** * Subnet resolution without an explicit subnet id *)

Section FindSubnetRest.

Import infrav1 ec2 spec.
Context {W : Type} (s : Service W).

(** The first element of a filtered list comes from the list, passes the
    filter, and nothing before it does. *)
Lemma filter_head {A} (f : A → bool) (l : list A) (x : A) (rest : list A) :
  List.filter f l = x :: rest →
  f x = true ∧
  ∃ before after, l = before ++ x :: after ∧ Forall (λ y, f y = false) before.
Proof.
  induction l as [|y l IH]; cbn; [discriminate|].
  destruct (f y) eqn:Hy.
  - intros [= -> _]. split; [done|]. by exists [], l.
  - intros Hl. apply IH in Hl as (Hx & before & after & -> & Hbefore).
    split; [done|]. exists (y :: before), after. split; [done|]. by constructor.
Qed.

Lemma filter_empty {A} (f : A → bool) (l : list A) :
  List.filter f l = [] → Forall (λ y, f y = false) l.
Proof.
  induction l as [|y l IH]; cbn; [constructor|].
  destruct (f y) eqn:Hy; [discriminate|]. intros Hl. constructor; auto.
Qed.

(** X13.  Without an explicit subnet id and without subnet filters,
    [findSubnet] issues no call and picks from the observed subnets the
    first private one - the first private one of the failure domain when
    a failure domain is given: no subnet before the chosen one
    qualifies.  When no observed subnet qualifies the result is a
    FailedDependency error. *)
Theorem findSubnet_first_private (scope : MachineScope) (st : St W) :
  (Subnet (AWSMachine scope) = None ∨
   ∃ ref, Subnet (AWSMachine scope) = Some ref ∧
          Ref_ID ref = None ∧ Ref_Filters ref = None) →
  let qualifies sn :=
    negb (Subnet_IsPublic sn)
    && match failureDomainOf scope with
       | Some fd => bool_decide (Subnet_AvailabilityZone sn = fd)
       | None => true
       end in
  snd (findSubnet s scope st) = st ∧
  ((∃ chosen before after,
      Scope_Subnets (s_scope s) = before ++ chosen :: after ∧
      qualifies chosen = true ∧
      Forall (λ sn, qualifies sn = false) before ∧
      fst (findSubnet s scope st) = Ok (Subnet_ID chosen))
   ∨
   (Forall (λ sn, qualifies sn = false) (Scope_Subnets (s_scope s)) ∧
    ∃ m, fst (findSubnet s scope st) = Err (NewFailedDependency m))).
Proof.
  intros Href qualifies.
  assert (Hrun : findSubnet s scope st =
            match List.filter qualifies (Scope_Subnets (s_scope s)) with
            | [] =>
                (Err (NewFailedDependency
                   match failureDomainOf scope with
                   | Some fd =>
                       Sprintf "failed to run machine %q, no subnets available in availability zone %q"
                         [AStr (MS_Name scope); AStr fd]
                   | None =>
                       Sprintf "failed to run machine %q, no subnets available"
                         [AStr (MS_Name scope)]
                   end), st)
            | sn :: _ => (Ok (Subnet_ID sn), st)
            end).
  { assert (Hfilter : List.filter qualifies (Scope_Subnets (s_scope s)) =
              match failureDomainOf scope with
              | Some fd => FilterByZone (FilterPrivate (Scope_Subnets (s_scope s))) fd
              | None => FilterPrivate (Scope_Subnets (s_scope s))
              end).
    { subst qualifies. unfold FilterByZone, FilterPrivate.
      generalize (Scope_Subnets (s_scope s)). intros l.
      destruct (failureDomainOf scope) as [fd|].
      - induction l as [|sn l IH]; cbn; [done|].
        destruct (Subnet_IsPublic sn); cbn; [done|].
        destruct (bool_decide _); cbn; by rewrite IH.
      - induction l as [|sn l IH]; cbn; [done|].
        rewrite andb_true_r. destruct (negb (Subnet_IsPublic sn)); by rewrite IH. }
    rewrite Hfilter. unfold findSubnet.
    destruct Href as [->|(ref & -> & Hid & Hfilters)].
    - cbv zeta. destruct (failureDomainOf scope) as [fd|].
      + by destruct (FilterByZone _ _).
      + by destruct (FilterPrivate _).
    - destruct ref as [rid rarn rfilters]. cbn in Hid, Hfilters. subst rid rfilters.
      cbv zeta. destruct (failureDomainOf scope) as [fd|].
      + by destruct (FilterByZone _ _).
      + by destruct (FilterPrivate _). }
  rewrite Hrun.
  destruct (List.filter qualifies (Scope_Subnets (s_scope s))) as [|sn rest] eqn:Hl.
  - split; [done|]. right. split; [by apply filter_empty|eauto].
  - split; [done|]. left.
    apply filter_head in Hl as (Hsn & before & after & Hsplit & Hbefore).
    by exists sn, before, after.
Qed.

(** X14.  With subnet filters and no explicit subnet id, [findSubnet]
    asks the provider once and does not consult the observed subnets.
    The criteria start with the states pending and available, continue
    with the VPC of the cluster unless the cluster is externally managed
    and with the failure domain if there is one, and end with the
    filters of the machine spec in their order.  A failed call is
    returned wrapped, so that it is a FailedDependency only if the
    provider's error is; no match is a FailedDependency; otherwise the
    id of the first subnet returned is the result. *)
Theorem findSubnet_by_filters (scope : MachineScope) (ref : AWSResourceReference)
    (filters : list Filter) (st : St W) :
  Subnet (AWSMachine scope) = Some ref →
  Ref_ID ref = None →
  Ref_Filters ref = Some filters →
  let criteria :=
    [sdk.EC2_SubnetStates ["pending"; "available"]]
    ++ (if IsExternallyManaged scope then [] else [sdk.EC2_VPC (VPC_ID (s_scope s))])
    ++ match failureDomainOf scope with
       | Some fd => [sdk.EC2_AvailabilityZone fd]
       | None => []
       end
    ++ map (λ f, sdk.Raw {| sdk.Name := Some (Filter_Name f);
                            sdk.Values := map Some (Filter_Values f) |}) filters in
  calls (snd (findSubnet s scope st)) = calls st ++ [sdk.CallDescribeSubnets criteria] ∧
  match fst (DescribeSubnets (EC2Client s) criteria (world st)) with
  | inl e =>
      ∃ e', fst (findSubnet s scope st) = Err e' ∧
            IsFailedDependency e' = IsFailedDependency e
  | inr [] => ∃ m, fst (findSubnet s scope st) = Err (NewFailedDependency m)
  | inr (first :: _) =>
      fst (findSubnet s scope st)
      = match sdk.SubnetId first with Some id => Ok id | None => Panic end
  end.
Proof.
  intros Href Hid Hfilters criteria.
  destruct ref as [rid rarn rfilters]. cbn in Hid, Hfilters. subst rid rfilters.
  unfold findSubnet. rewrite Href.
  assert (Hcriteria :
    (let c := [sdk.EC2_SubnetStates [sdk.SubnetStatePending; sdk.SubnetStateAvailable]] in
     let c := if negb (IsExternallyManaged scope)
              then c ++ [sdk.EC2_VPC (VPC_ID (s_scope s))] else c in
     let c := match failureDomainOf scope with
              | Some fd => c ++ [sdk.EC2_AvailabilityZone fd]
              | None => c
              end in
     c ++ map (λ f, sdk.Raw {| sdk.Name := Some (Filter_Name f);
                               sdk.Values := map Some (Filter_Values f) |}) filters)
    = criteria).
  { subst criteria. cbv zeta.
    destruct (IsExternallyManaged scope), (failureDomainOf scope); reflexivity. }
  cbv zeta in Hcriteria. cbv zeta. rewrite Hcriteria.
  unfold bind, wrapErr, getFilteredSubnets, call.
  destruct (DescribeSubnets _ _ _) as [[e|subnets] w']; cbn.
  - split; [done|]. eexists. split; reflexivity.
  - destruct subnets as [|first rest]; cbn; [split; [done|eauto]|].
    destruct (sdk.SubnetId first); done.
Qed.

End FindSubnetRest.

(** The fixture has two private subnets; a machine asking for
    us-east-1b gets the second one. *)
Lemma findSubnet_first_private_witness :
  let scope :=
    fixtures.machine "node" false
      (fixtures.withSubnet fixtures.machineSpec None (Some "us-east-1b")) in
  fst (ec2.findSubnet (fixtures.service "elb") scope (fixtures.start fixtures.world0))
  = Ok "subnet-2" ∧
  snd (ec2.findSubnet (fixtures.service "elb") scope (fixtures.start fixtures.world0))
  = fixtures.start fixtures.world0.
Proof.
  split; [vm_compute; reflexivity|].
  apply (findSubnet_first_private (fixtures.service "elb")
           (fixtures.machine "node" false
              (fixtures.withSubnet fixtures.machineSpec None (Some "us-east-1b")))
           (fixtures.start fixtures.world0) (or_introl eq_refl)).
Defined.

(** Filters that the provider answers with subnet-1. *)
Lemma findSubnet_by_filters_witness :
  fst (ec2.findSubnet (fixtures.service "elb")
         (fixtures.machine "node" false
            (fixtures.withSubnet fixtures.machineSpec
               (Some {| infrav1.Ref_ID := None; infrav1.Ref_ARN := None;
                        infrav1.Ref_Filters :=
                          Some [{| infrav1.Filter_Name := "tag:Name";
                                   infrav1.Filter_Values := ["private"] |}] |})
               None))
         (fixtures.start fixtures.world0)) = Ok "subnet-1".
Proof.
  destruct (findSubnet_by_filters (fixtures.service "elb")
              (fixtures.machine "node" false
                 (fixtures.withSubnet fixtures.machineSpec
                    (Some {| infrav1.Ref_ID := None; infrav1.Ref_ARN := None;
                             infrav1.Ref_Filters :=
                               Some [{| infrav1.Filter_Name := "tag:Name";
                                        infrav1.Filter_Values := ["private"] |}] |})
                    None))
              _ _ (fixtures.start fixtures.world0) eq_refl eq_refl eq_refl) as [_ H].
  exact H.
Defined.

(** * Tags of the create request *)

Section RequestTags.

Import infrav1 ec2.

#[local] Instance leb_total : Total (λ a b : string, Is_true (String.leb a b)).
Proof.
  intros a b. destruct (String.leb_total a b) as [H|H]; rewrite H; cbn; auto.
Qed.

(** X15.  The create request carries a tag specification exactly when
    the instance has tags.  There is then one specification, of resource
    type instance, whose tags are the instance's tags, each key once,
    the keys in ascending byte order. *)
Theorem request_tags_sorted (i : Instance) (mappings : list sdk.BlockDeviceMapping) :
  match sdk.In_TagSpecifications (runInstancesInput i mappings) with
  | [] => Tags i = ∅
  | [specification] =>
      Tags i ≠ ∅ ∧
      sdk.ResourceType specification = Some "instance" ∧
      (∃ keys,
         map sdk.Key (sdk.TagSpec_Tags specification) = map Some keys ∧
         NoDup keys ∧
         Sorted (λ a b, Is_true (String.leb a b)) keys) ∧
      (∀ k v,
         {| sdk.Key := Some k; sdk.Value := Some v |} ∈ sdk.TagSpec_Tags specification
         ↔ Tags i !! k = Some v)
  | _ => False
  end.
Proof.
  cbn. unfold tagSpecifications. generalize (Tags i). clear. intros tags.
  case_bool_decide as Hsize.
  - set (keys := merge_sort _ _).
    assert (Hperm : keys ≡ₚ map fst (map_to_list tags))
      by apply merge_sort_Permutation.
    assert (Hkeys : ∀ k, k ∈ keys ↔ is_Some (tags !! k)).
    { intros k. rewrite Hperm, list_elem_of_fmap. split.
      - intros ([k' v] & -> & Hin). apply elem_of_map_to_list in Hin. eauto.
      - intros [v Hv]. exists (k, v). split; [done|]. by apply elem_of_map_to_list. }
    cbn. split; [|split; [done|split]].
    + intros ->. rewrite map_size_empty in Hsize. lia.
    + exists keys. split; [|split].
      * rewrite map_map. done.
      * rewrite Hperm. apply NoDup_fst_map_to_list.
      * apply Sorted_merge_sort. apply _.
    + intros k v. rewrite list_elem_of_fmap. split.
      * intros (key & [= -> ->] & Hin). apply Hkeys in Hin as [v Hv].
        by rewrite (lookup_total_correct _ _ _ Hv).
      * intros Hv. exists k. rewrite (lookup_total_correct _ _ _ Hv).
        split; [done|]. apply Hkeys. eauto.
  - apply map_size_empty_iff. lia.
Qed.

End RequestTags.

(** * Conversion of a provider instance *)

Section Conversion.

Import infrav1 ec2.
Context {W : Type} (s : Service W).

Lemma derefAll_present {A} (f : A → option string) (l : list A) :
  Forall (λ x, is_Some (f x)) l →
  ∃ vs, derefAll f l = Ok vs ∧ map Some vs = map f l.
Proof.
  induction 1 as [|x l [v Hv] _ (vs & Hvs & Hmap)]; cbn; [by exists []|].
  rewrite Hv, Hvs. exists (v :: vs). cbn. by rewrite Hmap.
Qed.

Lemma derefAll_absent {A} (f : A → option string) (l : list A) :
  ¬ Forall (λ x, is_Some (f x)) l → derefAll f l = Panic.
Proof.
  induction l as [|x l IH]; cbn; [intros []; constructor|].
  intros Hnot. destruct (f x) as [v|] eqn:Hv.
  - rewrite IH; [done|]. intros Hl. apply Hnot. constructor; [by rewrite Hv|done].
  - by destruct (derefAll f l) eqn:Hl; [| |];
      try (exfalso; clear -Hl; induction l as [|y l IH] in e, Hl |- *; cbn in Hl;
           [done|destruct (f y), (derefAll f l); naive_solver]).
Qed.

Lemma derefAll_no_error {A} (f : A → option string) (l : list A) (e : error) :
  derefAll f l ≠ Err e.
Proof.
  induction l as [|y l IH] in e |- *; cbn; [done|].
  destruct (f y), (derefAll f l) eqn:Hl; try done; by edestruct IH.
Qed.

(** The addresses of an instance: each network interface
    contributes its internal DNS name and its internal IP, and an
    external DNS name and IP only when an address is associated with it.
    So an external address is reported exactly when some interface has
    an association, and there are two addresses per interface plus two
    per association. *)
Lemma addresses_by_interface (v : sdk.Instance) :
  let external a :=
    Addr_Type a = MachineExternalDNS ∨ Addr_Type a = MachineExternalIP in
  ((∃ a, a ∈ getInstanceAddresses v ∧ external a)
   ↔ ∃ eni, eni ∈ sdk.Inst_NetworkInterfaces v ∧ is_Some (sdk.Association eni)) ∧
  length (getInstanceAddresses v)
  = (2 * length (sdk.Inst_NetworkInterfaces v)
     + 2 * length (List.filter (λ eni, bool_decide (is_Some (sdk.Association eni)))
                               (sdk.Inst_NetworkInterfaces v)))%nat.
Proof.
  intros external. unfold getInstanceAddresses.
  generalize (sdk.Inst_NetworkInterfaces v). intros enis. split.
  - split.
    + intros (a & Hin & Hext). apply list_elem_of_In, in_flat_map in Hin
        as (eni & Heni & Ha). exists eni. split; [by apply list_elem_of_In|].
      destruct (sdk.Association eni); [by eexists|].
      cbn in Ha. destruct Ha as [<-|[<-|[]]]; by destruct Hext.
    + intros (eni & Heni & [assoc Hassoc]).
      exists {| Addr_Type := MachineExternalDNS;
                Addr_Address := sdk.StringValue (sdk.PublicDnsName assoc) |}.
      split; [|by left]. apply list_elem_of_In, in_flat_map.
      exists eni. split; [by apply list_elem_of_In|]. rewrite Hassoc. cbn. auto.
  - induction enis as [|eni enis IH]; [done|].
    cbn [flat_map List.filter]. rewrite length_app, IH.
    destruct (sdk.Association eni) as [assoc|]; cbn.
    + lia.
    + lia.
Qed.

(** X16.  [SDKToInstance] succeeds exactly on a complete description:
    the state name, the placement, the id of every security group and
    the volume id of every block device must be present; if one of them
    is missing the conversion dereferences a nil pointer.  On success
    the security group ids and the volume ids are the provider's, in its
    order, the addresses are those of [getInstanceAddresses] - with an
    external address exactly when some network interface has an
    associated address - and the root volume is left unset.  (The tags
    are converted by a function of another package, which is assumed to
    return.) *)
Theorem SDKToInstance_complete (v : sdk.Instance) (tags : gmap string string) :
  (sdk.Inst_Tags v ≠ [] → TagsToMap (deps s) (sdk.Inst_Tags v) = Ok tags) →
  let complete :=
    is_Some (sdk.Inst_State v ≫= sdk.State_Name) ∧
    is_Some (sdk.Inst_Placement v) ∧
    Forall (λ sg, is_Some (sdk.GroupId sg)) (sdk.SecurityGroups v) ∧
    Forall (λ volume, is_Some (sdk.Inst_Ebs volume ≫= sdk.VolumeId))
           (sdk.Inst_BlockDeviceMappings v) in
  (complete →
   ∃ i, SDKToInstance s v = Ok i ∧
        ID i = sdk.StringValue (sdk.InstanceId v) ∧
        map Some (SecurityGroupIDs i) = map sdk.GroupId (sdk.SecurityGroups v) ∧
        map Some (VolumeIDs i)
        = map (λ volume, sdk.Inst_Ebs volume ≫= sdk.VolumeId)
              (sdk.Inst_BlockDeviceMappings v) ∧
        Addresses i = getInstanceAddresses v ∧
        ((∃ a, a ∈ Addresses i ∧
               (Addr_Type a = MachineExternalDNS ∨ Addr_Type a = MachineExternalIP))
         ↔ ∃ eni, eni ∈ sdk.Inst_NetworkInterfaces v ∧ is_Some (sdk.Association eni)) ∧
        RootVolume i = None) ∧
  (¬ complete → SDKToInstance s v = Panic).
Proof.
  intros Htags complete. subst complete. unfold SDKToInstance.
  assert (Hconv : ∃ m, (if bool_decide (0 < length (sdk.Inst_Tags v))%nat
                        then TagsToMap (deps s) (sdk.Inst_Tags v) else Ok ∅) = Ok m).
  { case_bool_decide as Hlen; [|by eexists].
    exists tags. apply Htags. intros Hnil. rewrite Hnil in Hlen. cbn in Hlen. lia. }
  destruct Hconv as [m ->].
  split.
  - intros ([name ->] & [placement ->] & Hgroups & Hvolumes).
    apply derefAll_present in Hgroups as (gs & -> & Hgs).
    apply derefAll_present in Hvolumes as (vs & -> & Hvs).
    eexists. split; [reflexivity|]. cbn.
    repeat (split; [done|]). split; [|done]. apply addresses_by_interface.
  - intros Hnot.
    destruct (sdk.Inst_State v ≫= sdk.State_Name) as [name|] eqn:Hname; [|done].
    destruct (decide (Forall (λ sg, is_Some (sdk.GroupId sg)) (sdk.SecurityGroups v)))
      as [Hgroups|Hgroups]; [|by rewrite (derefAll_absent _ _ Hgroups)].
    pose proof Hgroups as Hgs.
    apply derefAll_present in Hgs as (gs & -> & _).
    destruct (sdk.Inst_Placement v) as [placement|]; [|done].
    destruct (decide (Forall (λ volume, is_Some (sdk.Inst_Ebs volume ≫= sdk.VolumeId))
                             (sdk.Inst_BlockDeviceMappings v)))
      as [Hvolumes|Hvolumes]; [|by rewrite (derefAll_absent _ _ Hvolumes)].
    exfalso. apply Hnot. eauto.
Qed.

End Conversion.

(** A described instance with every required field. *)
Lemma SDKToInstance_complete_witness :
  ∃ i, ec2.SDKToInstance (fixtures.service "elb") (instances.described "i-0001" true)
       = Ok i ∧
       infrav1.SecurityGroupIDs i = ["sg-node"] ∧ infrav1.VolumeIDs i = ["vol-1"].
Proof.
  destruct (SDKToInstance_complete (fixtures.service "elb")
              (instances.described "i-0001" true) ∅) as [Hcomplete _]; [done|].
  destruct Hcomplete as (i & Hi & _ & Hgroups & Hvolumes & _ & _ & _).
  - cbn. repeat split; eauto; repeat constructor; cbn; eauto.
  - exists i. split; [exact Hi|]. cbn in Hgroups, Hvolumes.
    destruct (infrav1.SecurityGroupIDs i) as [|g [|? ?]]; try discriminate.
    destruct (infrav1.VolumeIDs i) as [|vol [|? ?]]; try discriminate.
    by injection Hgroups as ->; injection Hvolumes as ->.
Defined.

(** * Looking instances up, terminating them *)

Section Lookups.

Import infrav1 ec2 instances.
Context {W : Type} (s : Service W) (x : API W).

Lemma found_is_present (inst : sdk.Instance) : found s inst ≠ Ok None.
Proof. unfold found. by destruct (SDKToInstance s inst). Qed.

(** X17.  [InstanceIfExists] issues no call for a nil id.  Otherwise it
    describes exactly that id, once, and reports absence (no instance,
    no error) exactly when the provider answers not-found or the first
    reservation is missing or empty: instances of later reservations are
    not looked at.  Any other provider error is returned with the same
    cause. *)
Theorem lookup_by_id (id : option string) (w : W) :
  match id with
  | None => InstanceIfExists s x id w = (Ok None, w, [])
  | Some instanceID =>
      let input := {| Filters := []; InstanceIds := [Some instanceID] |} in
      let result := InstanceIfExists s x id w in
      result.2 = [CallDescribeInstances input] ∧
      result.1.2 = (DescribeInstances x input w).2 ∧
      match (DescribeInstances x input w).1 with
      | inl e =>
          if IsNotFound x e then result.1.1 = Ok None
          else ∃ e', result.1.1 = Err e' ∧ Cause e' = Cause e
      | inr reservations =>
          result.1.1 = Ok None ↔ head reservations ≫= (head ∘ Instances) = None
      end
  end.
Proof.
  destruct id as [instanceID|]; [|done]. cbv zeta. unfold InstanceIfExists.
  destruct (DescribeInstances x _ w) as [[e|reservations] w']; cbn.
  - split; [done|]. split; [done|].
    destruct (IsNotFound x e); [done|]. eexists. split; reflexivity.
  - split; [done|]. split; [done|].
    destruct reservations as [|res rest]; [done|]. cbn.
    destruct (Instances res) as [|inst others]; [done|]. cbn.
    split; [|done]. intros Hfound. by apply found_is_present in Hfound.
Qed.

(** X18.  [GetRunningInstanceByTags] returns the first instance of the
    first reservation that has one, whatever follows it, and reports
    absence only when every reservation returned is empty. *)
Theorem lookup_by_tags (scope : MachineScope) (w : W)
    (reservations : list Reservation) :
  (DescribeInstances x
     {| Filters :=
          [ EC2_VPC (VPC_ID (s_scope s));
            EC2_ClusterOwned (Scope_Name (s_scope s));
            EC2_Name (MS_Name scope);
            EC2_InstanceStates ["pending"; "running"] ];
        InstanceIds := [] |} w).1 = inr reservations →
  let result := (GetRunningInstanceByTags s x scope w).1.1 in
  (result = Ok None ↔ Forall (λ res, Instances res = []) reservations) ∧
  (∀ before res after inst others,
     reservations = before ++ res :: after →
     Forall (λ res, Instances res = []) before →
     Instances res = inst :: others →
     result = found s inst).
Proof.
  intros Hout result. subst result. unfold GetRunningInstanceByTags.
  change InstanceStateNamePending with "pending".
  change InstanceStateNameRunning with "running".
  destruct (DescribeInstances x _ w) as [out w']. cbn in Hout. subst out. cbn.
  split.
  - induction reservations as [|res rest IH]; cbn; [by split; [constructor|]|].
    destruct (Instances res) as [|inst others] eqn:Hres.
    + rewrite IH. split; [by constructor|]. by inversion 1.
    + split; [intros Hfound; by apply found_is_present in Hfound|].
      inversion 1; congruence.
  - intros before res after inst others -> Hbefore Hres.
    induction Hbefore as [|res' before Hempty _ IH]; cbn; [by rewrite Hres|].
    by rewrite Hempty.
Qed.

(** X19.  [TerminateInstanceAndWait] waits only for an instance whose
    termination was accepted: the terminate call comes first, the wait
    call follows if and only if the terminate call succeeded, waiting
    starts from the state the terminate call left, and the result is nil
    exactly when both calls succeed.  An error has the cause of the call
    that failed. *)
Theorem terminate_then_wait (instanceID : string) (w : W) :
  let result := TerminateInstanceAndWait x instanceID w in
  match TerminateInstances x [Some instanceID] w with
  | (inl e, w1) =>
      result.2 = [CallTerminateInstances [Some instanceID]] ∧
      result.1.2 = w1 ∧
      ∃ e', result.1.1 = Err e' ∧ Cause e' = Cause e
  | (inr _, w1) =>
      result.2 = [CallTerminateInstances [Some instanceID];
                  CallWaitUntilInstanceTerminated [Some instanceID]] ∧
      result.1.2 = (WaitUntilInstanceTerminated x [Some instanceID] w1).2 ∧
      match (WaitUntilInstanceTerminated x [Some instanceID] w1).1 with
      | inl e => ∃ e', result.1.1 = Err e' ∧ Cause e' = Cause e
      | inr _ => result.1.1 = Ok tt
      end
  end.
Proof.
  cbv zeta. unfold TerminateInstanceAndWait, TerminateInstance.
  destruct (TerminateInstances x _ w) as [[e|[]] w1]; cbn.
  - split; [done|]. split; [done|]. eexists. split; reflexivity.
  - destruct (WaitUntilInstanceTerminated x _ w1) as [[e|[]] w2]; cbn.
    + split; [done|]. split; [done|]. eexists. split; reflexivity.
    + done.
Qed.

(** X20.  [GetFilteredSecurityGroupID] answers a reference without
    filters with the empty id and no call.  With filters - an empty list
    included - it asks the provider once; the provider's error is
    returned as it is, not wrapped; no matching group is an error that is
    not a FailedDependency; otherwise the first group decides. *)
Theorem filtered_security_group (securityGroup : AWSResourceReference) (w : W) :
  let result := GetFilteredSecurityGroupID x securityGroup w in
  match Ref_Filters securityGroup with
  | None => result = (Ok "", w, [])
  | Some given =>
      let filters :=
        map (λ f, {| sdk.Name := Some (Filter_Name f);
                     sdk.Values := map Some (Filter_Values f) |}) given in
      result.2 = [CallDescribeSecurityGroups filters] ∧
      match (DescribeSecurityGroups x filters w).1 with
      | inl e => result.1.1 = Err e
      | inr [] => ∃ e, result.1.1 = Err e ∧ IsFailedDependency e = false
      | inr (first :: _) =>
          result.1.1 = match GroupId first with Some id => Ok id | None => Panic end
      end
  end.
Proof.
  cbv zeta. unfold GetFilteredSecurityGroupID.
  destruct (Ref_Filters securityGroup) as [given|]; [|done].
  destruct (DescribeSecurityGroups x _ w) as [[e|[|first rest]] w']; cbn.
  - done.
  - split; [done|]. eexists. split; reflexivity.
  - done.
Qed.

End Lookups.

(** Two reservations, the first one empty: the lookup by tags returns
    the instance of the second one. *)
Lemma lookup_by_tags_witness :
  let reservations :=
    [ {| instances.Instances := [] |};
      {| instances.Instances := [instances.described "i-0002" false] |} ] in
  (instances.GetRunningInstanceByTags (fixtures.service "elb")
     (instances.double reservations [] [])
     (fixtures.machine "node" false fixtures.machineSpec) fixtures.world0).1.1
  = instances.found (fixtures.service "elb") (instances.described "i-0002" false).
Proof.
  intros reservations.
  destruct (lookup_by_tags (fixtures.service "elb") (instances.double reservations [] [])
              (fixtures.machine "node" false fixtures.machineSpec)
              fixtures.world0 reservations eq_refl) as [_ Hfirst].
  apply (Hfirst [ {| instances.Instances := [] |} ] _ [] _ [] eq_refl);
    [repeat constructor|reflexivity].
Defined.

(** * The create path of the controller *)

Section CreatePath.

Import infrav1 controllers entrypoints.
Context {W : Type} (r : awsClusterReconciler W).

Lemma invoke_trace (step : Step) (st : RSt W) (err : option error) (st' : RSt W) :
  invoke r step st = (err, st') → steps st' = steps st ++ [step].
Proof.
  unfold invoke. destruct (run r step _ _) as [[e cs] w]. by intros [= _ <-].
Qed.

Lemma lookup_trace (host : string) (st : RSt W) (err : option error) (st' : RSt W) :
  lookup r host st = (err, st') →
  steps st' = steps st ++ [NetLookupIP host] ∧ cscope st' = cscope st.
Proof.
  unfold lookup. destruct (LookupIP r host _) as [e w]. by intros [= _ <-].
Qed.

Lemma events_trace (step : Step) (st : RSt W) :
  steps (if EventBridgeInstanceState r then (invoke r step st).2 else st)
  = steps st ++ (if EventBridgeInstanceState r then [step] else []).
Proof.
  destruct (EventBridgeInstanceState r); [|by rewrite app_nil_r].
  destruct (invoke r step st) as [e st'] eqn:Hstep. by apply invoke_trace in Hstep.
Qed.

#[local] Ltac advance step e s :=
  let Hstep := fresh "Hstep" in
  lazymatch goal with
  | |- context [invoke r step ?st] =>
      destruct (invoke r step st) as [[e|] s] eqn:Hstep;
      apply invoke_trace in Hstep; cbn [steps update] in Hstep
  end.

(** X21.  [reconcileNormal] invokes its collaborators in one order: the
    patch that persists the finalizer, network, security groups,
    bastion, the event notifications if the feature gate is on, load
    balancers, bucket - and then at most the resolution of the load
    balancer's name.  When it returns an error, what it invoked is an
    initial part of that sequence, the result is empty, and the step
    invoked last is never the event notification step, whose failure
    does not end the run.  When it returns no error, every collaborator
    was invoked. *)
Theorem reconcileNormal_order (st : RSt W) :
  let out := reconcileNormal r st in
  ∃ l, steps out.2 = steps st ++ l ∧
       match out.1.2 with
       | Some _ =>
           out.1.1 = emptyResult ∧
           (∃ rest, convergers r = l ++ rest) ∧
           (∃ failed, last l = Some failed ∧ failed ≠ ReconcileEC2Events)
       | None =>
           l = convergers r ∨ ∃ host, l = convergers r ++ [NetLookupIP host]
       end.
Proof.
  cbv zeta. unfold reconcileNormal, convergers.
  advance PatchObject e1 s1.
  { exists [PatchObject]. cbn. split; [done|]. split; [done|]. split; eauto. }
  advance ReconcileNetwork e2 s2.
  { exists [PatchObject; ReconcileNetwork]. cbn. rewrite Hstep0, Hstep.
    rewrite <- app_assoc. split; [done|]. split; [done|]. split; eauto. }
  advance ReconcileSecurityGroups e3 s3.
  { exists [PatchObject; ReconcileNetwork; ReconcileSecurityGroups]. cbn.
    rewrite Hstep1, Hstep0, Hstep. rewrite <- !app_assoc.
    split; [done|]. split; [done|]. split; eauto. }
  advance ReconcileBastion e4 s4.
  { exists [PatchObject; ReconcileNetwork; ReconcileSecurityGroups; ReconcileBastion].
    cbn. rewrite Hstep2, Hstep1, Hstep0, Hstep. rewrite <- !app_assoc.
    split; [done|]. split; [done|]. split; eauto. }
  pose proof (events_trace ReconcileEC2Events s4) as Hevents.
  set (s5 := if EventBridgeInstanceState r then _ else s4) in *.
  clearbody s5.
  assert (Hs5 : steps s5 = steps st ++
            [PatchObject; ReconcileNetwork; ReconcileSecurityGroups; ReconcileBastion]
            ++ (if EventBridgeInstanceState r then [ReconcileEC2Events] else [])).
  { rewrite Hevents, Hstep2, Hstep1, Hstep0, Hstep. by rewrite <- !app_assoc. }
  clear Hevents Hstep Hstep0 Hstep1 Hstep2.
  advance ReconcileLoadbalancers e6 s6.
  { eexists. cbn. rewrite Hstep, Hs5. rewrite <- !app_assoc. split; [reflexivity|].
    split; [done|]. split.
    - exists [ReconcileBucket]. cbn. destruct (EventBridgeInstanceState r); done.
    - exists ReconcileLoadbalancers. destruct (EventBridgeInstanceState r); done. }
  advance ReconcileBucket e7 s7.
  { eexists. cbn. rewrite Hstep0, Hstep, Hs5. rewrite <- !app_assoc.
    split; [reflexivity|]. split; [done|]. split.
    - exists []. cbn. destruct (EventBridgeInstanceState r); done.
    - exists ReconcileBucket. destruct (EventBridgeInstanceState r); done. }
  assert (Hs7 : steps s7 = steps st ++
            [PatchObject; ReconcileNetwork; ReconcileSecurityGroups; ReconcileBastion]
            ++ (if EventBridgeInstanceState r then [ReconcileEC2Events] else [])
            ++ [ReconcileLoadbalancers; ReconcileBucket]).
  { rewrite Hstep0, Hstep, Hs5. rewrite <- !app_assoc.
    destruct (EventBridgeInstanceState r); done. }
  case_bool_decide as Hdns.
  { eexists. cbn. split; [exact Hs7|]. by left. }
  destruct (lookup r _ s7) as [[e8|] s8] eqn:Hlookup;
    apply lookup_trace in Hlookup as [Hs8 _];
    (eexists; cbn; rewrite Hs8, Hs7; rewrite <- !app_assoc;
     split; [reflexivity|]; right; eexists; rewrite <- !app_assoc; reflexivity).
Qed.

Lemma invoke_muted (step : Step) (st : RSt W) :
  step ≠ DeleteEC2Events → step ≠ ReconcileEC2Events →
  invoke (muted r) step st = invoke r step st.
Proof. intros. unfold invoke. by destruct step. Qed.

Lemma invoke_muted_state (step : Step) (st : RSt W) :
  (invoke (muted r) step st).2 = (invoke r step st).2.
Proof.
  unfold invoke. destruct step; try done; cbn;
    by destruct (run r _ _ _) as [[e cs] w].
Qed.

(** X22.  A failure of the event notification steps is never fatal, on
    either path: the result, the error, the object, the world and the
    trace of [reconcileDelete] and of [reconcileNormal] are the same
    whether those steps report their errors or not. *)
Theorem event_failures_ignored (st : RSt W) :
  reconcileDelete (muted r) st = reconcileDelete r st ∧
  reconcileNormal (muted r) st = reconcileNormal r st.
Proof.
  split.
  - unfold reconcileDelete.
    change (EventBridgeInstanceState (muted r)) with (EventBridgeInstanceState r).
    rewrite invoke_muted_state.
    set (st0 := if EventBridgeInstanceState r then _ else st). clearbody st0.
    rewrite invoke_muted by done.
    destruct (invoke r DeleteLoadbalancers st0) as [[e1|] s1]; [done|].
    rewrite invoke_muted by done.
    destruct (invoke r DeleteBastion s1) as [[e2|] s2]; [done|].
    rewrite invoke_muted by done.
    destruct (invoke r DeleteSecurityGroups s2) as [[e3|] s3]; [done|].
    rewrite invoke_muted by done.
    destruct (invoke r DeleteNetwork s3) as [[e4|] s4]; [done|].
    rewrite invoke_muted by done.
    destruct (invoke r DeleteBucket s4) as [[e5|] s5]; done.
  - unfold reconcileNormal.
    change (EventBridgeInstanceState (muted r)) with (EventBridgeInstanceState r).
    change (ClusterFinalizer (muted r)) with (ClusterFinalizer r).
    change (Default (muted r)) with (Default r).
    rewrite invoke_muted by done.
    destruct (invoke r PatchObject _) as [[e1|] s1]; [done|].
    rewrite invoke_muted by done.
    destruct (invoke r ReconcileNetwork s1) as [[e2|] s2]; [done|].
    rewrite invoke_muted by done.
    destruct (invoke r ReconcileSecurityGroups _) as [[e3|] s3]; [done|].
    rewrite invoke_muted by done.
    destruct (invoke r ReconcileBastion s3) as [[e4|] s4]; [done|].
    rewrite invoke_muted_state.
    set (s5 := if EventBridgeInstanceState r then _ else s4). clearbody s5.
    rewrite invoke_muted by done.
    destruct (invoke r ReconcileLoadbalancers s5) as [[e6|] s6]; [done|].
    rewrite invoke_muted by done.
    destruct (invoke r ReconcileBucket s6) as [[e7|] s7]; done.
Qed.

End CreatePath.

(** * What the create path leaves on the object *)

Section CreatePathObject.

Import infrav1 controllers tracing.
Context {W : Type} (r : awsClusterReconciler W).

Lemma replaceOrAppend_elem (cs : list Condition) (c : Condition) :
  c ∈ replaceOrAppend cs c.
Proof.
  induction cs as [|c' cs IH]; cbn; [by apply list_elem_of_singleton|].
  case_bool_decide; [by left|by right].
Qed.

Lemma setCondition_elem (cs : list Condition) (c : Condition) :
  c ∈ setCondition cs c.
Proof.
  unfold setCondition. rewrite merge_sort_Permutation. apply replaceOrAppend_elem.
Qed.

Lemma MarkFalse_recorded (a : AWSCluster) (t : ConditionType)
    (reason : ConditionReason) (severity : ConditionSeverity) (e : error) :
  recorded (MarkFalse a t reason severity (Some e)) t reason e.
Proof. eexists. split; [apply setCondition_elem|done]. Qed.

(** X23.  An error of [reconcileNormal] comes from the collaborator
    invoked last: that collaborator is the first one of the create path
    that returned an error, and the error returned by [reconcileNormal]
    is the collaborator's own - as it is, except for the bucket step,
    whose error is returned wrapped.  When the finalizer patch or the
    network step fails, the state is returned as the step left it.
    When a later step fails, the failure is recorded on the object
    before returning: the readiness condition of the failed step is set
    to false with the step's reason and the collaborator's error as
    message. *)
Theorem failure_is_recorded (st st' : RSt W) (res : Result) (err : error) :
  reconcileNormal r st = (res, Some err, st') →
  let a := awsCluster (cscope st') in
  ∃ failed cause left,
    createPath r st = (Some (failed, cause), left) ∧
    last (steps st') = Some failed ∧
    match failed with
    | PatchObject | ReconcileNetwork => err = cause ∧ st' = left
    | ReconcileSecurityGroups =>
        err = cause ∧
        recorded a ClusterSecurityGroupsReadyCondition
          ClusterSecurityGroupReconciliationFailedReason cause
    | ReconcileBastion =>
        err = cause ∧
        recorded a BastionHostReadyCondition BastionHostFailedReason cause
    | ReconcileLoadbalancers =>
        err = cause ∧
        recorded a LoadBalancerReadyCondition LoadBalancerFailedReason cause
    | ReconcileBucket =>
        err = Wrap cause (Sprintf "failed to reconcile S3 Bucket for AWSCluster %s/%s"
                            [AStr (Namespace a); AStr (Name a)]) ∧
        recorded a S3BucketReadyCondition S3BucketFailedReason cause
    | _ => False
    end.
Proof.
  unfold reconcileNormal, createPath. cbn [spec.runSteps].
  destruct (invoke r PatchObject _) as [[e1|] s1] eqn:H1.
  { intros [= _ <- <-]. apply invoke_trace in H1. exists PatchObject, e1, s1.
    rewrite H1, last_snoc. done. }
  destruct (invoke r ReconcileNetwork s1) as [[e2|] s2] eqn:H2.
  { intros [= _ <- <-]. apply invoke_trace in H2. exists ReconcileNetwork, e2, s2.
    rewrite H2, last_snoc. done. }
  destruct (invoke r ReconcileSecurityGroups _) as [[e3|] s3] eqn:H3.
  { intros [= _ <- <-]. apply invoke_trace in H3.
    exists ReconcileSecurityGroups, e3, s3.
    cbn [steps update]. rewrite H3, last_snoc. split; [done|]. split; [done|].
    split; [done|]. apply MarkFalse_recorded. }
  destruct (invoke r ReconcileBastion s3) as [[e4|] s4] eqn:H4.
  { intros [= _ <- <-]. apply invoke_trace in H4. exists ReconcileBastion, e4, s4.
    cbn [steps update]. rewrite H4, last_snoc. split; [done|]. split; [done|].
    split; [done|]. apply MarkFalse_recorded. }
  set (s5 := if EventBridgeInstanceState r then _ else s4). clearbody s5.
  destruct (invoke r ReconcileLoadbalancers s5) as [[e6|] s6] eqn:H6.
  { intros [= _ <- <-]. apply invoke_trace in H6.
    exists ReconcileLoadbalancers, e6, s6.
    cbn [steps update]. rewrite H6, last_snoc. split; [done|]. split; [done|].
    split; [done|]. apply MarkFalse_recorded. }
  destruct (invoke r ReconcileBucket s6) as [[e7|] s7] eqn:H7.
  { intros [= _ <- <-]. apply invoke_trace in H7. exists ReconcileBucket, e7, s7.
    cbn [steps update]. rewrite H7, last_snoc. split; [done|]. split; [done|].
    split; [done|]. apply MarkFalse_recorded. }
  case_bool_decide; [discriminate|].
  destruct (lookup r _ s7) as [[e8|] s8]; discriminate.
Qed.

Lemma existsb_zone (zone : string) (zones : list string) :
  existsb (λ az, bool_decide (az = zone)) zones = bool_decide (zone ∈ zones).
Proof.
  induction zones as [|z zones IH]; cbn; [by rewrite bool_decide_false by set_solver|].
  rewrite IH. destruct (decide (z = zone)) as [->|Hne].
  - rewrite (bool_decide_true (zone = zone)) by done.
    rewrite (bool_decide_true (zone ∈ zone :: zones)) by set_solver. done.
  - rewrite (bool_decide_false (z = zone)) by done. cbn.
    apply bool_decide_ext. split; [by right|].
    intros Hin. apply elem_of_cons in Hin as [?|?]; [congruence|done].
Qed.

(** The loop over the private subnets touches the failure domains only,
    and leaves one for every subnet it went through. *)
Lemma failureDomains_loop (l : list SubnetSpec) (a : AWSCluster) :
  let a' :=
    fold_left
      (λ a subnet,
         let found :=
           existsb (λ az, bool_decide (az = Subnet_AvailabilityZone subnet))
                   (AvailabilityZones a) in
         SetFailureDomain a (Subnet_AvailabilityZone subnet) {| ControlPlane := found |})
      l a in
  withFailureDomains a' (FailureDomains a) = a ∧
  ∀ sn, sn ∈ l →
    FailureDomains a' !! Subnet_AvailabilityZone sn
    = Some {| ControlPlane :=
                bool_decide (Subnet_AvailabilityZone sn ∈ AvailabilityZones a) |}.
Proof.
  induction l as [|x l IH] using rev_ind; cbn.
  - split; [by destruct a|]. intros sn Hsn. by apply elem_of_nil in Hsn.
  - rewrite fold_left_app. cbn. destruct IH as [Hsame IH].
    set (a' := fold_left _ l a) in *.
    assert (Hzones : AvailabilityZones a' = AvailabilityZones a)
      by apply (f_equal AvailabilityZones Hsame).
    split; [exact Hsame|].
    intros sn Hsn. unfold SetFailureDomain. cbn.
    destruct (decide (Subnet_AvailabilityZone x = Subnet_AvailabilityZone sn)) as [Heq|Hne].
    + rewrite Heq, lookup_insert_eq, existsb_zone, Hzones. done.
    + rewrite lookup_insert_ne by done. apply IH.
      apply elem_of_app in Hsn as [Hsn|Hsn]; [done|].
      apply list_elem_of_singleton in Hsn. congruence.
Qed.

Lemma setFailureDomains_private (a : AWSCluster) :
  withFailureDomains (setFailureDomains a) (FailureDomains a) = a ∧
  ∀ sn, sn ∈ FilterPrivate (NetworkSubnets a) →
    FailureDomains (setFailureDomains a) !! Subnet_AvailabilityZone sn
    = Some {| ControlPlane :=
                bool_decide (Subnet_AvailabilityZone sn ∈ AvailabilityZones a) |}.
Proof. apply failureDomains_loop. Qed.

#[local] Arguments setFailureDomains : simpl never.

(** X24.  When [reconcileNormal] returns no error and asks for no
    requeue, the object is ready: the load balancer's name is not empty,
    the control plane endpoint is that name with the API server port,
    the load balancer condition is true, and every private subnet's
    availability zone is published as a failure domain, marked for the
    control plane exactly when the load balancer serves that zone. *)
Theorem reconcileNormal_ready (st st' : RSt W) (res : Result) :
  reconcileNormal r st = (res, None, st') →
  RequeueAfter res = 0 →
  let a := awsCluster (cscope st') in
  Ready a = true ∧
  DNSName a ≠ "" ∧
  ControlPlaneEndpoint a = {| Host := DNSName a; Port := APIServerPort (cscope st') |} ∧
  (∃ c, c ∈ Conditions a ∧ Cond_Type c = LoadBalancerReadyCondition ∧
        Cond_Status c = true) ∧
  (∀ sn, sn ∈ NetworkSubnets a → Subnet_IsPublic sn = false →
     FailureDomains a !! Subnet_AvailabilityZone sn
     = Some {| ControlPlane :=
                 bool_decide (Subnet_AvailabilityZone sn ∈ AvailabilityZones a) |}).
Proof.
  unfold reconcileNormal.
  destruct (invoke r PatchObject _) as [[e1|] s1]; [discriminate|].
  destruct (invoke r ReconcileNetwork s1) as [[e2|] s2]; [discriminate|].
  destruct (invoke r ReconcileSecurityGroups _) as [[e3|] s3]; [discriminate|].
  destruct (invoke r ReconcileBastion s3) as [[e4|] s4]; [discriminate|].
  set (s5 := if EventBridgeInstanceState r then _ else s4). clearbody s5.
  destruct (invoke r ReconcileLoadbalancers s5) as [[e6|] s6]; [discriminate|].
  destruct (invoke r ReconcileBucket s6) as [[e7|] s7]; [discriminate|].
  case_bool_decide as Hdns; [by intros [= <- _]|].
  destruct (lookup r _ s7) as [[e8|] s8] eqn:Hlookup; [by intros [= <- _]|].
  apply lookup_trace in Hlookup as [_ Hscope].
  intros [= _ <-] _. cbn. rewrite Hscope in *.
  set (a0 := awsCluster (cscope s7)) in *.
  set (a1 := withEndpoint _ _).
  destruct (setFailureDomains_private a1) as [Hsame Hloop].
  assert (Hfields :
    DNSName (setFailureDomains a1) = DNSName a0 ∧
    ControlPlaneEndpoint (setFailureDomains a1)
    = {| Host := DNSName a0; Port := APIServerPort (cscope s7) |} ∧
    Conditions (setFailureDomains a1) = Conditions a1 ∧
    NetworkSubnets (setFailureDomains a1) = NetworkSubnets a1 ∧
    AvailabilityZones (setFailureDomains a1) = AvailabilityZones a1).
  { repeat split.
    - apply (f_equal DNSName Hsame).
    - apply (f_equal ControlPlaneEndpoint Hsame).
    - apply (f_equal Conditions Hsame).
    - apply (f_equal NetworkSubnets Hsame).
    - apply (f_equal AvailabilityZones Hsame). }
  destruct Hfields as (Hname & Hendpoint & Hconditions & Hsubnets & Hzones).
  split; [done|]. split; [by rewrite Hname|]. split; [by rewrite Hendpoint, Hname|].
  split.
  - rewrite Hconditions. eexists. split; [apply setCondition_elem|done].
  - rewrite Hsubnets, Hzones. intros sn Hsn Hprivate. apply Hloop.
    unfold FilterPrivate. apply list_elem_of_In, filter_In.
    split; [by apply list_elem_of_In|]. by rewrite Hprivate.
Qed.

End CreatePathObject.

(** The bastion step fails: its error is the one returned, and the
    bastion condition is false on the object that is left, with that
    error as message. *)
Lemma failure_is_recorded_witness :
  let out :=
    controllers.reconcileNormal (fixtures.reconciler [controllers.ReconcileBastion])
      (fixtures.begin "elb.example" ["elb.example"]) in
  out.1.2 = Some fixtures.internalError ∧
  ∃ c, c ∈ controllers.Conditions (controllers.awsCluster (controllers.cscope out.2)) ∧
       controllers.Cond_Type c = controllers.BastionHostReadyCondition ∧
       controllers.Cond_Status c = false ∧
       controllers.Cond_Message c = Some fixtures.internalError.
Proof.
  intros out.
  destruct (failure_is_recorded (fixtures.reconciler [controllers.ReconcileBastion])
              (fixtures.begin "elb.example" ["elb.example"]) _ _ _ eq_refl)
    as (failed & cause & left & Hpath & _ & Hrecorded).
  vm_compute in Hpath. injection Hpath as <- <- _.
  destruct Hrecorded as (_ & c & Hc & Htype & Hstatus & _ & Hmessage).
  split; [reflexivity|].
  exists c. split; [exact Hc|]. split; [exact Htype|]. split; [exact Hstatus|exact Hmessage].
Defined.

(** Every collaborator succeeds and the name resolves: the endpoint is
    the load balancer's name with port 6443, and both zones are failure
    domains, us-east-1a alone for the control plane. *)
Lemma reconcileNormal_ready_witness :
  let out :=
    controllers.reconcileNormal (fixtures.reconciler [])
      (fixtures.begin "elb.example" ["elb.example"]) in
  let a := controllers.awsCluster (controllers.cscope out.2) in
  controllers.ControlPlaneEndpoint a
  = {| controllers.Host := "elb.example"; controllers.Port := 6443 |} ∧
  controllers.FailureDomains a !! "us-east-1a"
  = Some {| controllers.ControlPlane := true |} ∧
  controllers.FailureDomains a !! "us-east-1b"
  = Some {| controllers.ControlPlane := false |}.
Proof.
  intros out a.
  destruct (reconcileNormal_ready (fixtures.reconciler [])
              (fixtures.begin "elb.example" ["elb.example"]) _ _ eq_refl eq_refl)
    as (_ & _ & Hendpoint & _ & Hdomains).
  split; [exact Hendpoint|]. split.
  - apply (Hdomains {| infrav1.Subnet_ID := "subnet-1";
                       infrav1.Subnet_AvailabilityZone := "us-east-1a";
                       infrav1.Subnet_IsPublic := false |}); [|reflexivity].
    vm_compute. left.
  - apply (Hdomains {| infrav1.Subnet_ID := "subnet-2";
                       infrav1.Subnet_AvailabilityZone := "us-east-1b";
                       infrav1.Subnet_IsPublic := false |}); [|reflexivity].
    vm_compute. right. left.
Defined.

(** * The entry point of the controller *)

Section EntryPoint.

Import controllers entrypoints.
Context {W : Type} (m : Manager W) (r : awsClusterReconciler W).

(** X25.  [Reconcile] leaves an object alone that is gone, that has no
    owner cluster yet, or that is paused: it returns the empty result
    and no error, invokes no collaborator, and hands the outside world
    back exactly as the reads it made left it - the world after the
    fetch of the object when the object is gone, after the look-up of
    the owner otherwise.  So nothing that changes the world took place:
    no patch helper, no scope, no close, no patch. *)
Theorem Reconcile_leaves_alone (req : NamespacedName) (w w' : W) :
  ((∃ err, get m req w = (inl err, w') ∧ IsNotFound m err = true) ∨
   (∃ fetched w1,
      get m req w = (inr fetched, w1) ∧
      (getOwnerCluster m fetched w1 = (inr None, w') ∨
       ∃ cluster, getOwnerCluster m fetched w1 = (inr (Some cluster), w') ∧
                  IsPaused m cluster fetched = true))) →
  let o := Reconcile m r req w in
  result o = emptyResult ∧ reterr o = None ∧ invoked o = [] ∧
  after o = w' ∧
  (NewHelper ∉ events o) ∧ (Patch ∉ events o).
Proof.
  unfold Reconcile.
  intros [(err & -> & ->)|(fetched & w1 & -> & [->|(cluster & -> & ->)])];
    cbn; repeat split; try done; by apply (bool_decide_unpack _).
Qed.

(** X26.  Once the scope exists, [Reconcile] runs exactly one path - the
    delete path if and only if the deletion timestamp is set - on the
    fetched object, and hands back the path's result.  Whatever the path
    returns, the scope is then closed and the object the path left is
    patched, in that order, the patch starting from the world the close
    left.  An error of the path is returned as it is; an error of the
    close is returned only when the path returned none; an error of the
    patch is never returned. *)
Theorem Reconcile_dispatch (req : NamespacedName) (w w1 w2 w3 w4 : W)
    (fetched : Fetched) (cluster : Cluster) (clusterScope : ClusterScope) :
  get m req w = (inr fetched, w1) →
  getOwnerCluster m fetched w1 = (inr (Some cluster), w2) →
  IsPaused m cluster fetched = false →
  newHelper m fetched w2 = (None, w3) →
  newClusterScope m cluster fetched w3 = (inr clusterScope, w4) →
  let st0 := {| cscope := withCluster clusterScope (object fetched);
                rworld := w4; steps := [] |} in
  let path :=
    if deletionRequested fetched then reconcileDelete r st0 else reconcileNormal r st0 in
  let closed := close m (cscope path.2) (rworld path.2) in
  let o := Reconcile m r req w in
  result o = path.1.1 ∧
  invoked o = steps path.2 ∧
  events o = [Get; GetOwnerCluster; NewHelper; NewClusterScope; Close; Patch] ∧
  reterr o = match path.1.2 with Some err => Some err | None => closed.1 end ∧
  after o = (patch m (awsCluster (cscope path.2)) closed.2).2.
Proof.
  intros Hget Howner Hpaused Hhelper Hscope. cbv zeta. unfold Reconcile.
  rewrite Hget, Howner, Hpaused, Hhelper, Hscope.
  destruct (if deletionRequested fetched then _ else _) as [[res err] st'].
  cbn. destruct (close m _ _) as [closeErr w5]. cbn.
  destruct (patch m _ w5) as [patchErr w6]. cbn.
  repeat split. by destruct closeErr, err.
Qed.

(** X27.  The mapping from a cluster to reconcile requests yields at
    most one request.  It yields one exactly when the cluster is not
    being deleted, its infrastructure reference is of kind AWSCluster,
    the referenced object can be fetched and is not externally managed.
    The request then carries the name of the reference and the
    namespace of the cluster, while the object was fetched from the
    namespace of the reference.  An object that is not a cluster makes
    the function panic. *)
Theorem requeue_for_cluster (lookup : NamespacedName → option (gmap string string))
    (o : ClientObject) :
  match o with
  | OfAnotherType => requeueAWSClusterForUnpausedCluster lookup o = None
  | OfCluster c =>
      ∃ requests,
        requeueAWSClusterForUnpausedCluster lookup o = Some requests ∧
        (length requests ≤ 1)%nat ∧
        ∀ request,
          request ∈ requests ↔
          Cluster_Deleted c = false ∧
          ∃ ref annotations,
            InfrastructureRef c = Some ref ∧
            Ref_Kind ref = "AWSCluster" ∧
            lookup {| Key_Namespace := Ref_Namespace ref; Key_Name := Ref_Name ref |}
            = Some annotations ∧
            annotations !! "cluster.x-k8s.io/managed-by" = None ∧
            request = {| Req_Namespace := Cluster_Namespace c;
                         Req_Name := Ref_Name ref |}
  end.
Proof.
  destruct o as [c|]; [|done]. unfold requeueAWSClusterForUnpausedCluster.
  destruct (Cluster_Deleted c).
  { exists []. split; [done|]. split; [cbn; lia|]. intros request. split.
    - intros Hin. by apply elem_of_nil in Hin.
    - by intros [? _]. }
  destruct (InfrastructureRef c) as [ref|].
  2:{ exists []. split; [done|]. split; [cbn; lia|]. intros request. split.
      - intros Hin. by apply elem_of_nil in Hin.
      - by intros (_ & ? & ? & ? & _). }
  case_bool_decide as Hkind.
  { exists []. split; [done|]. split; [cbn; lia|]. intros request. split.
    - intros Hin. by apply elem_of_nil in Hin.
    - intros (_ & ? & ? & [= <-] & ? & _). done. }
  destruct (lookup _) as [annotations|] eqn:Hlookup.
  2:{ exists []. split; [done|]. split; [cbn; lia|]. intros request. split.
      - intros Hin. by apply elem_of_nil in Hin.
      - intros (_ & ? & ? & [= <-] & _ & ? & _). congruence. }
  case_bool_decide as Hmanaged.
  { exists []. split; [done|]. split; [cbn; lia|]. intros request. split.
    - intros Hin. by apply elem_of_nil in Hin.
    - intros (_ & ? & ? & [= <-] & _ & Hfound & Hnone & _).
      rewrite Hlookup in Hfound. injection Hfound as <-.
      rewrite Hnone in Hmanaged. by destruct Hmanaged. }
  eexists. split; [reflexivity|]. split; [cbn; lia|]. intros request. split.
  - intros Hin. apply list_elem_of_singleton in Hin as ->. split; [done|].
    exists ref, annotations. repeat split; try done.
    by apply eq_None_not_Some.
  - intros (_ & ? & ? & [= <-] & _ & _ & _ & ->). by apply list_elem_of_singleton.
Qed.

End EntryPoint.

(** An object whose owner is not set yet, in a store where closing and
    patching leave a mark: the world comes back without a mark. *)
Lemma Reconcile_leaves_alone_witness :
  let o :=
    entrypoints.Reconcile entrypoints.unowned (fixtures.reconciler [])
      {| entrypoints.Key_Namespace := "default";
         entrypoints.Key_Name := "test-cluster" |} ["elb.example"] in
  entrypoints.reterr o = None ∧ entrypoints.invoked o = [] ∧
  entrypoints.after o = ["elb.example"].
Proof.
  intros o.
  destruct (Reconcile_leaves_alone entrypoints.unowned (fixtures.reconciler [])
              {| entrypoints.Key_Namespace := "default";
                 entrypoints.Key_Name := "test-cluster" |}
              ["elb.example"] ["elb.example"])
    as (_ & Herr & Hinvoked & Hafter & _).
  - right. eexists _, _. split; [reflexivity|]. left. reflexivity.
  - split; [exact Herr|]. split; [exact Hinvoked|exact Hafter].
Defined.

(** The same object once it has an owner: the scope is closed and the
    object is patched, and both leave their mark. *)
Example Reconcile_owned_is_patched :
  entrypoints.after
    (entrypoints.Reconcile (entrypoints.store false false) (fixtures.reconciler [])
       {| entrypoints.Key_Namespace := "default";
          entrypoints.Key_Name := "test-cluster" |} ["elb.example"])
  = ["elb.example"; "closed"; "patched"].
Proof. vm_compute. reflexivity. Qed.

(** A deletion whose load-balancer step fails and whose scope cannot be
    closed: the error of the path is the one returned. *)
Lemma Reconcile_dispatch_witness :
  let o :=
    entrypoints.Reconcile (entrypoints.store true true)
      (fixtures.reconciler [controllers.DeleteLoadbalancers])
      {| entrypoints.Key_Namespace := "default";
         entrypoints.Key_Name := "test-cluster" |} [] in
  entrypoints.reterr o = Some fixtures.internalError ∧
  entrypoints.invoked o = [controllers.DeleteEC2Events; controllers.DeleteLoadbalancers].
Proof.
  intros o.
  destruct (Reconcile_dispatch (entrypoints.store true true)
              (fixtures.reconciler [controllers.DeleteLoadbalancers])
              {| entrypoints.Key_Namespace := "default";
                 entrypoints.Key_Name := "test-cluster" |} [] _ _ _ _ _ _ _
              eq_refl eq_refl eq_refl eq_refl eq_refl)
    as (_ & Hinvoked & _ & Herr & _).
  split; [exact Herr|exact Hinvoked].
Defined.

(** * Admission of cluster objects *)

Section AdmissionRules.

Import webhook.
Context `{ApiTypes}.

(** X28.  An update that changes nothing is never an immutability
    violation and never dereferences nil: [ValidateUpdate] of an object
    against itself reports the errors of the bastion validation and
    nothing else. *)
Theorem update_to_itself (r : AWSCluster) :
  ValidateUpdate r (OfAWSCluster r)
  = aggregateObjErrors (Name r) (Bastion_Validate (Spec_Bastion (Spec r))).
Proof.
  unfold ValidateUpdate.
  assert (Hscheme : schemeErrors r r = Some []).
  { unfold schemeErrors. destruct (ControlPlaneLoadBalancer (Spec r)) as [lb|]; [|done].
    by rewrite bool_decide_false by (intros Hne; by apply Hne). }
  assert (Hregion : regionErrors r r = []).
  { unfold regionErrors. by rewrite bool_decide_false by (intros Hne; by apply Hne). }
  assert (Hendpoint : endpointErrors r r = []).
  { unfold endpointErrors.
    rewrite (bool_decide_false
               (ControlPlaneEndpoint (Spec r) ≠ ControlPlaneEndpoint (Spec r)))
      by (intros Hne; by apply Hne).
    by rewrite andb_false_r. }
  assert (Hvpc : vpcErrors r r = []).
  { unfold vpcErrors. repeat case_bool_decide; cbn; congruence. }
  assert (Hidentity : identityErrors r r = []).
  { unfold identityErrors. by destruct (IdentityRef (Spec r)). }
  assert (Hmanaged : managedErrors r r = []).
  { unfold managedErrors. by destruct (IsExternallyManaged r). }
  by rewrite Hscheme, Hregion, Hendpoint, Hvpc, Hidentity, Hmanaged.
Qed.

(** X29.  What an update without errors guarantees.  If the list of
    errors handed to [aggregateObjErrors] is empty, then the region is
    unchanged; the load-balancer scheme is the old one, or, if the old
    object had no load-balancer spec, absent or internet-facing; a
    control plane endpoint that was set is unchanged; a VPC id that was
    set is unchanged; an identity reference that was set is still set;
    and the externally-managed annotation was not removed. *)
Theorem accepted_update (r oldC : AWSCluster) :
  ValidateUpdate r (OfAWSCluster oldC) = aggregateObjErrors (Name r) [] →
  Region (Spec r) = Region (Spec oldC) ∧
  match ControlPlaneLoadBalancer (Spec oldC) with
  | Some existing =>
      Scheme existing = (ControlPlaneLoadBalancer (Spec r) ≫= Scheme)
  | None =>
      (ControlPlaneLoadBalancer (Spec r) ≫= Scheme) = None ∨
      (ControlPlaneLoadBalancer (Spec r) ≫= Scheme) = Some ClassicELBSchemeInternetFacing
  end ∧
  (ControlPlaneEndpoint (Spec oldC) ≠ {| Host := ""; Port := 0 |} →
   ControlPlaneEndpoint (Spec r) = ControlPlaneEndpoint (Spec oldC)) ∧
  (VPC_ID (VPC (Spec_NetworkSpec (Spec oldC))) ≠ "" →
   VPC_ID (VPC (Spec_NetworkSpec (Spec r)))
   = VPC_ID (VPC (Spec_NetworkSpec (Spec oldC)))) ∧
  (is_Some (IdentityRef (Spec oldC)) → is_Some (IdentityRef (Spec r))) ∧
  (IsExternallyManaged oldC = true → IsExternallyManaged r = true).
Proof.
  unfold ValidateUpdate.
  destruct (schemeErrors r oldC) as [scheme|] eqn:Hscheme; [|discriminate].
  intros [= Herrs].
  apply app_eq_nil in Herrs as [Hregion Herrs].
  apply app_eq_nil in Herrs as [-> Herrs].
  apply app_eq_nil in Herrs as [Hendpoint Herrs].
  apply app_eq_nil in Herrs as [Hvpc Herrs].
  apply app_eq_nil in Herrs as [Hidentity Herrs].
  apply app_eq_nil in Herrs as [Hmanaged _].
  split; [|split; [|split; [|split; [|split]]]].
  - unfold regionErrors in Hregion. by case_bool_decide.
  - unfold schemeErrors in Hscheme.
    destruct (ControlPlaneLoadBalancer (Spec oldC)) as [existing|].
    + case_bool_decide as Hsame.
      * by destruct (ControlPlaneLoadBalancer (Spec r)).
      * by destruct (ControlPlaneLoadBalancer (Spec r)).
    + destruct (ControlPlaneLoadBalancer (Spec r)) as [lb|]; [|by left]. cbn.
      destruct (Scheme lb) as [scheme|]; [|by left].
      case_bool_decide as Hfacing; [discriminate|]. right. by f_equal.
  - intros Hset. unfold endpointErrors in Hendpoint.
    rewrite (bool_decide_true _ Hset) in Hendpoint. cbn in Hendpoint.
    by case_bool_decide.
  - intros Hset. unfold vpcErrors in Hvpc.
    assert (Hvpcset : VPC (Spec_NetworkSpec (Spec oldC)) ≠ zeroVPCSpec).
    { intros Hzero. apply Hset. rewrite Hzero. apply VPC_ID_zero. }
    assert (Hnetset : Spec_NetworkSpec (Spec oldC) ≠ zeroNetworkSpec).
    { intros Hzero. apply Hvpcset. rewrite Hzero. apply VPC_zero. }
    rewrite (bool_decide_true _ Hnetset), (bool_decide_true _ Hvpcset),
      (bool_decide_true _ Hset) in Hvpc. cbn in Hvpc.
    destruct (bool_decide (Spec_NetworkSpec (Spec r) = zeroNetworkSpec)); [done|].
    destruct (bool_decide (VPC (Spec_NetworkSpec (Spec r)) = zeroVPCSpec)); [done|].
    cbn in Hvpc. by case_bool_decide.
  - intros [identity Hidentity']. unfold identityErrors in Hidentity.
    rewrite Hidentity' in Hidentity. by destruct (IdentityRef (Spec r)).
  - intros Hold. unfold managedErrors in Hmanaged. rewrite Hold in Hmanaged.
    by destruct (IsExternallyManaged r).
Qed.

(** X30.  [ValidateUpdate] dereferences a nil pointer exactly when the
    old object has a load-balancer spec with a scheme and the new object
    has no load-balancer spec: the scheme then differs, and the error
    for it is built from the scheme of the absent spec.  Dropping a
    load-balancer spec that has no scheme is accepted by the check. *)
Theorem update_nil_dereference (r oldC : AWSCluster) :
  ValidateUpdate r (OfAWSCluster oldC) = NilDereference
  ↔ ControlPlaneLoadBalancer (Spec r) = None ∧
    ∃ existing scheme,
      ControlPlaneLoadBalancer (Spec oldC) = Some existing ∧
      Scheme existing = Some scheme.
Proof.
  unfold ValidateUpdate, schemeErrors.
  destruct (ControlPlaneLoadBalancer (Spec oldC)) as [existing|].
  - destruct (ControlPlaneLoadBalancer (Spec r)) as [lb|].
    + case_bool_decide; (split; [discriminate|by intros [? _]]).
    + destruct (Scheme existing) as [scheme|] eqn:Hexisting.
      * rewrite bool_decide_true by done. split; [eauto|done].
      * rewrite bool_decide_false by (intros Hne; by apply Hne).
        split; [discriminate|]. intros (_ & ? & ? & [= <-] & ?). congruence.
  - destruct (ControlPlaneLoadBalancer (Spec r) ≫= Scheme) as [scheme|] eqn:Hnew.
    + destruct (ControlPlaneLoadBalancer (Spec r)) as [lb|]; [|done].
      cbn in Hnew. rewrite Hnew.
      case_bool_decide; (split; [discriminate|by intros (_ & ? & ? & ? & _)]).
    + destruct (ControlPlaneLoadBalancer (Spec r)) as [lb|].
      * cbn in Hnew. rewrite Hnew. split; [discriminate|by intros [? _]].
      * split; [discriminate|by intros (_ & ? & ? & ? & _)].
Qed.

(** Defaulting and validation fit together: [Default] always
    leaves an identity reference, keeps the one that was given, and
    changes neither the region, the load-balancer spec, the endpoint nor
    the SSH key name; so after defaulting an update never meets the
    error for an identity reference set to nil. *)
Lemma default_sets_identity (r oldC : AWSCluster) :
  is_Some (IdentityRef (Spec (Default r))) ∧
  (∀ given, IdentityRef (Spec r) = Some given →
            IdentityRef (Spec (Default r)) = Some given) ∧
  identityErrors (Default r) oldC = [] ∧
  regionErrors (Default r) oldC = regionErrors r oldC ∧
  schemeErrors (Default r) oldC = schemeErrors r oldC ∧
  endpointErrors (Default r) oldC = endpointErrors r oldC.
Proof.
  unfold identityErrors. cbn.
  destruct (IdentityRef (Spec r)) as [given|]; cbn;
    (split; [by eexists|]); (split; [by intros ? [= <-] || done|]);
    by destruct (IdentityRef (Spec oldC)).
Qed.

End AdmissionRules.

(** Moving a cluster with VPC vpc-1 to another region is rejected, so an
    accepted update keeps the region; here the update changes nothing. *)
Lemma accepted_update_witness :
  let c := webhook.sampleCluster "us-east-1" "vpc-1" (Some "internal") "elb.example" in
  webhook.Region (webhook.Spec c) = "us-east-1" ∧
  webhook.ValidateUpdate (webhook.sampleCluster "eu-west-1" "vpc-1" (Some "internal")
                            "elb.example") (webhook.OfAWSCluster c)
  ≠ webhook.aggregateObjErrors "test-cluster" [].
Proof.
  intros c. split.
  - exact (proj1 (accepted_update c c eq_refl)).
  - vm_compute. discriminate.
Defined.
